(** * ImgOpti: the image processing pipeline, embedded and verified

    A shallow embedding of the processing core of ImgOpti
    ([js/modules/utils.js], [imageProcessor.js], [smartCompression.js],
    [formatConverter.js], [imageCompressor.js], [stateManager.js],
    [downloadManager.js], [imageLoader.js] and [app.js]) together with
    the properties its specification states about it and further
    properties of the code.

    Conventions of the embedding.
    - A JavaScript number is a [JS.number]: a rational, [NaN] or a signed
      infinity.  The operations of [JS] are exact: in them the rounding of
      the double arithmetic and the sign of zero are idealised away (a
      finite value is the exact rational); the special values that a
      division by zero produces are kept.  The operations of [Double]
      round their result to the nearest double, as IEEE 754 does; the
      savings percentage of a result ([calculateSavings],
      [createResultObject]) is computed with them.
    - Strings are [string]s of 8-bit characters; [toLowerCase] folds the
      ASCII letters.
    - Plain objects used as tables are [gmap]s; only own properties are
      modelled.  For a name that every object inherits ([Obj.inherited])
      a lookup in the code finds a function or an object instead of an
      entry, so the statements about the tables are made for the other
      names.
    - A canvas keeps the numbers assigned to its width and height;
      [canvas_side] is the conversion to a whole number that the browser
      applies, written out where a fractional size is assigned.
    - The host environment (image decoding, EXIF reading, [canvas.toBlob],
      the compression library, pixel access) is a record of functions,
      [Host.Env]; the calls that decode, read EXIF data, encode or
      compress are logged, in order, in a trace of [Host.Event]s.
    - Asynchronous functions are run to completion: [await] is sequencing
      in the monad [Host.M], a rejected promise is the error result.
    - [canvas.toDataURL] and the ids that [generateId] draws are
      parameters of the functions that use them. *)

From Stdlib Require Import ZArith QArith Qround Qabs Qpower Lqa String Ascii
  List Lia Bool.
From stdpp Require Import base gmap strings list.

Local Open Scope Z_scope.

(** ** JavaScript numbers *)

Module JS.

Inductive number : Type :=
| NaN
| Inf (negative : bool)
| Fin (q : Q).

Definition of_Z (z : Z) : number := Fin (inject_Z z).
Definition of_N (n : N) : number := of_Z (Z.of_N n).

Definition Qis_zero (q : Q) : bool := Qnum q =? 0.
Definition Qis_neg (q : Q) : bool := Qnum q <? 0.
Definition Qltb (x y : Q) : bool :=
  match (x ?= y)%Q with Lt => true | _ => false end.

(** [a + b], [a - b], [a * b], [a / b] *)
Definition add (a b : number) : number :=
  match a, b with
  | NaN, _ | _, NaN => NaN
  | Fin x, Fin y => Fin (x + y)
  | Inf s, Inf t => if Bool.eqb s t then Inf s else NaN
  | Inf s, Fin _ => Inf s
  | Fin _, Inf t => Inf t
  end.

Definition sub (a b : number) : number :=
  match a, b with
  | NaN, _ | _, NaN => NaN
  | Fin x, Fin y => Fin (x - y)
  | Inf s, Inf t => if Bool.eqb s t then NaN else Inf s
  | Inf s, Fin _ => Inf s
  | Fin _, Inf t => Inf (negb t)
  end.

Definition mul (a b : number) : number :=
  match a, b with
  | NaN, _ | _, NaN => NaN
  | Fin x, Fin y => Fin (x * y)
  | Inf s, Inf t => Inf (xorb s t)
  | Inf s, Fin y => if Qis_zero y then NaN else Inf (xorb s (Qis_neg y))
  | Fin x, Inf t => if Qis_zero x then NaN else Inf (xorb (Qis_neg x) t)
  end.

Definition div (a b : number) : number :=
  match a, b with
  | NaN, _ | _, NaN => NaN
  | Inf _, Inf _ => NaN
  | Inf s, Fin y => Inf (xorb s (Qis_neg y))
  | Fin _, Inf _ => Fin 0
  | Fin x, Fin y =>
      if Qis_zero y then (if Qis_zero x then NaN else Inf (Qis_neg x))
      else Fin (x / y)
  end.

(** [a < b], [a > b], [a <= b], [a === b] *)
Definition lt (a b : number) : bool :=
  match a, b with
  | NaN, _ | _, NaN => false
  | Fin x, Fin y => Qltb x y
  | Inf s, Inf t => s && negb t
  | Inf s, Fin _ => s
  | Fin _, Inf t => negb t
  end.

Definition strict_eq (a b : number) : bool :=
  match a, b with
  | Fin x, Fin y => Qeq_bool x y
  | Inf s, Inf t => Bool.eqb s t
  | _, _ => false
  end.

Definition gt (a b : number) : bool := lt b a.
Definition le (a b : number) : bool := lt a b || strict_eq a b.
Definition ge (a b : number) : bool := le b a.

(** [Math.max(a, b)], [Math.min(a, b)] *)
Definition max (a b : number) : number :=
  match a, b with
  | NaN, _ | _, NaN => NaN
  | _, _ => if lt a b then b else a
  end.

Definition min (a b : number) : number :=
  match a, b with
  | NaN, _ | _, NaN => NaN
  | _, _ => if lt b a then b else a
  end.

(** [Math.round]: the nearest integer, a tie going up. *)
Definition round_half_up (q : Q) : Z := Qfloor (q + (1 # 2)).

Definition round (a : number) : number :=
  match a with
  | Fin q => of_Z (round_half_up q)
  | _ => a
  end.

(** [Math.floor] *)
Definition floor (a : number) : number :=
  match a with
  | Fin q => of_Z (Qfloor q)
  | _ => a
  end.

(** [Math.abs] *)
Definition abs (a : number) : number :=
  match a with
  | NaN => NaN
  | Inf _ => Inf false
  | Fin q => Fin (Qabs q)
  end.

(** Truthiness of a number: [0] and [NaN] are falsy. *)
Definition truthy (a : number) : bool :=
  match a with
  | NaN => false
  | Inf _ => true
  | Fin q => negb (Qis_zero q)
  end.

(** [a || b] on numbers *)
Definition or (a b : number) : number := if truthy a then a else b.

End JS.

(** ** Doubles *)

Module Double.

(** [2^e] *)
Definition pow2 (e : Z) : Q := (2 ^ e)%Q.

(** The whole number nearest to [q], a tie going to the even one. *)
Definition nearest_even (q : Q) : Z :=
  let f := Qfloor q in
  match (q - inject_Z f ?= 1 # 2)%Q with
  | Lt => f
  | Gt => f + 1
  | Eq => if Z.even f then f else f + 1
  end.

(** [floor (log2 |q|)], for a [q] other than 0. *)
Definition ilog2 (q : Q) : Z :=
  let e := Z.log2 (Z.abs (Qnum q)) - Z.log2 (Z.pos (Qden q)) in
  if Qle_bool (pow2 e) (Qabs q) then e else e - 1.

(** The exponent of the last binary place of the doubles around [q]: a
    double has 53 significant bits, and no place below [2^-1074]. *)
Definition last_place (q : Q) : Z := Z.max (ilog2 q - 52) (-1074).

(** The multiple of the last place nearest to [q], a tie going to the
    even multiple. *)
Definition nearest_value (q : Q) : Q :=
  (inject_Z (nearest_even (q / pow2 (last_place q)))
   * pow2 (last_place q))%Q.

(** The double nearest to [q], which is what an operation on doubles
    returns for the exact result [q]: the nearest multiple of the last
    place, and an infinity when that multiple reaches [2^1024]. *)
Definition nearest (q : Q) : JS.number :=
  if JS.Qis_zero q then JS.Fin 0
  else
    let r := nearest_value q in
    if Qle_bool (pow2 1024) (Qabs r) then JS.Inf (JS.Qis_neg q)
    else JS.Fin r.

Definition rounded (a : JS.number) : JS.number :=
  match a with
  | JS.Fin q => nearest q
  | _ => a
  end.

(** [a + b], [a - b], [a * b], [a / b] on doubles *)
Definition add (a b : JS.number) : JS.number := rounded (JS.add a b).
Definition sub (a b : JS.number) : JS.number := rounded (JS.sub a b).
Definition mul (a b : JS.number) : JS.number := rounded (JS.mul a b).
Definition div (a b : JS.number) : JS.number := rounded (JS.div a b).

End Double.

(** ** Objects used as tables *)

Module Obj.

(** The names of the properties of [Object.prototype].  A table written
    as an object literal inherits them: [table[name]] is a function (an
    object for [__proto__]) for each of them, also when the table does
    not list the name. *)
Definition prototype_names : list string :=
  ["constructor"; "__defineGetter__"; "__defineSetter__"; "hasOwnProperty";
   "__lookupGetter__"; "__lookupSetter__"; "isPrototypeOf";
   "propertyIsEnumerable"; "toString"; "valueOf"; "__proto__";
   "toLocaleString"]%string.

Definition inherited (name : string) : bool :=
  existsb (String.eqb name) prototype_names.

End Obj.

(** ** Strings *)

Module Str.

(** [s.lastIndexOf(c)], [-1] when [c] does not occur. *)
Fixpoint lastIndexOf_from (c : ascii) (s : string) (i acc : Z) : Z :=
  match s with
  | EmptyString => acc
  | String a s' =>
      lastIndexOf_from c s' (i + 1) (if Ascii.eqb a c then i else acc)
  end.

Definition lastIndexOf (c : ascii) (s : string) : Z :=
  lastIndexOf_from c s 0 (-1).

(** [s.slice(start, stop)]: a negative index counts from the end. *)
Definition slice (s : string) (start stop : Z) : string :=
  let len := Z.of_nat (String.length s) in
  let norm i := if i <? 0 then Z.max (len + i) 0 else Z.min i len in
  let a := norm start in
  let b := norm stop in
  substring (Z.to_nat a) (Z.to_nat (b - a)) s.

(** [s.slice(start)] *)
Definition slice_from (s : string) (start : Z) : string :=
  slice s start (Z.of_nat (String.length s)).

Definition lower_ascii (c : ascii) : ascii :=
  let n := nat_of_ascii c in
  if ((65 <=? n) && (n <=? 90))%nat then ascii_of_nat (n + 32) else c.

(** [s.toLowerCase()] *)
Fixpoint toLowerCase (s : string) : string :=
  match s with
  | EmptyString => EmptyString
  | String a s' => String (lower_ascii a) (toLowerCase s')
  end.

(** [s.includes(sub)] *)
Fixpoint includes (sub s : string) : bool :=
  String.prefix sub s
  || match s with
     | EmptyString => false
     | String _ s' => includes sub s'
     end.

(** [a || b] on strings: the empty string is falsy. *)
Definition or (a b : string) : string :=
  if String.eqb a "" then b else a.

End Str.

(** ** Blobs, files and errors *)

(** A [Blob]: its MIME type, its size in bytes and a handle on its
    content.  A [File] is a blob with a name. *)
Record Blob : Type := mkBlob {
  blob_type : string;
  blob_size : N;
  blob_content : N
}.

Record File : Type := mkFile {
  file_name : string;
  file_type : string;
  file_size : N;
  file_content : N
}.

(** [new File([blob], name, {type})] *)
Definition File_of_blob (b : Blob) (name type : string) : File :=
  mkFile name type (blob_size b) (blob_content b).

Definition Blob_of_file (f : File) : Blob :=
  mkBlob (file_type f) (file_size f) (file_content f).

(** [utils.js]: [ErrorCodes] *)
Inductive ErrorCode : Type :=
| FILE_TOO_LARGE
| INVALID_FILE_TYPE
| FILE_CORRUPTED
| CANVAS_MEMORY
| COMPRESSION_FAILED
| CONVERSION_FAILED
| WEBWORKER_UNAVAILABLE
| CANVAS_UNSUPPORTED
| LIBRARY_LOAD_FAILED.

(** A thrown value: an [ImageOptimizerError] (message and code; every
    construction site leaves [recoverable] at its default) or a plain
    [Error]. *)
Inductive JsError : Type :=
| ImageOptimizerError (message : string) (code : ErrorCode)
| Error (message : string).

Definition error_message (e : JsError) : string :=
  match e with
  | ImageOptimizerError m _ => m
  | Error m => m
  end.

(** [error instanceof ImageOptimizerError] *)
Definition is_ImageOptimizerError (e : JsError) : bool :=
  match e with
  | ImageOptimizerError _ _ => true
  | Error _ => false
  end.

Definition error_code (e : JsError) : option ErrorCode :=
  match e with
  | ImageOptimizerError _ c => Some c
  | Error _ => None
  end.

(** ** [utils.js] *)

Module Utils.

Definition MAX_FILE_SIZE : N := 10 * 1024 * 1024.

Definition ALLOWED_TYPES : list string :=
  ["image/jpeg"; "image/png"; "image/webp"; "image/gif"]%string.

(** [ALLOWED_TYPES.includes(t)] *)
Definition array_includes (l : list string) (t : string) : bool :=
  existsb (String.eqb t) l.

Section validateFile.

(** [formatFileSize] only renders a size for display in a message; it
    is kept abstract. *)
Variable formatFileSize : N -> string.

(** [validateFile(file)]; [None] is a missing ([null] or [undefined])
    file. *)
Definition validateFile (file : option File) : JsError + bool :=
  match file with
  | None => inl (ImageOptimizerError "No file selected" INVALID_FILE_TYPE)
  | Some f =>
      if (MAX_FILE_SIZE <? file_size f)%N then
        inl (ImageOptimizerError
               ("File size " ++ formatFileSize (file_size f)
                  ++ " exceeds 10MB limit")
               FILE_TOO_LARGE)
      else if negb (array_includes ALLOWED_TYPES (file_type f)) then
        inl (ImageOptimizerError
               ("File type " ++ Str.or (file_type f) "unknown"
                  ++ " is not supported")
               INVALID_FILE_TYPE)
      else inr true
  end.

End validateFile.

Definition mimeTypes : gmap string string :=
  list_to_map
    [("jpeg", "image/jpeg"); ("jpg", "image/jpeg"); ("png", "image/png");
     ("webp", "image/webp"); ("gif", "image/gif")]%string.

(** [getMimeType(format)], for a [format] whose lower-case form is not
    an inherited name. *)
Definition getMimeType (format : string) : string :=
  default "image/jpeg"%string (mimeTypes !! Str.toLowerCase format).

Definition extensions : gmap string string :=
  list_to_map
    [("image/jpeg", "jpg"); ("image/png", "png"); ("image/webp", "webp");
     ("image/gif", "gif")]%string.

(** [getExtensionFromMime(mimeType)], for a [mimeType] that is not an
    inherited name. *)
Definition getExtensionFromMime (mimeType : string) : string :=
  default "jpg"%string (extensions !! mimeType).

(** [calculateSavings(originalSize, newSize)] *)
Definition calculateSavings (originalSize newSize : JS.number) : JS.number :=
  if JS.strict_eq originalSize (JS.of_Z 0) then JS.of_Z 0
  else
    let savings :=
      Double.mul
        (Double.div (Double.sub originalSize newSize) originalSize)
        (JS.of_Z 100) in
    JS.max (JS.of_Z 0) (JS.round savings).

End Utils.

(** ** Images and canvases *)

(** A decoded image. *)
Record Image : Type := mkImage {
  naturalWidth : JS.number;
  naturalHeight : JS.number;
  image_has_alpha : bool;
  image_content : N
}.

(** What the code does to a 2D context, call by call. *)
Inductive DrawOp : Type :=
| SetImageSmoothing (enabled : bool) (quality : string)
| Translate (x y : JS.number)
| Rotate (degrees : JS.number)
| Scale (x y : JS.number)
| SetTransformIdentity
| FillRect (fillStyle : string) (x y w h : JS.number)
| DrawImage (img : Image) (x y : JS.number)
    (size : option (JS.number * JS.number)).

(** A canvas: its dimensions and the drawing calls made on its context,
    oldest first. *)
Record Canvas : Type := mkCanvas {
  canvas_width : JS.number;
  canvas_height : JS.number;
  canvas_ops : list DrawOp
}.

(** [document.createElement('canvas')] with its width and height set. *)
Definition createCanvas (w h : JS.number) : Canvas := mkCanvas w h [].

(** The number a canvas keeps when [x] is assigned to its width or its
    height, an [unsigned long] that reflects a content attribute: the
    whole part of [x] modulo 2^32, 0 for [NaN] and the infinities, and
    the default of the attribute when that is more than 2^31 - 1. *)
Definition canvas_side (default_side : Z) (x : JS.number) : JS.number :=
  match x with
  | JS.Fin q =>
      let n := Z.quot (Qnum q) (Z.pos (Qden q)) mod 2 ^ 32 in
      JS.of_Z (if n <=? 2147483647 then n else default_side)
  | _ => JS.of_Z 0
  end.

Definition draw (c : Canvas) (ops : list DrawOp) : Canvas :=
  mkCanvas (canvas_width c) (canvas_height c) (canvas_ops c ++ ops).

Definition is_white_fill (op : DrawOp) : bool :=
  match op with
  | FillRect style _ _ _ _ => String.eqb style "#FFFFFF"
  | _ => false
  end.

Definition is_draw_image (op : DrawOp) : bool :=
  match op with
  | DrawImage _ _ _ _ => true
  | _ => false
  end.

(** The canvas was filled with white before the first image was drawn
    on it. *)
Fixpoint white_before_image (ops : list DrawOp) : bool :=
  match ops with
  | [] => false
  | op :: ops' =>
      if is_white_fill op then true
      else if is_draw_image op then false
      else white_before_image ops'
  end.

(** ** [downloadManager.js] *)

Module DownloadManager.

Record ResultObject : Type := mkResultObject {
  res_blob : Blob;
  res_originalName : string;
  res_originalSize : N;
  res_newName : string;
  res_newSize : N;
  res_format : string;
  res_savings : JS.number;
  res_thumbnail : option string
}.

(** [createResultObject({blob, originalName, originalSize, format,
    thumbnail})]; [objectUrl] is always [null] and is left out. *)
Definition createResultObject (blob : Blob) (originalName : string)
    (originalSize : N) (format : string) (thumbnail : option string)
  : ResultObject :=
  let newSize := blob_size blob in
  let savings :=
    if JS.gt (JS.of_N originalSize) (JS.of_Z 0) then
      JS.round
        (Double.mul
           (Double.div
              (Double.sub (JS.of_N originalSize) (JS.of_N newSize))
              (JS.of_N originalSize))
           (JS.of_Z 100))
    else JS.of_Z 0 in
  let dotIndex := Str.lastIndexOf "."%char originalName in
  let baseName :=
    if negb (dotIndex =? -1) then Str.slice originalName 0 dotIndex
    else originalName in
  let ext := if String.eqb format "jpeg" then "jpg"%string else format in
  let newName := (baseName ++ "_optimized." ++ ext)%string in
  mkResultObject blob originalName originalSize newName newSize format
    (JS.max (JS.of_Z 0) savings) thumbnail.

End DownloadManager.

(** ** [stateManager.js] *)

Module StateManager.

Import DownloadManager.

Inductive Status : Type := pending | processing | done | error.

(** An entry of [state.files]. *)
Record FileEntry : Type := mkFileEntry {
  id : string;
  file : File;
  thumbnail : option string;
  originalSize : N;
  originalName : string;
  originalType : string;
  status : Status;
  result : option ResultObject;
  error_text : option string
}.

Record Settings : Type := mkSettings {
  format : string;
  quality : JS.number;
  resizeEnabled : bool;
  width : JS.number;
  height : JS.number;
  unit : string;
  maintainAspectRatio : bool;
  keepOriginalDimensions : bool
}.

Record Processing : Type := mkProcessing {
  isProcessing : bool;
  currentIndex : Z;
  totalFiles : Z;
  progress : Z
}.

(** The state object.  Listeners are not modelled: [_notify] runs each
    one inside its own [try]/[catch] and they only redraw the page. *)
Record State : Type := mkState {
  currentScreen : string;
  files : list FileEntry;
  settings : Settings;
  processing_state : Processing;
  processedCount : Z;
  totalSaved : Z
}.

Definition set_files (s : State) (fs : list FileEntry) : State :=
  mkState (currentScreen s) fs (settings s) (processing_state s)
    (processedCount s) (totalSaved s).

Definition set_processing (s : State) (p : Processing) : State :=
  mkState (currentScreen s) (files s) (settings s) p
    (processedCount s) (totalSaved s).

(** The [updates] argument of [updateFile]: the properties it carries. *)
Record Updates : Type := mkUpdates {
  upd_status : option Status;
  upd_result : option ResultObject;
  upd_error : option string
}.

(** [{ ...f, ...updates }] *)
Definition spread (f : FileEntry) (u : Updates) : FileEntry :=
  mkFileEntry (id f) (file f) (thumbnail f) (originalSize f)
    (originalName f) (originalType f)
    (default (status f) (upd_status u))
    (match upd_result u with Some r => Some r | None => result f end)
    (match upd_error u with Some e => Some e | None => error_text f end).

(** [updateFile(id, updates)] *)
Definition updateFile (i : string) (u : Updates) (s : State) : State :=
  set_files s
    (map (fun f => if String.eqb (id f) i then spread f u else f) (files s)).

(** [startProcessing()] *)
Definition startProcessing (s : State) : State :=
  set_processing s (mkProcessing true 0 (Z.of_nat (length (files s))) 0).

(** [endProcessing()] *)
Definition endProcessing (s : State) : State :=
  let p := processing_state s in
  set_processing s (mkProcessing false (currentIndex p) (totalFiles p) 100).

(** [incrementProcessedCount()] *)
Definition incrementProcessedCount (s : State) : State :=
  mkState (currentScreen s) (files s) (settings s) (processing_state s)
    (processedCount s + 1) (totalSaved s).

(** [addSavedBytes(bytes)] *)
Definition addSavedBytes (bytes : Z) (s : State) : State :=
  mkState (currentScreen s) (files s) (settings s) (processing_state s)
    (processedCount s) (totalSaved s + bytes).

(** [goToScreen(screen)] *)
Definition goToScreen (screen : string) (s : State) : State :=
  mkState screen (files s) (settings s) (processing_state s)
    (processedCount s) (totalSaved s).

End StateManager.

(** ** The host environment *)

Module Host.

Import DownloadManager.

(** What [exifr.orientation(file)] does. *)
Inductive ExifrResult : Type :=
| ExifrThrows (message : string)
| ExifrUndefined
| ExifrValue (orientation : Z).

(** The options object handed to [browser-image-compression]. *)
Record CompressionOptions : Type := mkCompressionOptions {
  maxSizeMB : JS.number;
  maxWidthOrHeight : JS.number;
  useWebWorker : bool;
  initialQuality : JS.number;
  alwaysKeepResolution : bool
}.

(** The first argument of the compression library: a [Blob] or a
    [File]. *)
Inductive CompressionInput : Type :=
| InBlob (b : Blob)
| InFile (f : File).

Definition input_blob (i : CompressionInput) : Blob :=
  match i with
  | InBlob b => b
  | InFile f => Blob_of_file f
  end.

(** The browser and the two libraries loaded on demand.
    - [decodeImage b]: the [Image] an object URL of [b] loads into,
      [None] when [onerror] fires;
    - [exifr]: [None] when [import('exifr')] fails;
    - [context2d]: whether [getContext('2d')] yields a context;
    - [toBlob c mime q]: the blob [c.toBlob] passes to its callback,
      [None] for [null];
    - [imageCompression]: [None] when the library fails to load; a call
      resolves ([inr]) or rejects with a message ([inl]);
    - [hasWorker]: [typeof Worker !== 'undefined'];
    - [getImageData c]: the RGBA bytes of [c]. *)
Record Env : Type := mkEnv {
  decodeImage : Blob -> option Image;
  exifr : option (File -> ExifrResult);
  context2d : bool;
  toBlob : Canvas -> string -> JS.number -> option Blob;
  imageCompression :
    option (CompressionInput -> CompressionOptions -> string + Blob);
  hasWorker : bool;
  getImageData : Canvas -> list Z
}.

(** The calls made to the host, as they happen. *)
Inductive Event : Type :=
| EvDecode (b : Blob)
| EvExifr (f : File)
| EvToBlob (c : Canvas) (mime : string) (quality : JS.number)
| EvCompress (i : CompressionInput) (o : CompressionOptions)
| EvSleep (ms : Z).

Definition is_encode (e : Event) : bool :=
  match e with
  | EvToBlob _ _ _ => true
  | _ => false
  end.

Definition is_decode (e : Event) : bool :=
  match e with
  | EvDecode _ => true
  | _ => false
  end.

(** The number of [canvas.toBlob] calls in a trace. *)
Definition encode_calls (tr : list Event) : nat :=
  length (filter (fun e => is_encode e = true) tr).

(** Everything the code can change: the trace of host calls, the state
    manager's state and [downloadManager.js]'s [processedResults]. *)
Record World : Type := mkWorld {
  trace : list Event;
  state : StateManager.State;
  processedResults : list ResultObject
}.

(** A computation that may throw. *)
Definition M (A : Type) : Type := World -> (JsError + A) * World.

#[global] Instance M_ret : MRet M := fun A a w => (inr a, w).

#[global] Instance M_bind : MBind M := fun A B f m w =>
  match m w with
  | (inr a, w') => f a w'
  | (inl e, w') => (inl e, w')
  end.

Definition throw {A : Type} (e : JsError) : M A := fun w => (inl e, w).

(** [try { m } catch (e) { h e }] *)
Definition try_catch {A : Type} (m : M A) (h : JsError -> M A) : M A :=
  fun w =>
    match m w with
    | (inr a, w') => (inr a, w')
    | (inl e, w') => h e w'
    end.

Definition log (e : Event) : M unit :=
  fun w => (inr tt, mkWorld (trace w ++ [e]) (state w) (processedResults w)).

(** A call of a [StateManager] method. *)
Definition modify (f : StateManager.State -> StateManager.State) : M unit :=
  fun w => (inr tt, mkWorld (trace w) (f (state w)) (processedResults w)).

Definition get_state : M StateManager.State :=
  fun w => (inr (state w), w).

(** [setProcessedResults(results)] *)
Definition setProcessedResults (rs : list ResultObject) : M unit :=
  fun w => (inr tt, mkWorld (trace w) (state w) rs).

(** [await sleep(ms)] *)
Definition sleep (ms : Z) : M unit := log (EvSleep ms).

End Host.

(** ** [utils.js], the part that talks to the host *)

Module UtilsIO.

Import Host.

Section WithEnv.
Variable env : Env.

(** [loadImage(file)] *)
Definition loadImage (f : File) : M Image :=
  log (EvDecode (Blob_of_file f));;
  match decodeImage env (Blob_of_file f) with
  | Some img => mret img
  | None => throw (ImageOptimizerError "Failed to load image" FILE_CORRUPTED)
  end.

End WithEnv.

End UtilsIO.

(** ** [imageProcessor.js] *)

Module ImageProcessor.

Import Host.

Record Transform : Type := mkTransform {
  rotate : Z;
  flip : bool
}.

Definition ORIENTATION_TRANSFORMS : gmap Z Transform :=
  list_to_map
    [(1, mkTransform 0 false);
     (2, mkTransform 0 true);
     (3, mkTransform 180 false);
     (4, mkTransform 180 true);
     (5, mkTransform 90 true);
     (6, mkTransform 90 false);
     (7, mkTransform 270 true);
     (8, mkTransform 270 false)].

(** [ORIENTATION_TRANSFORMS[orientation] || ORIENTATION_TRANSFORMS[1]] *)
Definition transform_of (orientation : Z) : Transform :=
  match ORIENTATION_TRANSFORMS !! orientation with
  | Some t => t
  | None => default (mkTransform 0 false) (ORIENTATION_TRANSFORMS !! 1)
  end.

(** [calculateDimensions({originalWidth, originalHeight, targetWidth,
    targetHeight, unit, maintainAspectRatio})].  A [null] target is the
    number [0]: the function only divides it by 100 or tests its
    truthiness. *)
Definition MAX_DIMENSION : JS.number := JS.of_Z 16384.

Definition calculateDimensions (originalWidth originalHeight : JS.number)
    (targetWidth targetHeight : JS.number) (unit : string)
    (maintainAspectRatio : bool) : JS.number * JS.number :=
  let newWidth := targetWidth in
  let newHeight := targetHeight in
  let '(newWidth, newHeight) :=
    if String.eqb unit "%" then
      (JS.round (JS.mul originalWidth (JS.div targetWidth (JS.of_Z 100))),
       JS.round (JS.mul originalHeight (JS.div targetHeight (JS.of_Z 100))))
    else (newWidth, newHeight) in
  let '(newWidth, newHeight) :=
    if maintainAspectRatio then
      let aspectRatio := JS.div originalWidth originalHeight in
      if JS.truthy newWidth && negb (JS.truthy newHeight) then
        (newWidth, JS.round (JS.div newWidth aspectRatio))
      else if JS.truthy newHeight && negb (JS.truthy newWidth) then
        (JS.round (JS.mul newHeight aspectRatio), newHeight)
      else if JS.truthy newWidth && JS.truthy newHeight then
        let widthRatio := JS.div newWidth originalWidth in
        let heightRatio := JS.div newHeight originalHeight in
        let scale := JS.min widthRatio heightRatio in
        (JS.round (JS.mul originalWidth scale),
         JS.round (JS.mul originalHeight scale))
      else (newWidth, newHeight)
    else (newWidth, newHeight) in
  let newWidth := JS.max (JS.of_Z 1) (JS.or newWidth originalWidth) in
  let newHeight := JS.max (JS.of_Z 1) (JS.or newHeight originalHeight) in
  if JS.gt newWidth MAX_DIMENSION || JS.gt newHeight MAX_DIMENSION then
    let scale := JS.div MAX_DIMENSION (JS.max newWidth newHeight) in
    (JS.round (JS.mul newWidth scale), JS.round (JS.mul newHeight scale))
  else (newWidth, newHeight).

(** [applyExifTransform(ctx, width, height, transform)]: the calls it
    makes on the context. *)
Definition applyExifTransform (width height : JS.number) (t : Transform)
  : list DrawOp :=
  let two := JS.of_Z 2 in
  let neg x := JS.sub (JS.of_Z 0) x in
  [Translate (JS.div width two) (JS.div height two)]
  ++ (if negb (rotate t =? 0) then [Rotate (JS.of_Z (rotate t))] else [])
  ++ (if flip t then [Scale (JS.of_Z (-1)) (JS.of_Z 1)] else [])
  ++ (if (rotate t =? 90) || (rotate t =? 270)
      then [Translate (JS.div (neg height) two) (JS.div (neg width) two)]
      else [Translate (JS.div (neg width) two) (JS.div (neg height) two)]).

(** The settings object [processImage] receives. *)
Record ImageSettings : Type := mkImageSettings {
  resizeEnabled : bool;
  width : JS.number;
  height : JS.number;
  unit : string;
  maintainAspectRatio : bool;
  keepOriginalDimensions : bool
}.

(** What [processImage] resolves to. *)
Record Processed : Type := mkProcessed {
  canvas : Canvas;
  out_width : JS.number;
  out_height : JS.number;
  out_originalWidth : JS.number;
  out_originalHeight : JS.number
}.

Section WithEnv.
Variable env : Env.

(** [getExifOrientation(file)] *)
Definition getExifOrientation (f : File) : M Z :=
  if negb (Str.includes "jpeg" (file_type f))
     && negb (Str.includes "jpg" (file_type f))
  then mret 1
  else
    try_catch
      (match exifr env with
       | None => throw (Error "Cannot find module 'exifr'")
       | Some lib =>
           log (EvExifr f);;
           match lib f with
           | ExifrThrows m => throw (Error m)
           | ExifrUndefined => mret 1
           | ExifrValue orientation =>
               mret (if orientation =? 0 then 1 else orientation)
           end
       end)
      (fun _ => mret 1).

(** [processImage(file, settings)] *)
Definition processImage (f : File) (s : ImageSettings) : M Processed :=
  try_catch
    (img ← UtilsIO.loadImage env f;
     let originalWidth := naturalWidth img in
     let originalHeight := naturalHeight img in
     orientation ← getExifOrientation f;
     let transform := transform_of orientation in
     let swap := (rotate transform =? 90) || (rotate transform =? 270) in
     let rotatedWidth := if swap then originalHeight else originalWidth in
     let rotatedHeight := if swap then originalWidth else originalHeight in
     let '(targetWidth, targetHeight) :=
       if resizeEnabled s && negb (keepOriginalDimensions s) then
         calculateDimensions rotatedWidth rotatedHeight (width s) (height s)
           (unit s) (maintainAspectRatio s)
       else (rotatedWidth, rotatedHeight) in
     let canvas := createCanvas targetWidth targetHeight in
     if negb (context2d env) then
       throw (ImageOptimizerError "Canvas context unavailable"
                CANVAS_UNSUPPORTED)
     else
       let canvas := draw canvas [SetImageSmoothing true "high"] in
       let canvas :=
         draw canvas (applyExifTransform targetWidth targetHeight transform) in
       let drawWidth := if swap then targetHeight else targetWidth in
       let drawHeight := if swap then targetWidth else targetHeight in
       let canvas :=
         draw canvas
           [DrawImage img (JS.of_Z 0) (JS.of_Z 0)
              (Some (drawWidth, drawHeight))] in
       let canvas := draw canvas [SetTransformIdentity] in
       mret (mkProcessed canvas targetWidth targetHeight
               rotatedWidth rotatedHeight))
    (fun e =>
       if is_ImageOptimizerError e then throw e
       else
         throw (ImageOptimizerError
                  ("Image processing failed: " ++ error_message e)
                  CANVAS_MEMORY)).

End WithEnv.

End ImageProcessor.

(** ** [imageCompressor.js] *)

Module ImageCompressor.

Import Host.

(** The options object [compressImage] receives; an absent [maxWidth]
    or [maxHeight] is [None]. *)
Record Options : Type := mkOptions {
  quality : JS.number;
  maxWidth : option JS.number;
  maxHeight : option JS.number
}.

(** [maxWidth || maxHeight || 4096] *)
Definition or_undefined (a : option JS.number) (b : JS.number) : JS.number :=
  match a with
  | Some x => JS.or x b
  | None => b
  end.

Section WithEnv.
Variable env : Env.

(** [initLibrary()].  The module caches the loaded library; the import
    is a function of the environment, so a retry gives what the first
    attempt gave and the cache is not modelled. *)
Definition initLibrary
  : M (CompressionInput -> CompressionOptions -> string + Blob) :=
  match imageCompression env with
  | Some lib => mret lib
  | None =>
      throw (ImageOptimizerError "Failed to load compression library"
               LIBRARY_LOAD_FAILED)
  end.

(** One call of the library. *)
Definition call_library
    (lib : CompressionInput -> CompressionOptions -> string + Blob)
    (i : CompressionInput) (o : CompressionOptions) : M Blob :=
  log (EvCompress i o);;
  match lib i o with
  | inr b => mret b
  | inl m => throw (Error m)
  end.

(** [compressImage(file, options)] *)
Definition compressImage (input : CompressionInput) (options : Options)
  : M Blob :=
  lib ← initLibrary;
  let quality := quality options in
  let normalizedQuality :=
    JS.max (JS.Fin (1 # 10))
      (JS.min (JS.of_Z 1) (JS.div quality (JS.of_Z 100))) in
  let maxSizeMB :=
    if JS.gt quality (JS.of_Z 70) then JS.of_Z 10
    else if JS.gt quality (JS.of_Z 40) then JS.of_Z 5
    else JS.of_Z 2 in
  let compressionOptions useWorker :=
    mkCompressionOptions maxSizeMB
      (or_undefined (maxWidth options)
         (or_undefined (maxHeight options) (JS.of_Z 4096)))
      useWorker normalizedQuality true in
  try_catch
    (let inputFile :=
       match input with
       | InBlob b => InFile (File_of_blob b "image.jpg" (blob_type b))
       | InFile f => InFile f
       end in
     call_library lib inputFile (compressionOptions (hasWorker env)))
    (fun _ =>
       try_catch
         (call_library lib input (compressionOptions false))
         (fun fallbackError =>
            throw (ImageOptimizerError
                     ("Compression failed: " ++ error_message fallbackError)
                     COMPRESSION_FAILED))).

End WithEnv.

End ImageCompressor.

(** ** [formatConverter.js] *)

Module FormatConverter.

Import Host.

Section WithEnv.
Variable env : Env.

(** [createImageFromBlob(blob)] *)
Definition createImageFromBlob (b : Blob) : M Image :=
  log (EvDecode b);;
  match decodeImage env b with
  | Some img => mret img
  | None =>
      throw (ImageOptimizerError "Failed to load image for conversion"
               FILE_CORRUPTED)
  end.

(** [convertFormat(blob, targetFormat, quality)] *)
Definition convertFormat (blob : Blob) (targetFormat : string)
    (quality : JS.number) : M Blob :=
  let targetMime := Utils.getMimeType targetFormat in
  if String.eqb (blob_type blob) targetMime then mret blob
  else
    try_catch
      (img ← createImageFromBlob blob;
       let canvas := createCanvas (naturalWidth img) (naturalHeight img) in
       if negb (context2d env) then
         throw (ImageOptimizerError "Canvas not supported" CANVAS_UNSUPPORTED)
       else
         let canvas :=
           if String.eqb targetFormat "jpeg" || String.eqb targetFormat "jpg"
           then
             draw canvas
               [FillRect "#FFFFFF" (JS.of_Z 0) (JS.of_Z 0)
                  (canvas_width canvas) (canvas_height canvas)]
           else canvas in
         let canvas :=
           draw canvas [DrawImage img (JS.of_Z 0) (JS.of_Z 0) None] in
         let normalizedQuality :=
           JS.max (JS.Fin (1 # 10))
             (JS.min (JS.of_Z 1) (JS.div quality (JS.of_Z 100))) in
         log (EvToBlob canvas targetMime normalizedQuality);;
         match toBlob env canvas targetMime normalizedQuality with
         | Some convertedBlob => mret convertedBlob
         | None =>
             throw (ImageOptimizerError
                      ("Failed to convert to " ++ targetFormat)
                      CONVERSION_FAILED)
         end)
      (fun e =>
         if is_ImageOptimizerError e then throw e
         else
           throw (ImageOptimizerError
                    ("Format conversion failed: " ++ error_message e)
                    CONVERSION_FAILED)).

End WithEnv.

(** [generateOutputFilename(originalName, format)] *)
Definition generateOutputFilename (originalName format : string) : string :=
  let dotIndex := Str.lastIndexOf "."%char originalName in
  let baseName :=
    if negb (dotIndex =? -1) then Str.slice originalName 0 dotIndex
    else originalName in
  let newExt := Utils.getExtensionFromMime (Utils.getMimeType format) in
  (baseName ++ "_optimized." ++ newExt)%string.

End FormatConverter.

(** ** [smartCompression.js] *)

Module SmartCompression.

Import Host.

(** The [options] of [findOptimalQuality], with their defaults. *)
Record Options : Type := mkOptions {
  minQuality : JS.number;
  maxQuality : JS.number;
  tolerance : JS.number;
  maxIterations : nat
}.

Definition default_options : Options :=
  mkOptions (JS.of_Z 10) (JS.of_Z 95) (JS.Fin (1 # 10)) 10.

(** What [findOptimalQuality] resolves to. *)
Record Found : Type := mkFound {
  found_blob : Blob;
  found_quality : JS.number;
  found_iterations : nat
}.

(** The variables of the search loop. *)
Record Search : Type := mkSearch {
  low : JS.number;
  high : JS.number;
  bestBlob : option Blob;
  bestQuality : JS.number;
  iterations : nat
}.

Section WithEnv.
Variable env : Env.

(** [canvasToBlob(canvas, mimeType, quality)] *)
Definition canvasToBlob (c : Canvas) (mimeType : string)
    (quality : JS.number) : M Blob :=
  log (EvToBlob c mimeType quality);;
  match toBlob env c mimeType quality with
  | Some blob => mret blob
  | None => throw (Error "Failed to create blob")
  end.

Section Loop.
Variables (c : Canvas) (mimeType : string).
Variables (targetBytes tolerance : JS.number).

(** The [while (low <= high && iterations < maxIterations)] loop;
    [remaining] is [maxIterations - iterations].  [inl] is the [return]
    inside the loop, [inr] the variables when the loop is left. *)
Fixpoint search_loop (remaining : nat) (s : Search) : M (Found + Search) :=
  match remaining with
  | O => mret (inr s)
  | S remaining' =>
      if JS.le (low s) (high s) then
        let iterations := S (iterations s) in
        let mid :=
          JS.round (JS.div (JS.add (low s) (high s)) (JS.of_Z 2)) in
        let quality := JS.div mid (JS.of_Z 100) in
        blob ← canvasToBlob c mimeType quality;
        let size := JS.of_N (blob_size blob) in
        let lowerBound :=
          JS.mul targetBytes (JS.sub (JS.of_Z 1) tolerance) in
        let upperBound :=
          JS.mul targetBytes (JS.add (JS.of_Z 1) tolerance) in
        if JS.ge size lowerBound && JS.le size upperBound then
          mret (inl (mkFound blob mid iterations))
        else if JS.gt size targetBytes then
          search_loop remaining'
            (mkSearch (low s) (JS.sub mid (JS.of_Z 1)) (Some blob) mid
               iterations)
        else
          search_loop remaining'
            (mkSearch (JS.add mid (JS.of_Z 1)) (high s) (Some blob) mid
               iterations)
      else mret (inr s)
  end.

End Loop.

(** [findOptimalQuality(canvas, format, targetSizeKB, options)] *)
Definition findOptimalQuality (c : Canvas) (format : string)
    (targetSizeKB : JS.number) (options : Options) : M Found :=
  let targetBytes := JS.mul targetSizeKB (JS.of_Z 1024) in
  let mimeType :=
    ("image/" ++ (if String.eqb format "jpg" then "jpeg" else format))%string in
  if String.eqb format "png" then
    blob ← canvasToBlob c mimeType (JS.of_Z 1);
    mret (mkFound blob (JS.of_Z 100) 1)
  else
    r ← search_loop c mimeType targetBytes (tolerance options)
          (maxIterations options)
          (mkSearch (minQuality options) (maxQuality options) None
             (maxQuality options) 0);
    match r with
    | inl found => mret found
    | inr s =>
        match bestBlob s with
        | Some blob => mret (mkFound blob (bestQuality s) (iterations s))
        | None =>
            blob ← canvasToBlob c mimeType
                     (JS.div (bestQuality s) (JS.of_Z 100));
            mret (mkFound blob (bestQuality s) (iterations s))
        end
    end.

End WithEnv.

(** What [analyzeImage] returns. *)
Record Analysis : Type := mkAnalysis {
  hasTransparency : bool;
  colorCount : Z;
  avgVariance : JS.number;
  isPhoto : bool;
  isGraphic : bool;
  an_width : JS.number;
  an_height : JS.number;
  totalPixels : JS.number
}.

(** The variables of the sampling loop. *)
Record Sampling : Type := mkSampling {
  s_hasTransparency : bool;
  colorSet : gset (Z * Z * Z);
  totalVariance : Z;
  pixelCount : Z
}.

(** The values [i] takes in [for (let i = 0; i < n; i += 40)]. *)
Definition sample_indices (n : nat) : list nat :=
  map (fun k => (40 * k)%nat) (seq 0 ((n + 39) / 40)).

Section Sample.
(** [imageData.data]: four bytes per pixel, so every read below is in
    range. *)
Variable data : list Z.

Definition at_index (i : nat) : Z := data !!! i.

(** The body of the loop.  The quantised colour, a string
    ["r,g,b"] in the source, is the triple it spells. *)
Definition sample (s : Sampling) (i : nat) : Sampling :=
  let r := at_index i in
  let g := at_index (i + 1) in
  let b := at_index (i + 2) in
  let a := at_index (i + 3) in
  let hasTransparency := if a <? 255 then true else s_hasTransparency s in
  let quantizedColor := (r / 16, g / 16, b / 16) in
  let colorSet := {[ quantizedColor ]} ∪ colorSet s in
  let totalVariance :=
    if (0 <? i)%nat then
      let prevR := at_index (i - 40) in
      let prevG := at_index (i - 39) in
      let prevB := at_index (i - 38) in
      let diff := Z.abs (r - prevR) + Z.abs (g - prevG) + Z.abs (b - prevB) in
      totalVariance s + diff
    else totalVariance s in
  mkSampling hasTransparency colorSet totalVariance (pixelCount s + 1).

Definition sampling : Sampling :=
  fold_left sample (sample_indices (length data)) (mkSampling false ∅ 0 0).

End Sample.

(** [analyzeImage(canvas)] *)
Definition analyzeImage (env : Env) (c : Canvas) : Analysis :=
  let data := getImageData env c in
  let s := sampling data in
  let colorCount := Z.of_nat (size (colorSet s)) in
  let avgVariance :=
    JS.div (JS.of_Z (totalVariance s))
           (JS.max (JS.of_Z 1) (JS.of_Z (pixelCount s))) in
  let isPhoto := JS.gt avgVariance (JS.of_Z 30) && (1000 <? colorCount) in
  let isGraphic := JS.lt avgVariance (JS.of_Z 20) || (colorCount <? 500) in
  mkAnalysis (s_hasTransparency s) colorCount avgVariance isPhoto isGraphic
    (canvas_width c) (canvas_height c)
    (JS.mul (canvas_width c) (canvas_height c)).

End SmartCompression.

(** ** [app.js] *)

Module App.

Import Host DownloadManager.

(** What the batch loop accumulates: the [results] array and the two
    counters. *)
Record Batch : Type := mkBatch {
  results : list ResultObject;
  successCount : nat;
  errorCount : nat
}.

Section WithEnv.
Variable env : Env.

(** [canvasToBlob(canvas, mimeType, quality)], quality on the 0-100
    scale *)
Definition canvasToBlob (c : Canvas) (mimeType : string)
    (quality : JS.number) : M Blob :=
  let normalizedQuality :=
    JS.max (JS.Fin (1 # 10))
      (JS.min (JS.of_Z 1) (JS.div quality (JS.of_Z 100))) in
  log (EvToBlob c mimeType normalizedQuality);;
  match toBlob env c mimeType normalizedQuality with
  | Some blob => mret blob
  | None => throw (Error "Failed to create blob from canvas")
  end.

(** [processSingleFile(fileData, settings)] *)
Definition processSingleFile (fileData : StateManager.FileEntry)
    (settings : StateManager.Settings) : M ResultObject :=
  let file := StateManager.file fileData in
  let originalSize := StateManager.originalSize fileData in
  let originalName := StateManager.originalName fileData in
  let thumbnail := StateManager.thumbnail fileData in
  processedData ←
    ImageProcessor.processImage env file
      (ImageProcessor.mkImageSettings
         (StateManager.resizeEnabled settings
          && negb (StateManager.keepOriginalDimensions settings))
         (StateManager.width settings)
         (StateManager.height settings)
         (StateManager.unit settings)
         (StateManager.maintainAspectRatio settings)
         (StateManager.keepOriginalDimensions settings));
  let targetFormat := Str.or (StateManager.format settings) "webp" in
  let targetMime := Utils.getMimeType targetFormat in
  blob ←
    canvasToBlob (ImageProcessor.canvas processedData) targetMime
      (StateManager.quality settings);
  blob ←
    try_catch
      (compressedBlob ←
         ImageCompressor.compressImage env (InBlob blob)
           (ImageCompressor.mkOptions (StateManager.quality settings)
              (Some (ImageProcessor.out_width processedData))
              (Some (ImageProcessor.out_height processedData)));
       mret (if (blob_size compressedBlob <? blob_size blob)%N
             then compressedBlob else blob))
      (fun _ => mret blob);
  blob ←
    (if negb (String.eqb (blob_type blob) targetMime) then
       FormatConverter.convertFormat env blob targetFormat
         (StateManager.quality settings)
     else mret blob);
  mret (createResultObject blob originalName originalSize targetFormat
          thumbnail).

(** One turn of the [for] loop of [processAllFiles].  Nothing after
    [results.push(result)] can throw, so the new [results] and counters
    are handed out of the [try] block at its end.  The writes to the
    progress overlay are not modelled. *)
Definition process_item (settings : StateManager.Settings)
    (fileData : StateManager.FileEntry) (b : Batch) : M Batch :=
  let i := StateManager.id fileData in
  b' ←
    try_catch
      (modify (StateManager.updateFile i
                 (StateManager.mkUpdates (Some StateManager.processing)
                    None None));;
       result ← processSingleFile fileData settings;
       modify (StateManager.updateFile i
                 (StateManager.mkUpdates (Some StateManager.done)
                    (Some result) None));;
       modify StateManager.incrementProcessedCount;;
       let saved :=
         Z.of_N (StateManager.originalSize fileData)
         - Z.of_N (res_newSize result) in
       (if 0 <? saved then modify (StateManager.addSavedBytes saved)
        else mret tt);;
       mret (mkBatch (results b ++ [result]) (S (successCount b))
               (errorCount b)))
      (fun error =>
         modify (StateManager.updateFile i
                   (StateManager.mkUpdates (Some StateManager.error) None
                      (Some (error_message error))));;
         mret (mkBatch (results b) (successCount b) (S (errorCount b))));
  sleep 50;;
  mret b'.

Fixpoint process_loop (settings : StateManager.Settings)
    (files : list StateManager.FileEntry) (b : Batch) : M Batch :=
  match files with
  | [] => mret b
  | fileData :: rest =>
      b' ← process_item settings fileData b;
      process_loop settings rest b'
  end.

(** [processAllFiles()].  The source returns nothing and reports the
    counters in toasts; here they are the result. *)
Definition processAllFiles : M Batch :=
  s ← get_state;
  let files := StateManager.files s in
  let settings := StateManager.settings s in
  if (length files =? 0)%nat then mret (mkBatch [] 0 0)
  else
    modify StateManager.startProcessing;;
    b ← process_loop settings files (mkBatch [] 0 0);
    sleep 500;;
    modify StateManager.endProcessing;;
    setProcessedResults (results b);;
    (if (0 <? successCount b)%nat
     then modify (StateManager.goToScreen "download")
     else mret tt);;
    mret b.

End WithEnv.

End App.

(** * The rest of the modules *)

(** ** [utils.js]: file names and thumbnails *)

Module UtilsMore.

Import Host.

(** [getFileExtension(filename)] *)
Definition getFileExtension (filename : string) : string :=
  let idx := Str.lastIndexOf "."%char filename in
  if negb (idx =? -1) then Str.toLowerCase (Str.slice_from filename idx)
  else ""%string.

(** [getFileBasename(filename)] *)
Definition getFileBasename (filename : string) : string :=
  let idx := Str.lastIndexOf "."%char filename in
  if negb (idx =? -1) then Str.slice filename 0 idx else filename.

Section WithEnv.
Variable env : Env.

(** [canvas.toDataURL(type, quality)], a further function of the host;
    [None] is an omitted quality. *)
Variable toDataURL : Canvas -> string -> option JS.number -> string.

(** The canvas [createThumbnail(file, maxSize)] draws.  [img.width] and
    [img.height] of an image outside the document are its natural size.
    The scaled side is a quotient and is not rounded: the canvas keeps
    its whole part (300 and 150 are the defaults of a canvas), and
    [drawImage] gets the quotient itself.  The context is used without a
    test: without one, [ctx.drawImage] is a [TypeError]. *)
Definition thumbnailCanvas (f : File) (maxSize : JS.number) : M Canvas :=
  img ← UtilsIO.loadImage env f;
  let width := naturalWidth img in
  let height := naturalHeight img in
  let '(width, height) :=
    if JS.gt width height then
      if JS.gt width maxSize then
        (maxSize, JS.div (JS.mul height maxSize) width)
      else (width, height)
    else
      if JS.gt height maxSize then
        (JS.div (JS.mul width maxSize) height, maxSize)
      else (width, height) in
  let canvas :=
    createCanvas (canvas_side 300 width) (canvas_side 150 height) in
  if negb (context2d env) then
    throw (Error "Cannot read properties of null (reading 'drawImage')")
  else
    mret (draw canvas
            [DrawImage img (JS.of_Z 0) (JS.of_Z 0) (Some (width, height))]).

(** [createThumbnail(file, maxSize)] *)
Definition createThumbnail (f : File) (maxSize : JS.number) : M string :=
  canvas ← thumbnailCanvas f maxSize;
  mret (toDataURL canvas "image/jpeg" (Some (JS.Fin (7 # 10)))).

End WithEnv.

End UtilsMore.

(** ** [imageProcessor.js]: previews *)

Module ImageProcessorMore.

Import Host ImageProcessor.

Section WithEnv.
Variable env : Env.
Variable toDataURL : Canvas -> string -> option JS.number -> string.

(** The canvas [createPreview(file, maxSize)] draws.  Here too the
    context is used without a test. *)
Definition previewCanvas (f : File) (maxSize : JS.number) : M Canvas :=
  img ← UtilsIO.loadImage env f;
  orientation ← getExifOrientation env f;
  let transform := transform_of orientation in
  let width := naturalWidth img in
  let height := naturalHeight img in
  let swap := (rotate transform =? 90) || (rotate transform =? 270) in
  let '(width, height) := if swap then (height, width) else (width, height) in
  let scale :=
    JS.min (JS.min (JS.div maxSize width) (JS.div maxSize height))
      (JS.of_Z 1) in
  let previewWidth := JS.round (JS.mul width scale) in
  let previewHeight := JS.round (JS.mul height scale) in
  let canvas := createCanvas previewWidth previewHeight in
  if negb (context2d env) then
    throw (Error
             "Cannot set properties of null (setting 'imageSmoothingEnabled')")
  else
    let canvas := draw canvas [SetImageSmoothing true "high"] in
    let canvas :=
      draw canvas (applyExifTransform previewWidth previewHeight transform) in
    let drawWidth := if swap then previewHeight else previewWidth in
    let drawHeight := if swap then previewWidth else previewHeight in
    mret (draw canvas
            [DrawImage img (JS.of_Z 0) (JS.of_Z 0)
               (Some (drawWidth, drawHeight))]).

(** [createPreview(file, maxSize)] *)
Definition createPreview (f : File) (maxSize : JS.number) : M string :=
  canvas ← previewCanvas f maxSize;
  mret (toDataURL canvas "image/jpeg" (Some (JS.Fin (8 # 10)))).

End WithEnv.

End ImageProcessorMore.

(** ** [imageCompressor.js]: the size estimate and the library check *)

Module ImageCompressorMore.

Import Host ImageCompressor.

Definition formatRatios : gmap string Q :=
  list_to_map
    [("webp", 3 # 10); ("jpeg", 4 # 10); ("jpg", 4 # 10); ("png", 9 # 10);
     ("gif", 95 # 100)]%string.

(** [estimateCompressedSize(originalSize, quality, format)].  For a
    name that the table inherits, [formatRatios[name]] is a function or
    an object: it is truthy, so it is the base ratio, and its product
    with the quality factor is [NaN]. *)
Definition estimateCompressedSize (originalSize quality : JS.number)
    (format : string) : JS.number :=
  let baseRatio :=
    match formatRatios !! Str.toLowerCase format with
    | Some r => JS.or (JS.Fin r) (JS.Fin (5 # 10))
    | None =>
        if Obj.inherited (Str.toLowerCase format) then JS.NaN
        else JS.Fin (5 # 10)
    end in
  let qualityFactor :=
    JS.add (JS.Fin (3 # 10))
      (JS.mul (JS.div quality (JS.of_Z 100)) (JS.Fin (7 # 10))) in
  let estimatedRatio := JS.mul baseRatio qualityFactor in
  let estimatedSize := JS.round (JS.mul originalSize estimatedRatio) in
  JS.min estimatedSize originalSize.

Section WithEnv.
Variable env : Env.

(** [isCompressionAvailable()] *)
Definition isCompressionAvailable : M bool :=
  try_catch (initLibrary env;; mret true) (fun _ => mret false).

End WithEnv.

End ImageCompressorMore.

(** ** [formatConverter.js]: what the formats can do *)

Module FormatConverterMore.

Import Host.

Record FormatInfo : Type := mkFormatInfo {
  info_name : string;
  info_extension : string;
  info_mimeType : string;
  supportsTransparency : bool;
  lossless : bool;
  description : string
}.

Definition formats : gmap string FormatInfo :=
  list_to_map
    [("jpeg",
      mkFormatInfo "JPEG" "jpg" "image/jpeg" false false
        "Best for photos with many colors");
     ("jpg",
      mkFormatInfo "JPEG" "jpg" "image/jpeg" false false
        "Best for photos with many colors");
     ("png",
      mkFormatInfo "PNG" "png" "image/png" true true
        "Best for graphics with transparency");
     ("webp",
      mkFormatInfo "WebP" "webp" "image/webp" true false
        "Modern format with best compression");
     ("gif",
      mkFormatInfo "GIF" "gif" "image/gif" true true
        "Best for simple animations")]%string.

(** [getFormatInfo(format)], for a [format] whose lower-case form is not
    an inherited name. *)
Definition getFormatInfo (format : string) : FormatInfo :=
  match formats !! Str.toLowerCase format with
  | Some info => info
  | None =>
      default
        (mkFormatInfo "JPEG" "jpg" "image/jpeg" false false
           "Best for photos with many colors")
        (formats !! "jpeg"%string)
  end.

(** The values [i] takes in [for (let i = 3; i < n; i += 4)]. *)
Definition alpha_indices (n : nat) : list nat :=
  map (fun k => (4 * k + 3)%nat) (seq 0 (n / 4)).

Section WithEnv.
Variable env : Env.
Variable toDataURL : Canvas -> string -> option JS.number -> string.

(** [checkWebPSupport()] *)
Definition checkWebPSupport : bool :=
  String.prefix "data:image/webp"
    (toDataURL (createCanvas (JS.of_Z 1) (JS.of_Z 1)) "image/webp" None).

(** [isFormatSupported(format)] *)
Definition isFormatSupported (format : string) : bool :=
  let supportedFormats := ["jpeg"; "jpg"; "png"; "webp"]%string in
  if negb (Utils.array_includes supportedFormats (Str.toLowerCase format))
  then false
  else if String.eqb (Str.toLowerCase format) "webp" then checkWebPSupport
  else true.

(** [getRecommendedFormat(originalType, hasTransparency)] *)
Definition getRecommendedFormat (originalType : string)
    (hasTransparency : bool) : string :=
  if checkWebPSupport then "webp"%string
  else if hasTransparency then "png"%string
  else "jpeg"%string.

(** [detectTransparency(canvas)]; reading the pixels of a canvas the
    page drew itself does not throw. *)
Definition detectTransparency (c : Canvas) : bool :=
  if negb (context2d env) then false
  else
    let data := getImageData env c in
    existsb (fun i => (data !!! i) <? 255) (alpha_indices (length data)).

End WithEnv.

End FormatConverterMore.

(** ** [smartCompression.js]: automatic settings *)

Module SmartCompressionMore.

Import Host SmartCompression.

(** The [options] of [autoOptimize], with the default of
    [preferSmallSize] filled in; [None] is the default [null] of
    [maxSizeKB]. *)
Record AutoOptions : Type := mkAutoOptions {
  preferSmallSize : bool;
  maxSizeKB : option JS.number
}.

(** What [autoOptimize] resolves to. *)
Record Optimized : Type := mkOptimized {
  opt_format : string;
  opt_quality : JS.number;
  opt_blob : Blob;
  opt_analysis : Analysis
}.

(** An entry of the table of [getRecommendations]; [None] is the [null]
    of [maxWidth]. *)
Record Recommendation : Type := mkRecommendation {
  targetSizeKB : JS.number;
  rec_format : string;
  rec_quality : Z;
  rec_maxWidth : option Z
}.

Definition recommendations (originalSizeKB : JS.number)
  : gmap string Recommendation :=
  list_to_map
    [("web"%string,
      mkRecommendation (JS.min originalSizeKB (JS.of_Z 200)) "webp" 80
        (Some 1920));
     ("email"%string,
      mkRecommendation (JS.min originalSizeKB (JS.of_Z 500)) "jpeg" 75
        (Some 1200));
     ("social"%string,
      mkRecommendation (JS.min originalSizeKB (JS.of_Z 1000)) "jpeg" 85
        (Some 1080));
     ("print"%string, mkRecommendation originalSizeKB "png" 100 None)].

(** [getRecommendations(originalSizeKB, usage)], for a [usage] that is
    not an inherited name. *)
Definition getRecommendations (originalSizeKB : JS.number) (usage : string)
  : Recommendation :=
  match recommendations originalSizeKB !! usage with
  | Some r => r
  | None =>
      default
        (mkRecommendation (JS.min originalSizeKB (JS.of_Z 200)) "webp" 80
           (Some 1920))
        (recommendations originalSizeKB !! "web"%string)
  end.

Section WithEnv.
Variable env : Env.
Variable toDataURL : Canvas -> string -> option JS.number -> string.

(** [checkWebPSupport()] *)
Definition checkWebPSupport : bool :=
  String.prefix "data:image/webp"
    (toDataURL (createCanvas (JS.of_Z 1) (JS.of_Z 1)) "image/webp" None).

(** [autoOptimize(canvas, options)] *)
Definition autoOptimize (c : Canvas) (options : AutoOptions) : M Optimized :=
  let analysis := analyzeImage env c in
  let format := "webp"%string in
  let supportsWebP := checkWebPSupport in
  let format := if negb supportsWebP then "jpeg"%string else format in
  let format :=
    if hasTransparency analysis then "png"%string
    else if (colorCount analysis <? 256) && isGraphic analysis
    then "png"%string
    else format in
  let quality := JS.of_Z 85 in
  let quality :=
    if isPhoto analysis then
      if preferSmallSize options then JS.of_Z 75 else JS.of_Z 85
    else if isGraphic analysis then
      if preferSmallSize options then JS.of_Z 85 else JS.of_Z 95
    else quality in
  match maxSizeKB options with
  | Some size =>
      if JS.truthy size && negb (String.eqb format "png") then
        result ←
          findOptimalQuality env c format size
            (mkOptions (JS.of_Z 30) quality (tolerance default_options)
               (maxIterations default_options));
        mret (mkOptimized format (found_quality result) (found_blob result)
                analysis)
      else
        let mimeType :=
          ("image/" ++ (if String.eqb format "jpg" then "jpeg" else format))
            %string in
        blob ← canvasToBlob env c mimeType (JS.div quality (JS.of_Z 100));
        mret (mkOptimized format quality blob analysis)
  | None =>
      let mimeType :=
        ("image/" ++ (if String.eqb format "jpg" then "jpeg" else format))
          %string in
      blob ← canvasToBlob env c mimeType (JS.div quality (JS.of_Z 100));
      mret (mkOptimized format quality blob analysis)
  end.

End WithEnv.

End SmartCompressionMore.

(** ** [stateManager.js]: the queue *)

Module StateManagerMore.

Import DownloadManager StateManager.

(** [addFile({id, file, thumbnail, originalSize, originalName,
    originalType})] *)
Definition addFile (i : string) (f : File) (thumb : option string)
    (size : N) (name type : string) (s : State) : State :=
  set_files s
    (files s ++ [mkFileEntry i f thumb size name type pending None None]).

(** [removeFile(id)] *)
Definition removeFile (i : string) (s : State) : State :=
  set_files s (List.filter (fun f => negb (String.eqb (id f) i)) (files s)).

(** [getFile(id)]; [None] is [undefined]. *)
Definition getFile (i : string) (s : State) : option FileEntry :=
  List.find (fun f => String.eqb (id f) i) (files s).

End StateManagerMore.

(** ** [downloadManager.js]: the statistics of the download screen *)

Module DownloadManagerMore.

Import Host DownloadManager.

(** What [getDownloadStats] returns, without the three sizes rendered
    for display. *)
Record Stats : Type := mkStats {
  stat_totalFiles : nat;
  totalOriginalSize : Z;
  totalNewSize : Z;
  stat_totalSaved : Z;
  averageReduction : JS.number
}.

(** [processedResults.reduce((sum, r) => sum + r.originalSize, 0)] *)
Definition sum_of (field : ResultObject -> N) (rs : list ResultObject) : Z :=
  fold_left (fun sum r => sum + Z.of_N (field r)) rs 0.

(** The statistics of the results [rs]. *)
Definition downloadStats (rs : list ResultObject) : Stats :=
  if (length rs =? 0)%nat then mkStats 0 0 0 0 (JS.of_Z 0)
  else
    let totalOriginalSize := sum_of res_originalSize rs in
    let totalNewSize := sum_of res_newSize rs in
    let totalSaved := totalOriginalSize - totalNewSize in
    let averageReduction :=
      if JS.gt (JS.of_Z totalOriginalSize) (JS.of_Z 0) then
        JS.round
          (JS.mul (JS.div (JS.of_Z totalSaved) (JS.of_Z totalOriginalSize))
             (JS.of_Z 100))
      else JS.of_Z 0 in
    mkStats (length rs) totalOriginalSize totalNewSize totalSaved
      averageReduction.

(** [getDownloadStats()] *)
Definition getDownloadStats : M Stats :=
  fun w => (inr (downloadStats (processedResults w)), w).

End DownloadManagerMore.

(** ** [imageLoader.js] *)

Module ImageLoader.

Import Host.

Section WithEnv.
Variable env : Env.
Variable toDataURL : Canvas -> string -> option JS.number -> string.
Variable formatFileSize : N -> string.

(** [generateId()] draws on the clock and on [Math.random]: the id of
    the [k]-th call of a run is [generateId k]. *)
Variable generateId : nat -> string.

(** The first loop of [handleFiles]: the files [validateFile] lets
    through.  The messages of the others only go into a toast. *)
Definition validFiles (files : list File) : list File :=
  List.filter
    (fun f =>
       match Utils.validateFile formatFileSize (Some f) with
       | inr _ => true
       | inl _ => false
       end) files.

(** The second loop: [k] ids have been drawn so far. *)
Fixpoint add_files (k : nat) (files : list File) : M unit :=
  match files with
  | [] => mret tt
  | f :: rest =>
      try_catch
        (thumbnail ← UtilsMore.createThumbnail env toDataURL f (JS.of_Z 100);
         let i := generateId k in
         modify (StateManagerMore.addFile i f (Some thumbnail) (file_size f)
                   (file_name f) (file_type f)))
        (fun _ =>
           let i := generateId k in
           modify (StateManagerMore.addFile i f None (file_size f)
                     (file_name f) (file_type f)));;
      add_files (S k) rest
  end.

(** [handleFiles(files)] *)
Definition handleFiles (files : list File) : M unit :=
  add_files 0 (validFiles files).

End WithEnv.

End ImageLoader.

(** * Vocabulary of the specification *)

(** The code of the error a result carries, if it is one. *)
Definition thrown_code {A : Type} (r : JsError + A) : option ErrorCode :=
  match r with
  | inl e => error_code e
  | inr _ => None
  end.

(** The world after the host calls [evs]. *)
Definition extend (w : Host.World) (evs : list Host.Event) : Host.World :=
  Host.mkWorld (Host.trace w ++ evs) (Host.state w) (Host.processedResults w).

(** A computation that only talks to the host: in every world it has
    the same result and makes the same calls, and it leaves the state
    manager and the stored results alone. *)
Definition host_only {A : Type} (m : Host.M A) : Prop :=
  exists r evs, forall w, m w = (r, extend w evs).

(** A finite number that is at least [lo]. *)
Definition finite_from (lo : Q) (x : JS.number) : Prop :=
  exists q, x = JS.Fin q /\ (lo <= q)%Q.

(** [file.type] names JPEG as far as [getExifOrientation] can tell. *)
Definition declares_jpeg (f : File) : bool :=
  Str.includes "jpeg" (file_type f) || Str.includes "jpg" (file_type f).

(** EXIF extraction fails: the library cannot be imported, its call
    throws, or the file carries no orientation (the call answers
    [undefined]). *)
Definition extraction_fails (env : Host.Env) (f : File) : Prop :=
  match Host.exifr env with
  | None => True
  | Some lib =>
      (exists m, lib f = Host.ExifrThrows m) \/ lib f = Host.ExifrUndefined
  end.

(** The orientation codes whose transform turns the image by a quarter
    turn, so that width and height change places: 5, 6, 7 and 8. *)
Definition quarter_turn (code : Z) : bool := (5 <=? code) && (code <=? 8).

(** What is drawn for the orientation [code] on a canvas of [w] by [h]:
    the smoothing, the transform of the code, the image at the size of
    the canvas (the sides exchanged for a quarter turn), and the reset of
    the transform. *)
Definition oriented_drawing (code : Z) (img : Image) (w h : JS.number)
  : list DrawOp :=
  [SetImageSmoothing true "high"]
  ++ ImageProcessor.applyExifTransform w h (ImageProcessor.transform_of code)
  ++ [DrawImage img (JS.of_Z 0) (JS.of_Z 0)
        (Some (if quarter_turn code then (h, w) else (w, h)));
      SetTransformIdentity].

(** The savings percentage in the words of the specification, over byte
    counts: [max(0, round((o - n) / o * 100))] computed in doubles, and 0
    for an empty original. *)
Definition savings_percent (originalSize newSize : N) : JS.number :=
  if (originalSize =? 0)%N then JS.of_Z 0
  else
    JS.max (JS.of_Z 0)
      (JS.round
         (Double.mul
            (Double.div
               (Double.sub (JS.of_N originalSize) (JS.of_N newSize))
               (JS.of_N originalSize))
            (JS.of_Z 100))).

(** A number that is not positive: a finite one, or the negative
    infinity. *)
Definition not_positive (x : JS.number) : Prop :=
  match x with
  | JS.NaN => False
  | JS.Inf s => s = true
  | JS.Fin q => (q <= 0)%Q
  end.

(** The largest side of an image or of a request that the statements
    about sizes consider.  Up to it the sides are whole numbers that a
    double holds exactly, and no product or quotient of a size
    computation leaves the range of the doubles. *)
Definition largest_side : Z := 1000000000.

(** [c] occurs in [s]. *)
Fixpoint occurs (c : ascii) (s : string) : bool :=
  match s with
  | EmptyString => false
  | String a s' => Ascii.eqb a c || occurs c s'
  end.

(** [base] is [name] with its last dot-extension removed, and [name]
    itself when [name] has no dot. *)
Definition strips_last_extension (name base : string) : Prop :=
  (occurs "." name = false /\ base = name)
  \/ (exists ext, name = (base ++ "." ++ ext)%string
                  /\ occurs "." ext = false).

(** The extension in the words of the specification. *)
Definition extension_of (format : string) : string :=
  if String.eqb format "jpeg" then "jpg"%string else format.

(** The format tokens of the format table. *)
Definition table_formats : list string :=
  ["jpeg"; "jpg"; "png"; "webp"; "gif"]%string.

(** The base name [createResultObject] and [generateOutputFilename]
    compute. *)
Definition baseName_of (originalName : string) : string :=
  let dotIndex := Str.lastIndexOf "."%char originalName in
  if negb (dotIndex =? -1) then Str.slice originalName 0 dotIndex
  else originalName.

Section SearchVocabulary.

Variable env : Host.Env.
Variable c : Canvas.

(** Every [toBlob] call on the canvas yields a blob. *)
Definition encoder_answers : Prop :=
  forall mime q, exists blob, Host.toBlob env c mime q = Some blob.

(** [b] is what some [toBlob] call on the canvas yields. *)
Definition encoded (b : Blob) : Prop :=
  exists mime q, Host.toBlob env c mime q = Some b.

(** [e] is a [toBlob] call on the canvas. *)
Definition encodes_canvas (e : Host.Event) : Prop :=
  exists mime q, e = Host.EvToBlob c mime q.

End SearchVocabulary.

(** The canvas was never filled with white. *)
Definition no_white_fill (c : Canvas) : bool :=
  negb (existsb is_white_fill (canvas_ops c)).

(** A world in which nothing has happened yet. *)
Definition empty_settings : StateManager.Settings :=
  StateManager.mkSettings "webp" (JS.of_Z 80) false (JS.of_Z 0) (JS.of_Z 0)
    "px" true true.

Definition empty_state : StateManager.State :=
  StateManager.mkState "upload" [] empty_settings
    (StateManager.mkProcessing false 0 0 0) 0 0.

Definition empty_world : Host.World := Host.mkWorld [] empty_state [].

Section BatchVocabulary.

Import StateManager DownloadManager.

Variable env : Host.Env.
Variable settings : Settings.

(** What [processSingleFile] does for a file: its result, or the error
    it throws.  The world it runs in does not matter
    ([processSingleFile_host_only] below). *)
Definition outcome (fd : FileEntry) : JsError + ResultObject :=
  fst (App.processSingleFile env fd settings empty_world).

(** The entry of a file once the loop is done with it. *)
Definition finished (fd : FileEntry) (r : ResultObject) : FileEntry :=
  mkFileEntry (id fd) (file fd) (thumbnail fd) (originalSize fd)
    (originalName fd) (originalType fd) done (Some r) (error_text fd).

Definition failed (fd : FileEntry) (message : string) : FileEntry :=
  mkFileEntry (id fd) (file fd) (thumbnail fd) (originalSize fd)
    (originalName fd) (originalType fd) error (result fd) (Some message).

Definition settle (fd : FileEntry) : FileEntry :=
  match outcome fd with
  | inr r => finished fd r
  | inl e => failed fd (error_message e)
  end.

(** The results of the files that went through, in order. *)
Definition successes (fds : list FileEntry) : list ResultObject :=
  flat_map (fun fd => match outcome fd with
                      | inr r => [r]
                      | inl _ => []
                      end) fds.

(** The number of files that failed. *)
Definition failures (fds : list FileEntry) : nat :=
  length (filter (fun fd => match outcome fd with
                            | inr _ => false
                            | inl _ => true
                            end = true) fds).

Definition tally (fds : list FileEntry) (b : App.Batch) : App.Batch :=
  App.mkBatch (App.results b ++ successes fds)
    (App.successCount b + length (successes fds))
    (App.errorCount b + failures fds).

End BatchVocabulary.

(** The encoder gives every blob the type it was asked for. *)
Definition honest_encoder (env : Host.Env) : Prop :=
  forall c mime q blob,
    Host.toBlob env c mime q = Some blob -> blob_type blob = mime.

(** A quality on the encoder's scale, between 0.1 and 1. *)
Definition encoder_quality (q : JS.number) : Prop :=
  exists x, q = JS.Fin x /\ ((1 # 10) <= x <= 1)%Q.

(** The quality a host call carries, if it carries one, is on the
    encoder's scale. *)
Definition quality_in_range (e : Host.Event) : Prop :=
  match e with
  | Host.EvToBlob _ _ q => encoder_quality q
  | Host.EvCompress _ o => encoder_quality (Host.initialQuality o)
  | _ => True
  end.

(** A computation that only talks to the host, and whose calls all
    satisfy [P]. *)
Definition calls {A : Type} (P : Host.Event -> Prop) (m : Host.M A) : Prop :=
  exists r evs, (forall w, m w = (r, extend w evs)) /\ Forall P evs.

(** What [validateFile] lets through: a file of at most 10 MB and of an
    allowed type. *)
Definition accepted (f : File) : bool :=
  (file_size f <=? Utils.MAX_FILE_SIZE)%N
  && Utils.array_includes Utils.ALLOWED_TYPES (file_type f).

(** A queue entry as it is made for a file that was just picked. *)
Definition fresh_entry (e : StateManager.FileEntry) : Prop :=
  StateManager.status e = StateManager.pending
  /\ StateManager.result e = None
  /\ StateManager.error_text e = None
  /\ StateManager.originalSize e = file_size (StateManager.file e)
  /\ StateManager.originalName e = file_name (StateManager.file e)
  /\ StateManager.originalType e = file_type (StateManager.file e).

(** In the quality search, the blob kept so far was encoded at the
    quality kept with it. *)
Definition best_at_quality (env : Host.Env) (c : Canvas) (mime : string)
    (s : SmartCompression.Search) : Prop :=
  forall b, SmartCompression.bestBlob s = Some b ->
    Host.toBlob env c mime
      (JS.div (SmartCompression.bestQuality s) (JS.of_Z 100))
    = Some b.

(** The bounds of the quality search are integers, the lower one at
    least [lo] and the upper one at most [hi], and the quality kept is
    an integer between [lo] and [hi]. *)
Definition within (lo hi : Z) (s : SmartCompression.Search) : Prop :=
  (exists l zl,
     SmartCompression.low s = JS.Fin l /\ (l == inject_Z zl)%Q /\ lo <= zl)
  /\ (exists h zh,
        SmartCompression.high s = JS.Fin h /\ (h == inject_Z zh)%Q
        /\ zh <= hi)
  /\ (exists q, SmartCompression.bestQuality s = JS.of_Z q /\ lo <= q <= hi).

Section CountVocabulary.

Import StateManager.

Variable env : Host.Env.
Variable settings : Settings.

(** What one turn of the batch loop for the file [fd] leaves alone and
    what it counts, from the world [w] to the world [w']. *)
Definition counted (fd : FileEntry) (w w' : Host.World) : Prop :=
  currentScreen (Host.state w') = currentScreen (Host.state w)
  /\ StateManager.settings (Host.state w')
     = StateManager.settings (Host.state w)
  /\ processing_state (Host.state w') = processing_state (Host.state w)
  /\ map id (files (Host.state w')) = map id (files (Host.state w))
  /\ processedCount (Host.state w')
     = processedCount (Host.state w)
       + match outcome env settings fd with inr _ => 1 | inl _ => 0 end
  /\ totalSaved (Host.state w) <= totalSaved (Host.state w')
  /\ Host.processedResults w' = Host.processedResults w.

End CountVocabulary.

(** * Concrete inputs *)

Section Fixtures.

Import Host StateManager.

(** A host in which every call fails. *)
Definition silent_env : Env :=
  mkEnv (fun _ => None) None true (fun _ _ _ => None) None false
    (fun _ => []).

Definition png_blob : Blob := mkBlob "image/png" 2048 7.

(** An image that is neither a photo nor a graphic: 100 x 60 pixels;
    every tenth pixel (the ones [analyzeImage] reads) is opaque and has a
    colour of its own, 600 in all, one bucket away from its predecessor
    in red and now and then in green and blue. *)
Definition ambiguous_pixel (k : nat) : list Z :=
  let z := Z.of_nat k in
  [16 * (z mod 16); 16 * ((z / 16) mod 16); 16 * (z / 256); 255]
  ++ repeat 0 36.

Definition ambiguous_data : list Z := flat_map ambiguous_pixel (seq 0 600).

Definition ambiguous_env : Env :=
  mkEnv (fun _ => None) None true (fun _ _ _ => None) None false
    (fun _ => ambiguous_data).

Definition ambiguous_canvas : Canvas :=
  createCanvas (JS.of_Z 100) (JS.of_Z 60).

(** An encoder whose output is always 5 bytes: no quality brings a
    1 KB target within tolerance. *)
Definition five_byte_env : Env :=
  mkEnv (fun _ => None) None true (fun _ mime _ => Some (mkBlob mime 5 0))
    None false (fun _ => []).

Definition small_canvas : Canvas := createCanvas (JS.of_Z 2) (JS.of_Z 2).

(** A browser that cannot decode the file whose content is 3, and has
    neither EXIF reader nor compression library. *)
Definition batch_env : Env :=
  mkEnv
    (fun b => if (blob_content b =? 3)%N then None
              else Some (mkImage (JS.of_Z 4) (JS.of_Z 3) false
                           (blob_content b)))
    None true (fun _ mime _ => Some (mkBlob mime 100 0)) None false
    (fun _ => []).

Definition queued (i name : string) (content : N) : FileEntry :=
  mkFileEntry i (mkFile name "image/png" 1000 content) None 1000 name
    "image/png" pending None None.

Definition batch_files : list FileEntry :=
  [queued "a" "one.png" 1; queued "b" "two.png" 2;
   queued "c" "broken.png" 3; queued "d" "four.png" 4;
   queued "e" "five.png" 5].

Definition batch_world : World :=
  mkWorld []
    (mkState "editor" batch_files empty_settings
       (mkProcessing false 0 0 0) 0 0)
    [].

(** A transparent PNG logo, to be saved as JPEG. *)
Definition logo_image : Image := mkImage (JS.of_Z 4) (JS.of_Z 3) true 1.

Definition logo_env : Env :=
  mkEnv (fun _ => Some logo_image) None true
    (fun _ mime _ => Some (mkBlob mime 100 2)) None false (fun _ => []).

Definition logo_entry : FileEntry :=
  mkFileEntry "a" (mkFile "logo.png" "image/png" 1000 1) None 1000
    "logo.png" "image/png" pending None None.

Definition jpeg_settings : Settings :=
  mkSettings "jpeg" (JS.of_Z 80) false (JS.of_Z 0) (JS.of_Z 0) "px" true
    true.

End Fixtures.

Section MoreFixtures.

Import Host.

(** A page whose canvases export to whatever type is asked for. *)
Definition data_url (c : Canvas) (mime : string) (q : option JS.number)
  : string :=
  ("data:" ++ mime ++ ";base64,AAAA")%string.

Definition logo_file : File := mkFile "logo.png" "image/png" 1000 1.

(** An image of one fully transparent pixel. *)
Definition clear_pixel_env : Env :=
  mkEnv (fun _ => None) None true (fun _ _ _ => None) None false
    (fun _ => [0; 0; 0; 0]).

Definition no_resize : ImageProcessor.ImageSettings :=
  ImageProcessor.mkImageSettings false (JS.of_Z 0) (JS.of_Z 0) "px" true
    true.

End MoreFixtures.

(** * Properties *)

(** ** Facts about numbers *)

Section NumberFacts.

Lemma Qltb_lt (x y : Q) : JS.Qltb x y = true <-> (x < y)%Q.
Proof.
  unfold JS.Qltb. rewrite Qlt_alt.
  destruct (x ?= y)%Q; split; intros H; congruence.
Qed.

Lemma Qltb_ge (x y : Q) : JS.Qltb x y = false <-> (y <= x)%Q.
Proof.
  split; intros H.
  - apply Qnot_lt_le. intros Hlt. apply Qltb_lt in Hlt. congruence.
  - destruct (JS.Qltb x y) eqn:E; [|reflexivity].
    apply Qltb_lt in E. exfalso. exact (Qlt_not_le _ _ E H).
Qed.

Lemma Qltb_inject_Z (a b : Z) :
  JS.Qltb (inject_Z a) (inject_Z b) = (a <? b).
Proof.
  destruct (a <? b) eqn:E.
  - apply Qltb_lt. rewrite <- Zlt_Qlt. lia.
  - apply Qltb_ge. rewrite <- Zle_Qle. lia.
Qed.

Lemma max_of_Z (a b : Z) :
  JS.max (JS.of_Z a) (JS.of_Z b) = JS.of_Z (Z.max a b).
Proof.
  unfold JS.max, JS.of_Z, JS.lt. rewrite Qltb_inject_Z.
  destruct (a <? b) eqn:E; f_equal; f_equal; lia.
Qed.

Lemma lt_of_Z (a b : Z) : JS.lt (JS.of_Z a) (JS.of_Z b) = (a <? b).
Proof. apply Qltb_inject_Z. Qed.

Lemma Qis_zero_inject_Z (z : Z) : JS.Qis_zero (inject_Z z) = (z =? 0).
Proof. reflexivity. Qed.

Lemma strict_eq_of_Z (a b : Z) :
  JS.strict_eq (JS.of_Z a) (JS.of_Z b) = (a =? b).
Proof.
  unfold JS.strict_eq, JS.of_Z, Qeq_bool. cbn. f_equal; lia.
Qed.

(** A number above 30 is not below 20. *)
Lemma gt_30_not_lt_20 (a : JS.number) :
  JS.gt a (JS.of_Z 30) = true -> JS.lt a (JS.of_Z 20) = false.
Proof.
  destruct a as [|s|q]; cbn; try reflexivity.
  - destruct s; cbn; congruence.
  - intros H. apply Qltb_lt in H. apply Qltb_ge.
    apply Qlt_le_weak. eapply Qlt_trans; [|exact H]. reflexivity.
Qed.

Lemma Qis_zero_pos (q : Q) : (0 < q)%Q -> JS.Qis_zero q = false.
Proof.
  intros H. unfold JS.Qis_zero. destruct q as [n d].
  unfold Qlt in H. cbn in *. lia.
Qed.

Lemma Qis_zero_true (q : Q) : JS.Qis_zero q = true -> (q == 0)%Q.
Proof.
  unfold JS.Qis_zero. destruct q as [n d]. unfold Qeq. cbn. lia.
Qed.

Lemma round_half_up_nonneg (q : Q) : (0 <= q)%Q -> 0 <= JS.round_half_up q.
Proof.
  intros H. unfold JS.round_half_up.
  change 0 with (Qfloor 0). apply Qfloor_resp_le. lra.
Qed.

Lemma round_half_up_le (q : Q) (z : Z) :
  (q <= inject_Z z)%Q -> JS.round_half_up q <= z.
Proof.
  intros H. unfold JS.round_half_up.
  assert (Hfl := Qfloor_le (q + (1 # 2))).
  assert (Hlt : (inject_Z (Qfloor (q + (1 # 2))) < inject_Z (z + 1))%Q).
  { rewrite inject_Z_plus. eapply Qle_lt_trans; [exact Hfl|].
    change (inject_Z 1) with 1%Q. lra. }
  rewrite <- Zlt_Qlt in Hlt. lia.
Qed.

Lemma Qis_zero_false (q : Q) : JS.Qis_zero q = false -> ~ (q == 0)%Q.
Proof.
  unfold JS.Qis_zero. destruct q as [n d]. unfold Qeq. cbn.
  intros H E. apply Z.eqb_neq in H. lia.
Qed.

Lemma Qis_neg_pos (q : Q) : (0 < q)%Q -> JS.Qis_neg q = false.
Proof.
  intros H. unfold JS.Qis_neg. destruct q as [a b]. unfold Qlt in H.
  cbn in *. apply Z.ltb_ge. lia.
Qed.

Lemma inject_Z_pos (z : Z) : 1 <= z -> (0 < inject_Z z)%Q.
Proof.
  intros H. change 0%Q with (inject_Z 0). rewrite <- Zlt_Qlt. lia.
Qed.

Lemma inject_Z_difference (a b : Z) :
  (inject_Z a - inject_Z b)%Q = inject_Z (a - b).
Proof. unfold Qminus, Qplus, Qopp, inject_Z. cbn. f_equal. lia. Qed.

End NumberFacts.

(** ** Facts about doubles *)

Section DoubleFacts.

Import Double.

Lemma pow2_pos (e : Z) : (0 < pow2 e)%Q.
Proof. apply Qpower_0_lt. reflexivity. Qed.

Lemma pow2_plus (a b : Z) : (pow2 (a + b) == pow2 a * pow2 b)%Q.
Proof. apply Qpower_plus. discriminate. Qed.

Lemma pow2_le (a b : Z) : a <= b -> (pow2 a <= pow2 b)%Q.
Proof. intros H. apply Qpower_le_compat_l; [exact H | discriminate]. Qed.

Lemma pow2_lt_inv (a b : Z) : (pow2 a < pow2 b)%Q -> a < b.
Proof. intros H. apply (Qpower_lt_compat_l_inv 2); [exact H | reflexivity]. Qed.

Lemma pow2_of_Z (k : Z) : 0 <= k -> (pow2 k == inject_Z (2 ^ k))%Q.
Proof. intros H. unfold pow2. now rewrite Zpower_Qpower. Qed.

Lemma pow2_inverse (e : Z) : (pow2 (- e) * pow2 e == 1)%Q.
Proof. rewrite <- pow2_plus. now replace (- e + e) with 0 by lia. Qed.

(** [ilog2 q] is the exponent of the power of 2 at or below [|q|]. *)
Lemma ilog2_spec (q : Q) :
  ~ (q == 0)%Q ->
  (pow2 (ilog2 q) <= Qabs q)%Q /\ (Qabs q < pow2 (ilog2 q + 1))%Q.
Proof.
  intros Hq. unfold ilog2.
  set (n := Z.abs (Qnum q)). set (d := Z.pos (Qden q)).
  assert (Hn : 0 < n).
  { subst n. destruct q as [a b]. unfold Qeq in Hq. cbn in *. lia. }
  assert (Hd : 0 < d) by (subst d; lia).
  assert (Habs : (Qabs q == inject_Z n / inject_Z d)%Q).
  { subst n d. destruct q as [a b]. cbn [Qnum Qden Qabs].
    rewrite (Qmake_Qdiv (Z.abs a) b). reflexivity. }
  destruct (Z.log2_spec n Hn) as [Hn1 Hn2].
  destruct (Z.log2_spec d Hd) as [Hd1 Hd2].
  set (a := Z.log2 n) in *. set (b := Z.log2 d) in *.
  assert (Ha : 0 <= a) by apply Z.log2_nonneg.
  assert (Hb : 0 <= b) by apply Z.log2_nonneg.
  assert (HnQ1 : (pow2 a <= inject_Z n)%Q)
    by (rewrite pow2_of_Z by lia; now rewrite <- Zle_Qle).
  assert (HnQ2 : (inject_Z n < pow2 (a + 1))%Q).
  { rewrite pow2_of_Z by lia. rewrite <- Zlt_Qlt.
    now replace (a + 1) with (Z.succ a) by lia. }
  assert (HdQ1 : (pow2 b <= inject_Z d)%Q)
    by (rewrite pow2_of_Z by lia; now rewrite <- Zle_Qle).
  assert (HdQ2 : (inject_Z d < pow2 (b + 1))%Q).
  { rewrite pow2_of_Z by lia. rewrite <- Zlt_Qlt.
    now replace (b + 1) with (Z.succ b) by lia. }
  assert (HdQ : (0 < inject_Z d)%Q) by (apply inject_Z_pos; lia).
  (* the quotient lies between 2^(a-b-1) and 2^(a-b+1) *)
  assert (Hup : (inject_Z n / inject_Z d < pow2 (a - b + 1))%Q).
  { apply Qlt_shift_div_r; [exact HdQ|].
    replace (a - b + 1) with ((a + 1) + - b) by lia.
    rewrite pow2_plus.
    assert (E := pow2_inverse b).
    assert (P1 := pow2_pos (a + 1)). assert (P2 := pow2_pos (- b)).
    assert (X : (pow2 (a + 1) * pow2 (- b) * pow2 b
                 <= pow2 (a + 1) * pow2 (- b) * inject_Z d)%Q).
    { apply Qmult_le_l; [|exact HdQ1].
      apply Qmult_lt_0_compat; assumption. }
    assert (Y : (pow2 (a + 1) * pow2 (- b) * pow2 b == pow2 (a + 1))%Q).
    { rewrite <- Qmult_assoc, E. ring. }
    lra. }
  assert (Hlo : (pow2 (a - b - 1) <= inject_Z n / inject_Z d)%Q).
  { apply Qle_shift_div_l; [exact HdQ|].
    replace (a - b - 1) with (a + - (b + 1)) by lia.
    rewrite pow2_plus.
    assert (E := pow2_inverse (b + 1)).
    assert (P1 := pow2_pos a). assert (P2 := pow2_pos (- (b + 1))).
    assert (X : (pow2 a * pow2 (- (b + 1)) * inject_Z d
                 <= pow2 a * pow2 (- (b + 1)) * pow2 (b + 1))%Q).
    { apply Qmult_le_l; [|lra]. apply Qmult_lt_0_compat; assumption. }
    assert (Y : (pow2 a * pow2 (- (b + 1)) * pow2 (b + 1) == pow2 a)%Q).
    { rewrite <- Qmult_assoc, E. ring. }
    lra. }
  destruct (Qle_bool (pow2 (a - b)) (Qabs q)) eqn:E.
  - apply Qle_bool_iff in E. split; [exact E|]. now rewrite Habs.
  - assert (E' : ~ (pow2 (a - b) <= Qabs q)%Q).
    { intros H. apply Qle_bool_iff in H. congruence. }
    apply Qnot_le_lt in E'. split.
    + now rewrite Habs.
    + now replace (a - b - 1 + 1) with (a - b) by lia.
Qed.

(** The nearest whole number is within a half. *)
Lemma nearest_even_near (q : Q) :
  (q - (1 # 2) <= inject_Z (nearest_even q) <= q + (1 # 2))%Q.
Proof.
  unfold nearest_even.
  assert (H1 := Qfloor_le q). assert (H2 := Qlt_floor q).
  rewrite inject_Z_plus in H2. change (inject_Z 1) with 1%Q in H2.
  destruct (Qcompare_spec (q - inject_Z (Qfloor q)) (1 # 2)) as [E|E|E].
  - destruct (Z.even (Qfloor q)); [lra|].
    rewrite inject_Z_plus. change (inject_Z 1) with 1%Q. lra.
  - lra.
  - rewrite inject_Z_plus. change (inject_Z 1) with 1%Q. lra.
Qed.

Lemma nearest_even_le (q : Q) (k : Z) :
  (q <= inject_Z k)%Q -> nearest_even q <= k.
Proof.
  intros H. destruct (nearest_even_near q) as [_ Hup].
  assert (Hlt : (inject_Z (nearest_even q) < inject_Z (k + 1))%Q).
  { rewrite inject_Z_plus. change (inject_Z 1) with 1%Q. lra. }
  rewrite <- Zlt_Qlt in Hlt. lia.
Qed.

Lemma nearest_even_ge (q : Q) (k : Z) :
  (inject_Z k <= q)%Q -> k <= nearest_even q.
Proof.
  intros H. destruct (nearest_even_near q) as [Hlo _].
  assert (Hlt : (inject_Z (k - 1) < inject_Z (nearest_even q))%Q).
  { unfold Z.sub. rewrite inject_Z_plus.
    change (inject_Z (- (1))) with (-1)%Q. lra. }
  rewrite <- Zlt_Qlt in Hlt. lia.
Qed.

Lemma nearest_even_inject_Z (k : Z) : nearest_even (inject_Z k) = k.
Proof.
  assert (H1 := nearest_even_le (inject_Z k) k (Qle_refl _)).
  assert (H2 := nearest_even_ge (inject_Z k) k (Qle_refl _)). lia.
Qed.

Lemma nearest_even_comp (x y : Q) :
  (x == y)%Q -> nearest_even x = nearest_even y.
Proof.
  intros E. unfold nearest_even. rewrite (Qfloor_comp _ _ E).
  assert (E' : (x - inject_Z (Qfloor y) == y - inject_Z (Qfloor y))%Q)
    by now rewrite E.
  now rewrite (Qcompare_comp _ _ E' _ _ (Qeq_refl (1 # 2))).
Qed.

Lemma nearest_value_nonneg (q : Q) : (0 <= q)%Q -> (0 <= nearest_value q)%Q.
Proof.
  intros H. unfold nearest_value.
  assert (P := pow2_pos (last_place q)).
  apply Qmult_le_0_compat; [|lra].
  change 0%Q with (inject_Z 0). rewrite <- Zle_Qle.
  apply nearest_even_ge. change (inject_Z 0) with 0%Q.
  apply Qle_shift_div_l; [exact P | lra].
Qed.

Lemma nearest_value_nonpos (q : Q) : (q <= 0)%Q -> (nearest_value q <= 0)%Q.
Proof.
  intros H. unfold nearest_value.
  assert (P := pow2_pos (last_place q)).
  assert (Hn : (inject_Z (nearest_even (q / pow2 (last_place q))) <= 0)%Q).
  { change 0%Q with (inject_Z 0). rewrite <- Zle_Qle.
    apply nearest_even_le. change (inject_Z 0) with 0%Q.
    apply Qle_shift_div_r; [exact P | lra]. }
  assert (X : (0 <= - inject_Z (nearest_even (q / pow2 (last_place q)))
                    * pow2 (last_place q))%Q)
    by (apply Qmult_le_0_compat; lra).
  lra.
Qed.

(** A number below 2^53 has its last place at or below the units. *)
Lemma last_place_small (q : Q) :
  (0 < q)%Q -> (q < pow2 53)%Q -> last_place q <= 0.
Proof.
  intros Hpos Hsmall.
  assert (Hnz : ~ (q == 0)%Q) by (intros E; rewrite E in Hpos; discriminate).
  destruct (ilog2_spec q Hnz) as [Hlo _].
  rewrite (Qabs_pos q) in Hlo by lra.
  assert (Hlog : ilog2 q < 53) by (apply pow2_lt_inv; lra).
  unfold last_place. lia.
Qed.

Lemma below_pow2_53 (c : Z) : c < 2 ^ 53 -> (inject_Z c < pow2 53)%Q.
Proof. intros H. rewrite pow2_of_Z by lia. now rewrite <- Zlt_Qlt. Qed.

(** Not an overflow: a value below 2^53 in size. *)
Lemma no_overflow (r : Q) :
  (0 <= r)%Q -> (r < pow2 54)%Q -> Qle_bool (pow2 1024) (Qabs r) = false.
Proof.
  intros H0 H1. destruct (Qle_bool (pow2 1024) (Qabs r)) eqn:E; [|reflexivity].
  exfalso. apply Qle_bool_iff in E. rewrite Qabs_pos in E by exact H0.
  assert (Hbig : (pow2 54 <= pow2 1024)%Q) by (apply pow2_le; lia). lra.
Qed.

(** A number between 0 and a whole number below 2^53 has a double
    between 0 and that whole number as its nearest. *)
Lemma nearest_between (q : Q) (c : Z) :
  (0 <= q)%Q -> (q <= inject_Z c)%Q -> c < 2 ^ 53 ->
  exists r, nearest q = JS.Fin r /\ (0 <= r)%Q /\ (r <= inject_Z c)%Q.
Proof.
  intros H0 Hc Hsmall. unfold nearest.
  destruct (JS.Qis_zero q) eqn:Ez.
  { exists 0%Q. split; [reflexivity|]. split; [apply Qle_refl | lra]. }
  apply Qis_zero_false in Ez.
  assert (Hpos : (0 < q)%Q).
  { destruct (Qlt_le_dec 0 q) as [L|L]; [exact L|].
    exfalso. apply Ez. lra. }
  assert (Hc53 := below_pow2_53 c Hsmall).
  assert (He : last_place q <= 0) by (apply last_place_small; lra).
  assert (Hv0 := nearest_value_nonneg q H0).
  assert (Hvc : (nearest_value q <= inject_Z c)%Q).
  { unfold nearest_value. set (e := last_place q) in *.
    assert (P := pow2_pos e). assert (Einv := pow2_inverse e).
    assert (Hk : (q / pow2 e <= inject_Z (c * 2 ^ (- e)))%Q).
    { rewrite inject_Z_mult, <- pow2_of_Z by lia.
      apply Qle_shift_div_r; [exact P|].
      rewrite <- Qmult_assoc, Einv. lra. }
    apply nearest_even_le in Hk. rewrite Zle_Qle in Hk.
    rewrite inject_Z_mult, <- pow2_of_Z in Hk by lia.
    assert (X : (inject_Z (nearest_even (q / pow2 e)) * pow2 e
                 <= inject_Z c * pow2 (- e) * pow2 e)%Q)
      by (apply Qmult_le_compat_r; lra).
    rewrite <- Qmult_assoc, Einv in X. lra. }
  cbv zeta. rewrite no_overflow.
  - exists (nearest_value q). now repeat split.
  - exact Hv0.
  - assert (H54 : (pow2 54 == 2 * pow2 53)%Q) by reflexivity. lra.
Qed.

(** A whole number below 2^53 is a double. *)
Lemma nearest_whole (k : Z) :
  0 <= k < 2 ^ 53 ->
  exists r, nearest (inject_Z k) = JS.Fin r /\ (r == inject_Z k)%Q.
Proof.
  intros Hk. unfold nearest.
  destruct (JS.Qis_zero (inject_Z k)) eqn:Ez.
  { exists 0%Q. split; [reflexivity|].
    apply Qis_zero_true in Ez. now rewrite Ez. }
  apply Qis_zero_false in Ez.
  assert (Hpos : (0 < inject_Z k)%Q).
  { apply inject_Z_pos. assert (k <> 0) by (intros ->; now apply Ez). lia. }
  assert (Hc53 : (inject_Z k < pow2 53)%Q) by (apply below_pow2_53; lia).
  assert (He : last_place (inject_Z k) <= 0)
    by (apply last_place_small; lra).
  assert (Hv : (nearest_value (inject_Z k) == inject_Z k)%Q).
  { unfold nearest_value. set (e := last_place (inject_Z k)) in *.
    assert (P := pow2_pos e). assert (Einv := pow2_inverse e).
    assert (Hx : (inject_Z k / pow2 e == inject_Z (k * 2 ^ (- e)))%Q).
    { rewrite inject_Z_mult, <- pow2_of_Z by lia.
      assert (Y : (inject_Z k * pow2 (- e) * pow2 e == inject_Z k)%Q)
        by (rewrite <- Qmult_assoc, Einv; ring).
      rewrite <- Y at 1. field. lra. }
    rewrite (nearest_even_comp _ _ Hx), nearest_even_inject_Z.
    rewrite inject_Z_mult, <- pow2_of_Z by lia.
    rewrite <- Qmult_assoc, Einv. ring. }
  cbv zeta. rewrite no_overflow.
  - exists (nearest_value (inject_Z k)). split; [reflexivity | exact Hv].
  - rewrite Hv. lra.
  - rewrite Hv.
    assert (H54 : (pow2 54 == 2 * pow2 53)%Q) by reflexivity. lra.
Qed.

(** The nearest double of a number in the normal range below 2^53 is
    off by at most the fraction 2^-53 of the number. *)
Lemma nearest_error (q : Q) :
  (pow2 (-1022) <= q)%Q -> (q < pow2 53)%Q ->
  exists r, nearest q = JS.Fin r
            /\ (q - q * pow2 (-53) <= r)%Q /\ (r <= q + q * pow2 (-53))%Q.
Proof.
  intros Hnormal Hsmall.
  assert (Hpos : (0 < q)%Q).
  { assert (P := pow2_pos (-1022)). lra. }
  assert (Hnz : ~ (q == 0)%Q) by (intros E; rewrite E in Hpos; discriminate).
  unfold nearest. rewrite Qis_zero_pos by exact Hpos.
  destruct (ilog2_spec q Hnz) as [Hlo Hhi].
  rewrite (Qabs_pos q) in Hlo, Hhi by lra.
  assert (Hl1 : -1022 < ilog2 q + 1) by (apply pow2_lt_inv; lra).
  assert (He : last_place q = ilog2 q - 52) by (unfold last_place; lia).
  assert (Hnear : (q - q * pow2 (-53) <= nearest_value q)%Q
                  /\ (nearest_value q <= q + q * pow2 (-53))%Q).
  { unfold nearest_value. rewrite He. set (e := ilog2 q - 52).
    assert (P := pow2_pos e).
    destruct (nearest_even_near (q / pow2 e)) as [N1 N2].
    set (m := inject_Z (nearest_even (q / pow2 e))) in *.
    assert (X : (q / pow2 e * pow2 e == q)%Q) by (field; lra).
    assert (Hhalf : (pow2 e * (1 # 2) <= q * pow2 (-53))%Q).
    { assert (E1 : (pow2 e * (1 # 2) == pow2 (ilog2 q) * pow2 (-53))%Q).
      { subst e. replace (ilog2 q - 52) with (ilog2 q + -52) by lia.
        rewrite pow2_plus.
        assert (E2 : (pow2 (-52) * (1 # 2) == pow2 (-53))%Q) by reflexivity.
        rewrite <- E2. ring. }
      rewrite E1. apply Qmult_le_compat_r; [exact Hlo|].
      apply Qlt_le_weak, pow2_pos. }
    assert (Y1 : ((q / pow2 e - (1 # 2)) * pow2 e <= m * pow2 e)%Q)
      by (apply Qmult_le_compat_r; lra).
    assert (Y2 : (m * pow2 e <= (q / pow2 e + (1 # 2)) * pow2 e)%Q)
      by (apply Qmult_le_compat_r; lra).
    split; lra. }
  destruct Hnear as [Hn1 Hn2].
  assert (Hu : (pow2 (-53) == 1 # 9007199254740992)%Q) by reflexivity.
  cbv zeta. rewrite no_overflow.
  - exists (nearest_value q). now repeat split.
  - apply nearest_value_nonneg. lra.
  - assert (H54 : (pow2 54 == 2 * pow2 53)%Q) by reflexivity.
    rewrite Hu in Hn2. lra.
Qed.

(** A number that is not positive has a double that is not positive, or
    the negative infinity, as its nearest. *)
Lemma nearest_not_positive (q : Q) :
  (q <= 0)%Q -> not_positive (nearest q).
Proof.
  intros H. unfold nearest.
  destruct (JS.Qis_zero q) eqn:Ez; [cbn; apply Qle_refl|].
  apply Qis_zero_false in Ez. cbv zeta.
  destruct (Qle_bool _ _); cbn.
  - unfold JS.Qis_neg. destruct q as [n d]. unfold Qle, Qeq in *. cbn in *.
    apply Z.ltb_lt. lia.
  - now apply nearest_value_nonpos.
Qed.

Lemma rounded_not_positive (x : JS.number) :
  not_positive x -> not_positive (rounded x).
Proof.
  destruct x as [|s|q]; cbn; try tauto. apply nearest_not_positive.
Qed.

Lemma div_not_positive (x : JS.number) (d : Q) :
  not_positive x -> (0 < d)%Q -> not_positive (JS.div x (JS.Fin d)).
Proof.
  destruct x as [|s|q]; cbn; [tauto| |].
  - intros -> Hd. now rewrite (Qis_neg_pos d Hd).
  - intros Hq Hd. rewrite (Qis_zero_pos d Hd). cbn.
    apply Qle_shift_div_r; [exact Hd | lra].
Qed.

Lemma mul_not_positive (x : JS.number) (c : Q) :
  not_positive x -> (0 < c)%Q -> not_positive (JS.mul x (JS.Fin c)).
Proof.
  destruct x as [|s|q]; cbn; [tauto| |].
  - intros -> Hc. rewrite (Qis_zero_pos c Hc). cbn.
    now rewrite (Qis_neg_pos c Hc).
  - intros Hq Hc.
    assert (X : (0 <= (- q) * c)%Q) by (apply Qmult_le_0_compat; lra). lra.
Qed.

End DoubleFacts.

(** ** Running computations *)

Section Running.

Import Host.

Lemma extend_nil (w : World) : extend w [] = w.
Proof. destruct w. unfold extend. cbn. now rewrite app_nil_r. Qed.

Lemma extend_extend (w : World) (evs evs' : list Event) :
  extend (extend w evs) evs' = extend w (evs ++ evs').
Proof. unfold extend. cbn. now rewrite app_assoc. Qed.

Lemma bind_returns {A B : Type} (m : M A) (f : A -> M B) (w w' : World)
    (a : A) :
  m w = (inr a, w') -> (m ≫= f) w = f a w'.
Proof. intros H. unfold mbind, M_bind. now rewrite H. Qed.

Lemma bind_throws {A B : Type} (m : M A) (f : A -> M B) (w w' : World)
    (e : JsError) :
  m w = (inl e, w') -> (m ≫= f) w = (inl e, w').
Proof. intros H. unfold mbind, M_bind. now rewrite H. Qed.

Lemma log_extends (e : Event) (w : World) :
  log e w = (inr tt, extend w [e]).
Proof. reflexivity. Qed.

Lemma host_only_ret {A : Type} (a : A) : host_only (mret a).
Proof. exists (inr a), []. intros w. now rewrite extend_nil. Qed.

Lemma host_only_throw {A : Type} (e : JsError) : host_only (@throw A e).
Proof. exists (inl e), []. intros w. now rewrite extend_nil. Qed.

Lemma host_only_log (e : Event) : host_only (log e).
Proof. exists (inr tt), [e]. intros w. reflexivity. Qed.

Lemma host_only_bind {A B : Type} (m : M A) (f : A -> M B) :
  host_only m -> (forall a, host_only (f a)) -> host_only (m ≫= f).
Proof.
  intros (r & evs & Hm) Hf. destruct r as [e|a].
  - exists (inl e), evs. intros w. apply bind_throws, Hm.
  - destruct (Hf a) as (r' & evs' & Hfa).
    exists r', (evs ++ evs'). intros w.
    rewrite (bind_returns _ _ _ _ _ (Hm w)), Hfa. now rewrite extend_extend.
Qed.

Lemma host_only_try_catch {A : Type} (m : M A) (h : JsError -> M A) :
  host_only m -> (forall e, host_only (h e)) -> host_only (try_catch m h).
Proof.
  intros (r & evs & Hm) Hh. destruct r as [e|a].
  - destruct (Hh e) as (r' & evs' & Hhe).
    exists r', (evs ++ evs'). intros w. unfold try_catch.
    rewrite Hm, Hhe. now rewrite extend_extend.
  - exists (inr a), evs. intros w. unfold try_catch. now rewrite Hm.
Qed.

(** What [loadImage] does in a world. *)
Lemma loadImage_run (env : Env) (f : File) (w : World) :
  UtilsIO.loadImage env f w
  = (match decodeImage env (Blob_of_file f) with
     | Some img => inr img
     | None => inl (ImageOptimizerError "Failed to load image" FILE_CORRUPTED)
     end, extend w [EvDecode (Blob_of_file f)]).
Proof.
  unfold UtilsIO.loadImage.
  rewrite (bind_returns _ _ _ _ _ (log_extends _ w)).
  now destruct (decodeImage env (Blob_of_file f)).
Qed.

End Running.

Create HintDb host_only.
#[export] Hint Resolve host_only_ret host_only_throw host_only_log : host_only.
#[export] Hint Resolve host_only_bind host_only_try_catch : host_only.

(** Splits the conditionals and matches of a computation and closes the
    leaves with the lemmas above. *)
Ltac host_only_step :=
  match goal with
  | |- host_only (if ?b then _ else _) => destruct b
  | |- host_only (match ?x with _ => _ end) => destruct x
  | |- host_only (let '(_, _) := ?x in _) => destruct x
  | |- host_only (_ ≫= _) => apply host_only_bind; [|intros ?]
  | |- host_only (Host.try_catch _ _) =>
      apply host_only_try_catch; [|intros ?]
  | |- host_only (mret _) => apply host_only_ret
  | |- host_only (Host.throw _) => apply host_only_throw
  | |- host_only (Host.log _) => apply host_only_log
  | |- host_only _ => solve [auto with host_only]
  end.

Ltac host_only_tac := repeat host_only_step.

(** Every step of the pipeline only talks to the host. *)

Section Pipeline.

Import Host.

Variable env : Env.

Lemma loadImage_host_only (f : File) : host_only (UtilsIO.loadImage env f).
Proof. unfold UtilsIO.loadImage. host_only_tac. Qed.

Lemma getExifOrientation_host_only (f : File) :
  host_only (ImageProcessor.getExifOrientation env f).
Proof. unfold ImageProcessor.getExifOrientation. host_only_tac. Qed.

Hint Resolve loadImage_host_only getExifOrientation_host_only : host_only.

Lemma processImage_host_only (f : File) (s : ImageProcessor.ImageSettings) :
  host_only (ImageProcessor.processImage env f s).
Proof. unfold ImageProcessor.processImage. host_only_tac. Qed.

Lemma canvasToBlob_host_only (c : Canvas) (mime : string) (q : JS.number) :
  host_only (App.canvasToBlob env c mime q).
Proof. unfold App.canvasToBlob. host_only_tac. Qed.

Lemma compressImage_host_only (i : CompressionInput)
    (o : ImageCompressor.Options) :
  host_only (ImageCompressor.compressImage env i o).
Proof.
  unfold ImageCompressor.compressImage, ImageCompressor.initLibrary,
    ImageCompressor.call_library.
  host_only_tac.
Qed.

Lemma convertFormat_host_only (b : Blob) (format : string) (q : JS.number) :
  host_only (FormatConverter.convertFormat env b format q).
Proof.
  unfold FormatConverter.convertFormat, FormatConverter.createImageFromBlob.
  host_only_tac.
Qed.

Hint Resolve processImage_host_only canvasToBlob_host_only
  compressImage_host_only convertFormat_host_only : host_only.

Lemma processSingleFile_host_only (fd : StateManager.FileEntry)
    (settings : StateManager.Settings) :
  host_only (App.processSingleFile env fd settings).
Proof. unfold App.processSingleFile. host_only_tac. Qed.

End Pipeline.

(** ** Input validation *)

Section Validation.

Variable formatFileSize : N -> string.

Lemma array_includes_In (l : list string) (t : string) :
  Utils.array_includes l t = true <-> In t l.
Proof.
  unfold Utils.array_includes. rewrite existsb_exists. split.
  - intros (x & Hx & E). apply String.eqb_eq in E. now subst.
  - intros H. exists t. split; [assumption | apply String.eqb_refl].
Qed.

(** C10.  [validateFile] returns [true] exactly for a present file of at
    most 10 * 1024 * 1024 bytes whose type is one of image/jpeg,
    image/png, image/webp and image/gif; it never returns [false]; a
    missing file throws INVALID_FILE_TYPE, an oversize file throws
    FILE_TOO_LARGE, and a file of acceptable size but another type throws
    INVALID_FILE_TYPE, each as an [ImageOptimizerError]. *)
Theorem validateFile_gate (file : option File) :
  let allowed :=
    ["image/jpeg"; "image/png"; "image/webp"; "image/gif"]%string in
  let r := Utils.validateFile formatFileSize file in
  (r = inr true <->
     exists f, file = Some f
               /\ (file_size f <= 10 * 1024 * 1024)%N
               /\ In (file_type f) allowed)
  /\ r <> inr false
  /\ (file = None -> thrown_code r = Some INVALID_FILE_TYPE)
  /\ (forall f, file = Some f -> (10 * 1024 * 1024 < file_size f)%N ->
        thrown_code r = Some FILE_TOO_LARGE)
  /\ (forall f, file = Some f -> (file_size f <= 10 * 1024 * 1024)%N ->
        ~ In (file_type f) allowed ->
        thrown_code r = Some INVALID_FILE_TYPE).
Proof.
  intros allowed r. subst r. unfold Utils.validateFile.
  assert (Ha : allowed = Utils.ALLOWED_TYPES) by reflexivity.
  clearbody allowed. subst allowed.
  change Utils.MAX_FILE_SIZE with (10 * 1024 * 1024)%N.
  destruct file as [f|].
  - destruct (N.ltb_spec (10 * 1024 * 1024) (file_size f)) as [Hbig|Hok].
    + repeat split; try discriminate.
      * intros (f' & E & Hle & _). injection E as <-. lia.
      * intros f' E Hle. injection E as <-. lia.
    + destruct (Utils.array_includes Utils.ALLOWED_TYPES (file_type f)) eqn:Hin;
        cbn [negb].
      * apply array_includes_In in Hin.
        repeat split; try discriminate.
        -- intros _. exists f. auto.
        -- intros f' E Hlt. injection E as <-. lia.
        -- intros f' E _ Hnot. injection E as <-. contradiction.
      * assert (Hnot : ~ In (file_type f) Utils.ALLOWED_TYPES).
        { intros H. apply array_includes_In in H. congruence. }
        repeat split; try discriminate.
        -- intros (f' & E & _ & H). injection E as <-. contradiction.
        -- intros f' E Hlt. injection E as <-. lia.
  - repeat split; try discriminate.
    intros (f & E & _). discriminate.
Qed.

End Validation.

(** ** Format conversion of a blob already in the target format *)

Section ConvertIdentity.

Import Host.

(** C9.  A blob whose MIME type is already the target format's MIME type
    comes back as it is, and the world is left as it was: nothing is
    decoded and nothing is encoded. *)
Theorem convertFormat_same_type_identity (env : Env) (blob : Blob)
    (targetFormat : string) (quality : JS.number) (w : World) :
  blob_type blob = Utils.getMimeType targetFormat ->
  FormatConverter.convertFormat env blob targetFormat quality w
  = (inr blob, w).
Proof.
  intros Htype. unfold FormatConverter.convertFormat.
  rewrite Htype, String.eqb_refl. reflexivity.
Qed.

Lemma convertFormat_same_type_identity_witness :
  FormatConverter.convertFormat silent_env png_blob "PNG" (JS.of_Z 80)
    empty_world
  = (inr png_blob, empty_world).
Proof.
  apply (convertFormat_same_type_identity silent_env png_blob "PNG").
  reflexivity.
Defined.

End ConvertIdentity.

(** ** Orientation *)

Section Orientation.

Import Host ImageProcessor.

Lemma transform_of_out_of_range (code : Z) :
  code < 1 \/ 8 < code -> ORIENTATION_TRANSFORMS !! code = None.
Proof.
  intros H. unfold ORIENTATION_TRANSFORMS. cbn [list_to_map foldr].
  repeat (rewrite lookup_insert_ne by (cbn; lia)).
  apply lookup_empty.
Qed.

Lemma getExifOrientation_returns (env : Env) (f : File) (w : World) :
  exists code w', getExifOrientation env f w = (inr code, w').
Proof.
  unfold getExifOrientation.
  destruct (negb (Str.includes "jpeg" (file_type f))
            && negb (Str.includes "jpg" (file_type f))).
  - exists 1, w. reflexivity.
  - unfold try_catch. destruct (exifr env) as [lib|]; cbn.
    + destruct (lib f); cbn; eauto.
    + eauto.
Qed.

(** Whatever the EXIF reader does, [processImage] succeeds on a file
    that decodes, as long as a 2D context is available. *)
Lemma processImage_survives_exif (env : Env) (f : File) (s : ImageSettings)
    (w : World) (img : Image) :
  decodeImage env (Blob_of_file f) = Some img ->
  context2d env = true ->
  exists p w', processImage env f s w = (inr p, w').
Proof.
  intros Hdecode Hctx.
  assert (Hload : UtilsIO.loadImage env f w
                  = (inr img, extend w [EvDecode (Blob_of_file f)])).
  { unfold UtilsIO.loadImage.
    rewrite (bind_returns _ _ _ _ _ (log_extends _ w)).
    now rewrite Hdecode. }
  destruct (getExifOrientation_returns env f
              (extend w [EvDecode (Blob_of_file f)]))
    as (code & w1 & Hexif).
  unfold processImage, try_catch.
  rewrite (bind_returns _ _ _ _ _ Hload).
  rewrite (bind_returns _ _ _ _ _ Hexif).
  destruct (if _ : bool then _ else _) as [tw th].
  rewrite Hctx. cbn. eauto.
Qed.

(** The transform of a code rotates by 90 or 270 degrees exactly for the
    codes 5 to 8. *)
Lemma quarter_turn_rotate (code : Z) :
  (rotate (transform_of code) =? 90) || (rotate (transform_of code) =? 270)
  = quarter_turn code.
Proof.
  unfold quarter_turn.
  destruct (Z.leb_spec 5 code) as [H5|H5];
    destruct (Z.leb_spec code 8) as [H8|H8]; cbn [andb].
  - assert (E : code = 5 \/ code = 6 \/ code = 7 \/ code = 8) by lia.
    destruct E as [-> | [-> | [-> | ->]]]; reflexivity.
  - unfold transform_of.
    rewrite (transform_of_out_of_range code) by lia. reflexivity.
  - destruct (Z.leb_spec 1 code) as [H1|H1].
    + assert (E : code = 1 \/ code = 2 \/ code = 3 \/ code = 4) by lia.
      destruct E as [-> | [-> | [-> | ->]]]; reflexivity.
    + unfold transform_of.
      rewrite (transform_of_out_of_range code) by lia. reflexivity.
  - lia.
Qed.

(** The orientation [getExifOrientation] resolves does not depend on the
    world it runs in. *)
Lemma getExifOrientation_same (env : Env) (f : File) (w1 w2 : World) :
  fst (getExifOrientation env f w1) = fst (getExifOrientation env f w2).
Proof.
  destruct (getExifOrientation_host_only env f) as (r & evs & H).
  now rewrite !H.
Qed.

(** A successful [processImage] applies the orientation that
    [getExifOrientation] resolves: it draws with the transform of that
    code, and the width and height it works from are the natural ones,
    exchanged for a quarter turn; without a resize they are the size of
    the output. *)
Lemma processImage_applies_orientation (env : Env) (f : File)
    (s : ImageSettings) (w w' : World) (p : Processed) :
  processImage env f s w = (inr p, w') ->
  exists img code,
    decodeImage env (Blob_of_file f) = Some img
    /\ fst (getExifOrientation env f w) = inr code
    /\ canvas p
       = mkCanvas (out_width p) (out_height p)
           (oriented_drawing code img (out_width p) (out_height p))
    /\ (out_originalWidth p, out_originalHeight p)
       = (if quarter_turn code
          then (naturalHeight img, naturalWidth img)
          else (naturalWidth img, naturalHeight img))
    /\ (resizeEnabled s && negb (keepOriginalDimensions s) = false ->
        (out_width p, out_height p)
        = (out_originalWidth p, out_originalHeight p)).
Proof.
  unfold processImage, try_catch.
  unfold mbind at 1, M_bind at 1. rewrite loadImage_run.
  destruct (decodeImage env (Blob_of_file f)) as [img|] eqn:Hdec;
    [|discriminate].
  unfold mbind, M_bind.
  destruct (getExifOrientation env f (extend w [EvDecode (Blob_of_file f)]))
    as [[e|code] w2] eqn:Hexif.
  { destruct (getExifOrientation_returns env f
                (extend w [EvDecode (Blob_of_file f)])) as (c & w3 & E).
    congruence. }
  assert (Hcode : fst (getExifOrientation env f w) = inr code).
  { rewrite (getExifOrientation_same env f w
               (extend w [EvDecode (Blob_of_file f)])).
    now rewrite Hexif. }
  rewrite quarter_turn_rotate.
  destruct (if resizeEnabled s && negb (keepOriginalDimensions s)
            then _ else _) as [tw th] eqn:Hsize.
  destruct (negb (context2d env)); [discriminate|].
  intros [= <- _]. exists img, code.
  split; [reflexivity|]. split; [exact Hcode|].
  cbn [canvas out_width out_height out_originalWidth out_originalHeight].
  split.
  { unfold oriented_drawing, draw, createCanvas.
    cbn [canvas_width canvas_height canvas_ops app].
    destruct (quarter_turn code); rewrite <- ?app_assoc; reflexivity. }
  split; [now destruct (quarter_turn code)|].
  intros Hkeep. rewrite Hkeep in Hsize.
  destruct (quarter_turn code); congruence.
Qed.

(** C4.  Each code 1-8 has the rotation and mirroring of the table; a
    code below 1 or above 8 has those of code 1.  [getExifOrientation]
    never throws and leaves the state alone.  For a file that is not
    declared JPEG it answers 1 without reading anything; when extraction
    fails (no EXIF library, a call that throws, no orientation in the
    file) it answers 1; and when the library reads a code from a file
    declared JPEG, it asks the library once and answers that code, with 1
    for a code of 0.  [processImage] succeeds on every file that decodes
    when a 2D context is available, whatever the EXIF reader does; and a
    successful [processImage] draws with the transform of the code that
    [getExifOrientation] resolves, and works from the natural width and
    height, exchanged exactly for the codes 5 to 8. *)
Theorem orientation_resolution :
  (transform_of 1 = mkTransform 0 false
   /\ transform_of 2 = mkTransform 0 true
   /\ transform_of 3 = mkTransform 180 false
   /\ transform_of 4 = mkTransform 180 true
   /\ transform_of 5 = mkTransform 90 true
   /\ transform_of 6 = mkTransform 90 false
   /\ transform_of 7 = mkTransform 270 true
   /\ transform_of 8 = mkTransform 270 false)
  /\ (forall code, code < 1 \/ 8 < code ->
        transform_of code = transform_of 1)
  /\ (forall env f w, exists code w',
        getExifOrientation env f w = (inr code, w')
        /\ state w' = state w)
  /\ (forall env f w, declares_jpeg f = false ->
        getExifOrientation env f w = (inr 1, w))
  /\ (forall env f w, extraction_fails env f ->
        fst (getExifOrientation env f w) = inr 1)
  /\ (forall env lib f w code,
        declares_jpeg f = true ->
        exifr env = Some lib ->
        lib f = ExifrValue code ->
        getExifOrientation env f w
        = (inr (if code =? 0 then 1 else code), extend w [EvExifr f]))
  /\ (forall env f s w img,
        decodeImage env (Blob_of_file f) = Some img ->
        context2d env = true ->
        exists p w', processImage env f s w = (inr p, w'))
  /\ (forall env f s w w' p,
        processImage env f s w = (inr p, w') ->
        exists img code,
          decodeImage env (Blob_of_file f) = Some img
          /\ fst (getExifOrientation env f w) = inr code
          /\ canvas p
             = mkCanvas (out_width p) (out_height p)
                 (oriented_drawing code img (out_width p) (out_height p))
          /\ (out_originalWidth p, out_originalHeight p)
             = (if quarter_turn code
                then (naturalHeight img, naturalWidth img)
                else (naturalWidth img, naturalHeight img))).
Proof.
  split; [repeat split; reflexivity|].
  split.
  { intros code H. unfold transform_of.
    rewrite (transform_of_out_of_range code H). reflexivity. }
  split.
  { intros env f w. unfold getExifOrientation.
    destruct (negb (Str.includes "jpeg" (file_type f))
              && negb (Str.includes "jpg" (file_type f))).
    - exists 1, w. split; reflexivity.
    - unfold try_catch. destruct (exifr env) as [lib|]; cbn.
      + destruct (lib f); cbn; eauto.
      + eauto. }
  split.
  { intros env f w H. unfold declares_jpeg in H.
    apply orb_false_elim in H as [H1 H2].
    unfold getExifOrientation. rewrite H1, H2. reflexivity. }
  split.
  { intros env f w H. unfold getExifOrientation, extraction_fails in *.
    destruct (negb (Str.includes "jpeg" (file_type f))
              && negb (Str.includes "jpg" (file_type f))); [reflexivity|].
    unfold try_catch. destruct (exifr env) as [lib|]; cbn; [|reflexivity].
    destruct H as [[m ->] | ->]; reflexivity. }
  split.
  { intros env lib f w code Hjpeg Hlib Hcode.
    unfold getExifOrientation, declares_jpeg in *.
    destruct (Str.includes "jpeg" (file_type f)),
      (Str.includes "jpg" (file_type f)); try discriminate;
      cbn [negb andb]; unfold try_catch; rewrite Hlib; cbn;
      rewrite Hcode; reflexivity. }
  split; [intros env f s w img; apply processImage_survives_exif|].
  intros env f s w w' p Hrun.
  destruct (processImage_applies_orientation env f s w w' p Hrun)
    as (img & code & H1 & H2 & H3 & H4 & _).
  exists img, code. now repeat split.
Qed.

End Orientation.

(** ** The content classifier *)

Section Classifier.

Import Host SmartCompression.

(** The sampled indices are the multiples of 40 below the length. *)
Lemma sample_indices_spec (n i : nat) :
  In i (sample_indices n) <-> (i < n)%nat /\ (i mod 40 = 0)%nat.
Proof.
  unfold sample_indices. rewrite in_map_iff. split.
  - intros (k & <- & Hk). apply in_seq in Hk.
    assert (Hdiv := Nat.div_mod_eq (n + 39) 40).
    assert (Hmod := Nat.mod_upper_bound (n + 39) 40).
    split; [lia|]. rewrite Nat.mul_comm. apply Nat.Div0.mod_mul.
  - intros [Hlt Hmod]. exists (i / 40)%nat.
    assert (Hi := Nat.div_mod_eq i 40).
    split; [lia|]. apply in_seq.
    assert (Hdiv := Nat.div_mod_eq (n + 39) 40).
    assert (Hup := Nat.mod_upper_bound (n + 39) 40).
    lia.
Qed.

(** C7.  [analyzeImage] never answers [isPhoto] and [isGraphic] together,
    whatever the pixels are; and for some image it answers neither. *)
Theorem classifier_mutually_exclusive :
  (forall env c,
     isPhoto (analyzeImage env c) && isGraphic (analyzeImage env c) = false)
  /\ (exists env c,
        isPhoto (analyzeImage env c) = false
        /\ isGraphic (analyzeImage env c) = false).
Proof.
  split.
  - intros env c. unfold analyzeImage. cbn [isPhoto isGraphic].
    set (avg := JS.div _ _).
    set (count := Z.of_nat _).
    destruct (JS.gt avg (JS.of_Z 30)) eqn:Hvar; [|reflexivity].
    rewrite (gt_30_not_lt_20 avg Hvar).
    destruct (Z.ltb_spec 1000 count) as [Hmany|Hfew]; [|reflexivity].
    destruct (Z.ltb_spec count 500); [lia | reflexivity].
  - exists ambiguous_env, ambiguous_canvas. vm_compute. split; reflexivity.
Qed.

End Classifier.

(** ** Savings *)

Section Savings.

Import DownloadManager Double.

Lemma calculateSavings_formula (o n : N) :
  Utils.calculateSavings (JS.of_N o) (JS.of_N n) = savings_percent o n.
Proof.
  unfold Utils.calculateSavings, savings_percent, JS.of_N.
  rewrite strict_eq_of_Z.
  destruct (N.eqb_spec o 0) as [->|Ho]; [reflexivity|].
  destruct (Z.eqb_spec (Z.of_N o) 0) as [E|E]; [lia|]. reflexivity.
Qed.

Lemma createResultObject_savings_formula (blob : Blob) (name : string)
    (o : N) (format : string) (thumb : option string) :
  res_savings (createResultObject blob name o format thumb)
  = savings_percent o (blob_size blob).
Proof.
  unfold createResultObject, savings_percent, JS.of_N. cbn [res_savings].
  unfold JS.gt. rewrite lt_of_Z.
  destruct (N.eqb_spec o 0) as [->|Ho]; [reflexivity|].
  destruct (Z.ltb_spec 0 (Z.of_N o)); [reflexivity | lia].
Qed.

(** [Math.max(0, Math.round(x))] for an [x] that is not positive. *)
Lemma floor_of_not_positive (x : JS.number) :
  not_positive x -> JS.max (JS.of_Z 0) (JS.round x) = JS.of_Z 0.
Proof.
  destruct x as [|s|q]; [intros [] | intros H; cbn in H; now subst s|].
  intros H. cbn [not_positive] in H.
  change (JS.round (JS.Fin q)) with (JS.of_Z (JS.round_half_up q)).
  rewrite max_of_Z. f_equal.
  assert (Hr : JS.round_half_up q <= 0) by (apply round_half_up_le; exact H).
  lia.
Qed.

(** The floor: an output that is not smaller than the input saves 0. *)
Lemma savings_percent_floor (o n : N) :
  (o <= n)%N -> savings_percent o n = JS.of_Z 0.
Proof.
  intros Hle. unfold savings_percent.
  destruct (N.eqb_spec o 0) as [->|Ho]; [reflexivity|].
  apply floor_of_not_positive.
  assert (HoQ : (0 < inject_Z (Z.of_N o))%Q) by (apply inject_Z_pos; lia).
  unfold mul, div, sub, JS.of_N, JS.of_Z.
  apply rounded_not_positive, mul_not_positive; [|reflexivity].
  apply rounded_not_positive, div_not_positive; [|exact HoQ].
  apply rounded_not_positive. cbn.
  assert (X : (inject_Z (Z.of_N o) <= inject_Z (Z.of_N n))%Q)
    by (rewrite <- Zle_Qle; lia).
  lra.
Qed.

(** A smaller output saves a whole percentage between 0 and 100. *)
Lemma savings_percent_range (o n : N) :
  (o < 2 ^ 53)%N -> (n < o)%N ->
  exists z, savings_percent o n = JS.of_Z z /\ 0 <= z <= 100.
Proof.
  intros Hsmall Hlt. unfold savings_percent.
  destruct (N.eqb_spec o 0) as [->|Ho]; [lia|].
  assert (HoQ : (0 < inject_Z (Z.of_N o))%Q) by (apply inject_Z_pos; lia).
  assert (HnQ : (inject_Z (Z.of_N n) < inject_Z (Z.of_N o))%Q)
    by (rewrite <- Zlt_Qlt; lia).
  assert (HnQ0 : (0 <= inject_Z (Z.of_N n))%Q)
    by (change 0%Q with (inject_Z 0); rewrite <- Zle_Qle; lia).
  assert (Ho53 : Z.of_N o < 2 ^ 53).
  { change (2 ^ 53) with (Z.of_N (2 ^ 53)). lia. }
  unfold mul, div, sub, JS.of_N, JS.of_Z. cbn [JS.sub rounded].
  destruct (nearest_between (inject_Z (Z.of_N o) - inject_Z (Z.of_N n))
              (Z.of_N o)) as (d & -> & Hd0 & Hd1); [lra | lra | exact Ho53|].
  unfold JS.div. rewrite (Qis_zero_pos _ HoQ). cbn [rounded].
  destruct (nearest_between (d / inject_Z (Z.of_N o)) 1)
    as (r & -> & Hr0 & Hr1).
  { apply Qle_shift_div_l; [exact HoQ | lra]. }
  { apply Qle_shift_div_r; [exact HoQ|]. change (inject_Z 1) with 1%Q. lra. }
  { reflexivity. }
  cbn [JS.mul rounded].
  destruct (nearest_between (r * inject_Z 100) 100) as (p & -> & Hp0 & Hp1).
  { apply Qmult_le_0_compat; [exact Hr0 | discriminate]. }
  { change (inject_Z 1) with 1%Q in Hr1. change (inject_Z 100) with 100%Q.
    lra. }
  { reflexivity. }
  cbn [JS.round]. fold (JS.of_Z 0) (JS.of_Z (JS.round_half_up p)).
  rewrite max_of_Z.
  exists (Z.max 0 (JS.round_half_up p)). split; [reflexivity|].
  assert (H1 := round_half_up_nonneg p Hp0).
  assert (H2 := round_half_up_le p 100 Hp1). lia.
Qed.

(** Below 2^44 bytes the percentage is a whole number nearest to the
    exact percentage: the two roundings of the doubles move the value by
    less than what separates it from the next half. *)
Lemma savings_percent_nearest (o n : N) :
  (o < 2 ^ 44)%N -> (n < o)%N ->
  exists z,
    savings_percent o n = JS.of_Z z
    /\ 2 * Z.of_N o * z - Z.of_N o <= 200 * (Z.of_N o - Z.of_N n)
       <= 2 * Z.of_N o * z + Z.of_N o.
Proof.
  intros Hsmall Hlt. unfold savings_percent.
  destruct (N.eqb_spec o 0) as [->|Ho]; [lia|].
  set (O := Z.of_N o). set (k := O - Z.of_N n).
  assert (HO : 1 <= O < 2 ^ 44).
  { subst O. change (2 ^ 44) with (Z.of_N (2 ^ 44)). lia. }
  assert (Hk : 1 <= k <= O) by (subst k O; lia).
  assert (HOQ : (0 < inject_Z O)%Q) by (apply inject_Z_pos; lia).
  assert (HOQ1 : (1 <= inject_Z O)%Q)
    by (change 1%Q with (inject_Z 1); rewrite <- Zle_Qle; lia).
  assert (HOQ2 : (inject_Z O < 17592186044416)%Q)
    by (change 17592186044416%Q with (inject_Z (2 ^ 44));
        rewrite <- Zlt_Qlt; lia).
  assert (HkQ1 : (1 <= inject_Z k)%Q)
    by (change 1%Q with (inject_Z 1); rewrite <- Zle_Qle; lia).
  assert (HkQ2 : (inject_Z k <= inject_Z O)%Q) by (rewrite <- Zle_Qle; lia).
  unfold mul, div, sub, JS.of_N, JS.of_Z. cbn [JS.sub rounded].
  fold O. rewrite inject_Z_difference. fold k.
  destruct (nearest_whole k) as (d & -> & Hd); [lia|].
  unfold JS.div. rewrite (Qis_zero_pos _ HOQ). cbn [rounded].
  assert (Hu : (pow2 (-53) == 1 # 9007199254740992)%Q) by reflexivity.
  assert (H53 : (pow2 53 == 9007199254740992)%Q) by reflexivity.
  assert (Hmin : (pow2 (-1022) <= 1 # 17592186044416)%Q).
  { change (1 # 17592186044416)%Q with (pow2 (-44)). apply pow2_le. lia. }
  set (q1 := (d / inject_Z O)%Q).
  assert (Hq1 : (q1 * inject_Z O == inject_Z k)%Q)
    by (subst q1; rewrite <- Hd; field; lra).
  assert (Hq1lo : ((1 # 17592186044416) <= q1)%Q).
  { subst q1. apply Qle_shift_div_l; [exact HOQ|]. rewrite Hd. lra. }
  assert (Hq1hi : (q1 <= 1)%Q).
  { subst q1. apply Qle_shift_div_r; [exact HOQ|]. rewrite Hd. lra. }
  destruct (nearest_error q1) as (r1 & -> & Hr1lo & Hr1hi); [lra | lra|].
  rewrite Hu in Hr1lo, Hr1hi.
  cbn [JS.mul rounded]. change (inject_Z 100) with 100%Q.
  destruct (nearest_error (r1 * 100)) as (r2 & -> & Hr2lo & Hr2hi);
    [lra | lra|].
  rewrite Hu in Hr2lo, Hr2hi.
  cbn [JS.round]. fold (JS.of_Z 0) (JS.of_Z (JS.round_half_up r2)).
  rewrite max_of_Z.
  assert (Hz0 : 0 <= JS.round_half_up r2) by (apply round_half_up_nonneg; lra).
  replace (Z.max 0 (JS.round_half_up r2)) with (JS.round_half_up r2) by lia.
  exists (JS.round_half_up r2). split; [reflexivity|].
  set (z := JS.round_half_up r2) in *.
  assert (Hzlo : (inject_Z z <= r2 + (1 # 2))%Q)
    by (subst z; unfold JS.round_half_up; apply Qfloor_le).
  assert (Hzhi : (r2 + (1 # 2) < inject_Z z + 1)%Q).
  { subst z. unfold JS.round_half_up.
    assert (X := Qlt_floor (r2 + (1 # 2))). rewrite inject_Z_plus in X.
    exact X. }
  (* the distance of [r2] to the exact percentage [100 * q1] *)
  set (eps := (1 # 35184372088832)%Q).
  assert (Hclose : (100 * q1 - eps <= r2)%Q /\ (r2 <= 100 * q1 + eps)%Q)
    by (subst eps; split; lra).
  destruct Hclose as [Hc1 Hc2].
  assert (Ha : ((inject_Z z - (1 # 2) - eps) * inject_Z O
                <= 100 * q1 * inject_Z O)%Q)
    by (apply Qmult_le_compat_r; lra).
  assert (Hb : (100 * q1 * inject_Z O
                <= (inject_Z z + (1 # 2) + eps) * inject_Z O)%Q)
    by (apply Qmult_le_compat_r; lra).
  assert (Hprod : (100 * q1 * inject_Z O == inject_Z (100 * k))%Q).
  { rewrite inject_Z_mult, <- Hq1. ring. }
  rewrite Hprod in Ha, Hb.
  assert (Heps : (eps * inject_Z O < (1 # 2))%Q) by (subst eps; lra).
  assert (Ha' : (inject_Z (2 * O * z - O) < inject_Z (200 * k + 1))%Q).
  { rewrite inject_Z_plus, !inject_Z_mult. unfold Z.sub.
    rewrite inject_Z_plus, inject_Z_opp, !inject_Z_mult.
    rewrite !inject_Z_mult in Ha.
    change (inject_Z 2) with 2%Q. change (inject_Z 200) with 200%Q.
    change (inject_Z 100) with 100%Q in Ha. change (inject_Z 1) with 1%Q.
    lra. }
  assert (Hb' : (inject_Z (200 * k - 1) < inject_Z (2 * O * z + O))%Q).
  { rewrite inject_Z_plus, !inject_Z_mult. unfold Z.sub.
    rewrite inject_Z_plus, !inject_Z_mult.
    rewrite !inject_Z_mult in Hb.
    change (inject_Z 2) with 2%Q. change (inject_Z 200) with 200%Q.
    change (inject_Z 100) with 100%Q in Hb.
    change (inject_Z (- (1))) with (-1)%Q.
    lra. }
  rewrite <- Zlt_Qlt in Ha', Hb'. lia.
Qed.

(** The rounding of the doubles at work: 23 of 40 bytes saved are 57.5
    percent exactly; the quotient of the doubles is a little below 0.575,
    and the percentage reported is 57. *)
Example savings_percent_tie : savings_percent 40 17 = JS.of_Z 57.
Proof. vm_compute. reflexivity. Qed.

(** C8.  For byte counts [originalSize] and [newSize] (whole numbers
    below 2^53, which a double holds), [calculateSavings] and the
    [savings] of [createResultObject] are the same whole number [z], the
    value of [max(0, round((originalSize - newSize) / originalSize *
    100))] in the doubles, with 0 for an empty original.  It lies between
    0 and 100 and it is 0 whenever the output is not smaller than the
    input: negative savings are reported as 0.  For an original below
    2^44 bytes [z] is a whole number nearest to the exact percentage: the
    rounding of the doubles decides a tie at most. *)
Theorem savings_floor (originalSize newSize : N) :
  (originalSize < 2 ^ 53)%N -> (newSize < 2 ^ 53)%N ->
  exists z : Z,
    savings_percent originalSize newSize = JS.of_Z z
    /\ Utils.calculateSavings (JS.of_N originalSize) (JS.of_N newSize)
       = JS.of_Z z
    /\ (forall content type name format thumb,
          res_savings
            (createResultObject (mkBlob type newSize content) name
               originalSize format thumb)
          = JS.of_Z z)
    /\ 0 <= z <= 100
    /\ (originalSize = 0%N -> z = 0)
    /\ ((originalSize <= newSize)%N -> z = 0)
    /\ ((newSize < originalSize)%N -> (originalSize < 2 ^ 44)%N ->
        2 * Z.of_N originalSize * z - Z.of_N originalSize
        <= 200 * (Z.of_N originalSize - Z.of_N newSize)
        <= 2 * Z.of_N originalSize * z + Z.of_N originalSize).
Proof.
  intros Ho Hn.
  assert (Hz : exists z, savings_percent originalSize newSize = JS.of_Z z
                         /\ 0 <= z <= 100).
  { destruct (N.leb_spec originalSize newSize) as [Hle|Hlt].
    - exists 0. split; [now apply savings_percent_floor | lia].
    - now apply savings_percent_range. }
  destruct Hz as (z & Hz & Hrange). exists z.
  assert (Hinj : forall a b : Z, JS.of_Z a = JS.of_Z b -> a = b)
    by (intros a b [= E]; exact E).
  split; [exact Hz|].
  split; [now rewrite calculateSavings_formula|].
  split; [intros; now rewrite createResultObject_savings_formula|].
  split; [exact Hrange|].
  split.
  { intros ->. apply Hinj. now rewrite <- Hz. }
  split.
  { intros Hle. apply Hinj. rewrite <- Hz. now apply savings_percent_floor. }
  intros Hlt H44.
  destruct (savings_percent_nearest originalSize newSize H44 Hlt)
    as (z' & Hz' & Hnear).
  assert (E : z' = z) by (apply Hinj; congruence). now subst z'.
Qed.

Lemma savings_floor_witness :
  exists z : Z,
    savings_percent 40 17 = JS.of_Z z
    /\ Utils.calculateSavings (JS.of_N 40) (JS.of_N 17) = JS.of_Z z
    /\ (forall content type name format thumb,
          res_savings
            (createResultObject (mkBlob type 17 content) name 40 format
               thumb)
          = JS.of_Z z)
    /\ 0 <= z <= 100
    /\ (40%N = 0%N -> z = 0)
    /\ ((40 <= 17)%N -> z = 0)
    /\ ((17 < 40)%N -> (40 < 2 ^ 44)%N ->
        2 * Z.of_N 40 * z - Z.of_N 40
        <= 200 * (Z.of_N 40 - Z.of_N 17)
        <= 2 * Z.of_N 40 * z + Z.of_N 40).
Proof. apply (savings_floor 40 17); reflexivity. Defined.

End Savings.

(** ** Output file names *)

Section Filenames.

Import DownloadManager.

Lemma append_cons (a : ascii) (s t : string) :
  (String a s ++ t)%string = String a (s ++ t)%string.
Proof. reflexivity. Qed.

Lemma length_append (s t : string) :
  String.length (s ++ t)
  = (String.length s + String.length t)%nat.
Proof.
  induction s as [|a s IH]; [reflexivity|].
  rewrite append_cons. cbn [String.length]. now rewrite IH.
Qed.

Lemma lastIndexOf_from_spec (c : ascii) (s : string) :
  forall i acc,
    (occurs c s = false -> Str.lastIndexOf_from c s i acc = acc)
    /\ (occurs c s = true ->
        exists pre suf,
          s = (pre ++ String c suf)%string
          /\ occurs c suf = false
          /\ Str.lastIndexOf_from c s i acc
             = i + Z.of_nat (String.length pre)).
Proof.
  induction s as [|a s IH]; intros i acc; cbn [occurs Str.lastIndexOf_from].
  - split; [reflexivity | discriminate].
  - destruct (IH (i + 1) (if Ascii.eqb a c then i else acc)) as [IHno IHyes].
    destruct (occurs c s) eqn:Hs.
    + rewrite orb_true_r. split; [discriminate|]. intros _.
      destruct (IHyes eq_refl) as (pre & suf & -> & Hsuf & ->).
      exists (String a pre), suf. rewrite append_cons.
      cbn [String.length]. repeat split; [assumption | lia].
    + rewrite orb_false_r, (IHno eq_refl).
      destruct (Ascii.eqb_spec a c) as [->|Hne].
      * split; [discriminate|]. intros _.
        exists EmptyString, s. cbn. repeat split; [assumption | lia].
      * split; [reflexivity | discriminate].
Qed.

Lemma substring_prefix (pre rest : string) :
  substring 0 (String.length pre) (pre ++ rest) = pre.
Proof.
  induction pre as [|a pre IH].
  - destruct rest; reflexivity.
  - rewrite append_cons. cbn [substring String.length]. f_equal. exact IH.
Qed.

Lemma slice_prefix (pre rest : string) :
  Str.slice (pre ++ rest) 0 (Z.of_nat (String.length pre)) = pre.
Proof.
  unfold Str.slice.
  rewrite length_append.
  destruct (Z.ltb_spec (Z.of_nat (String.length pre)) 0); [lia|].
  cbn [Z.ltb Z.compare].
  replace (Z.to_nat (Z.min 0 _)) with 0%nat by lia.
  replace (Z.to_nat _) with (String.length pre) by lia.
  apply substring_prefix.
Qed.

Lemma baseName_of_strips (originalName : string) :
  strips_last_extension originalName (baseName_of originalName).
Proof.
  unfold baseName_of, Str.lastIndexOf.
  destruct (lastIndexOf_from_spec "." originalName 0 (-1)) as [Hno Hyes].
  destruct (occurs "." originalName) eqn:Hdot.
  - destruct (Hyes eq_refl) as (pre & suf & E & Hsuf & ->).
    destruct (Z.eqb_spec (0 + Z.of_nat (String.length pre)) (-1)); [lia|].
    cbn [negb]. right. exists suf. subst originalName.
    rewrite Z.add_0_l, slice_prefix. split; [reflexivity | assumption].
  - rewrite (Hno eq_refl). cbn. left. split; [assumption | reflexivity].
Qed.

Lemma table_extension (format : string) :
  In format table_formats ->
  Utils.getExtensionFromMime (Utils.getMimeType format) = extension_of format.
Proof.
  intros H. cbn in H.
  repeat (destruct H as [<-|H]; [reflexivity|]). contradiction.
Qed.

(** C6, as amended.  For every original file name and every format,
    [createResultObject] names the output [{baseName}_optimized.{ext}],
    where [baseName] is the original name with its last dot-extension
    removed (the name itself if it has no dot) and [ext] is "jpg" for
    jpeg and the format name verbatim otherwise.  [generateOutputFilename]
    gives the same name for the formats of the format table (jpeg, jpg,
    png, webp, gif); in particular it maps "vacation.JPG" and "webp" to
    "vacation_optimized.webp". *)
Theorem output_filename_convention (originalName format : string) :
  exists baseName,
    strips_last_extension originalName baseName
    /\ (forall blob originalSize thumbnail,
          res_newName
            (createResultObject blob originalName originalSize format
               thumbnail)
          = (baseName ++ "_optimized." ++ extension_of format)%string)
    /\ (In format table_formats ->
          FormatConverter.generateOutputFilename originalName format
          = (baseName ++ "_optimized." ++ extension_of format)%string)
    /\ FormatConverter.generateOutputFilename "vacation.JPG" "webp"
       = "vacation_optimized.webp"%string.
Proof.
  exists (baseName_of originalName).
  split; [apply baseName_of_strips|].
  split; [reflexivity|].
  split; [|reflexivity].
  intros H. unfold FormatConverter.generateOutputFilename.
  rewrite (table_extension format H). reflexivity.
Qed.

(** C6, as stated, fails for [generateOutputFilename] outside the format
    table: an unknown format gets the extension "jpg", and the case of
    a known one is folded. *)
Lemma generateOutputFilename_not_verbatim :
  FormatConverter.generateOutputFilename "photo.png" "bmp"
  <> ("photo" ++ "_optimized." ++ extension_of "bmp")%string
  /\ FormatConverter.generateOutputFilename "photo.png" "bmp"
     = "photo_optimized.jpg"%string
  /\ FormatConverter.generateOutputFilename "scan.tiff" "PNG"
     = "scan_optimized.png"%string.
Proof. repeat split. discriminate. Qed.

End Filenames.

(** ** Target dimensions *)

Section Dimensions.

Import ImageProcessor.

Lemma round_nonneg (x : JS.number) :
  finite_from 0 x -> finite_from 0 (JS.round x).
Proof.
  intros (q & -> & Hq). eexists. split; [reflexivity|].
  change 0%Q with (inject_Z 0). rewrite <- Zle_Qle.
  now apply round_half_up_nonneg.
Qed.

Lemma mul_nonneg (x y : JS.number) :
  finite_from 0 x -> finite_from 0 y -> finite_from 0 (JS.mul x y).
Proof.
  intros (a & -> & Ha) (b & -> & Hb). eexists. split; [reflexivity|].
  now apply Qmult_le_0_compat.
Qed.

Lemma div_nonneg (x : JS.number) (d : Q) :
  finite_from 0 x -> (0 < d)%Q -> finite_from 0 (JS.div x (JS.Fin d)).
Proof.
  intros (a & -> & Ha) Hd. unfold JS.div. rewrite (Qis_zero_pos d Hd).
  eexists. split; [reflexivity|].
  apply Qle_shift_div_l; [assumption | lra].
Qed.

Lemma div_pos (a d : Q) :
  (0 < a)%Q -> (0 < d)%Q ->
  exists q, JS.div (JS.Fin a) (JS.Fin d) = JS.Fin q /\ (0 < q)%Q.
Proof.
  intros Ha Hd. unfold JS.div. rewrite (Qis_zero_pos d Hd).
  eexists. split; [reflexivity|].
  apply Qlt_shift_div_l; [assumption | lra].
Qed.

Lemma min_nonneg (x y : JS.number) :
  finite_from 0 x -> finite_from 0 y -> finite_from 0 (JS.min x y).
Proof.
  intros (a & -> & Ha) (b & -> & Hb). unfold JS.min, JS.lt.
  destruct (JS.Qltb b a); eexists; split; try reflexivity; assumption.
Qed.

(** [Math.max(1, x || fallback)] is finite and at least 1. *)
Lemma clamp_minimum (x : JS.number) (fallback : Q) :
  finite_from 0 x -> (0 < fallback)%Q ->
  finite_from 1 (JS.max (JS.of_Z 1) (JS.or x (JS.Fin fallback))).
Proof.
  intros (a & -> & Ha) Hf. unfold JS.or, JS.truthy.
  assert (Hmax : forall q, finite_from 1 (JS.max (JS.of_Z 1) (JS.Fin q))).
  { intros q. unfold JS.max, JS.lt, JS.of_Z.
    destruct (JS.Qltb (inject_Z 1) q) eqn:E.
    - apply Qltb_lt in E. exists q. split; [reflexivity|].
      change (inject_Z 1) with 1%Q in E. lra.
    - exists (inject_Z 1). split; [reflexivity | apply Qle_refl]. }
  destruct (negb (JS.Qis_zero a)); apply Hmax.
Qed.

(** The downscale: the sides are at most 16384 afterwards, the larger
    one is 16384, and neither is negative. *)
Lemma downscale_bounds (a b : Q) :
  (1 <= a)%Q -> (1 <= b)%Q ->
  (16384 < a \/ 16384 < b)%Q ->
  let scale := JS.div MAX_DIMENSION (JS.max (JS.Fin a) (JS.Fin b)) in
  exists w h : Z,
    JS.round (JS.mul (JS.Fin a) scale) = JS.of_Z w
    /\ JS.round (JS.mul (JS.Fin b) scale) = JS.of_Z h
    /\ 0 <= w <= 16384 /\ 0 <= h <= 16384
    /\ (w = 16384 \/ h = 16384).
Proof.
  intros Ha Hb Hbig scale. subst scale.
  assert (Hm : exists m, JS.max (JS.Fin a) (JS.Fin b) = JS.Fin m
                         /\ (a <= m)%Q /\ (b <= m)%Q /\ (16384 < m)%Q
                         /\ (m == a \/ m == b)%Q).
  { unfold JS.max, JS.lt. destruct (JS.Qltb a b) eqn:E.
    - apply Qltb_lt in E. exists b.
      repeat split; first [lra | right; apply Qeq_refl].
    - apply Qltb_ge in E. exists a.
      repeat split; first [lra | left; apply Qeq_refl]. }
  destruct Hm as (m & -> & Ham & Hbm & Hm & Hwhich).
  unfold MAX_DIMENSION, JS.of_Z at 1, JS.div.
  rewrite Qis_zero_pos by lra.
  unfold JS.mul, JS.round.
  assert (Hside : forall x, (1 <= x)%Q -> (x <= m)%Q ->
            0 <= JS.round_half_up (x * (inject_Z 16384 / m)) <= 16384
            /\ ((m == x)%Q ->
                JS.round_half_up (x * (inject_Z 16384 / m)) = 16384)).
  { intros x Hx Hxm.
    assert (Hprod : (x * (inject_Z 16384 / m) == x * 16384 / m)%Q)
      by (change (inject_Z 16384) with 16384%Q; field; lra).
    assert (Hle : (x * (inject_Z 16384 / m) <= inject_Z 16384)%Q).
    { rewrite Hprod. change (inject_Z 16384) with 16384%Q.
      apply Qle_shift_div_r; [lra|]. nra. }
    assert (Hge : (0 <= x * (inject_Z 16384 / m))%Q).
    { rewrite Hprod. apply Qle_shift_div_l; [lra|]. nra. }
    repeat split.
    - now apply round_half_up_nonneg.
    - now apply round_half_up_le.
    - intros E.
      assert (Heq : (x * (inject_Z 16384 / m) + (1 # 2)
                     == (32769 # 2))%Q).
      { rewrite Hprod, <- E. field. lra. }
      unfold JS.round_half_up. rewrite (Qfloor_comp _ _ Heq). reflexivity. }
  destruct (Hside a Ha Ham) as (Hwa & Hea).
  destruct (Hside b Hb Hbm) as (Hwb & Heb).
  do 2 eexists. split; [reflexivity|]. split; [reflexivity|].
  split; [exact Hwa|]. split; [exact Hwb|].
  destruct Hwhich as [E|E]; [left; now apply Hea | right; now apply Heb].
Qed.

(** In exact arithmetic, for a source of positive size and non-negative
    requested sides, [calculateDimensions] returns two finite numbers
    between 0 and 16384, one of them at least 1. *)
Lemma calculateDimensions_bounds (ow oh tw th : Q) (unit : string)
    (maintainAspectRatio : bool) :
  (0 < ow)%Q -> (0 < oh)%Q -> (0 <= tw)%Q -> (0 <= th)%Q ->
  exists w h : Q,
    calculateDimensions (JS.Fin ow) (JS.Fin oh) (JS.Fin tw) (JS.Fin th)
      unit maintainAspectRatio
    = (JS.Fin w, JS.Fin h)
    /\ (0 <= w <= 16384)%Q /\ (0 <= h <= 16384)%Q
    /\ (1 <= w \/ 1 <= h)%Q.
Proof.
  intros How Hoh Htw Hth. unfold calculateDimensions.
  assert (Ffin : forall q, (0 <= q)%Q -> finite_from 0 (JS.Fin q))
    by (intros q Hq; exists q; split; [reflexivity | exact Hq]).
  assert (Fow : finite_from 0 (JS.Fin ow)) by (apply Ffin; lra).
  assert (Foh : finite_from 0 (JS.Fin oh)) by (apply Ffin; lra).
  assert (Ftw : finite_from 0 (JS.Fin tw)) by (apply Ffin; lra).
  assert (Fth : finite_from 0 (JS.Fin th)) by (apply Ffin; lra).
  (* the requested sides in pixels *)
  set (p := if String.eqb unit "%" then _ else _).
  assert (Hp : finite_from 0 (fst p) /\ finite_from 0 (snd p)).
  { subst p. destruct (String.eqb unit "%"); cbn [fst snd]; [|now split].
    split; apply round_nonneg, mul_nonneg; try assumption;
      apply div_nonneg; try assumption; reflexivity. }
  destruct p as [nw nh]. cbn [fst snd] in Hp. destruct Hp as [Fnw Fnh].
  (* the aspect ratio *)
  destruct (div_pos ow oh How Hoh) as (ar & Har & Harpos).
  set (a := if maintainAspectRatio then _ else _).
  assert (Ha : finite_from 0 (fst a) /\ finite_from 0 (snd a)).
  { subst a. destruct maintainAspectRatio; cbn [fst snd]; [|now split].
    rewrite Har.
    destruct (JS.truthy nw && negb (JS.truthy nh)); cbn [fst snd].
    { split; [assumption|]. now apply round_nonneg, div_nonneg. }
    destruct (JS.truthy nh && negb (JS.truthy nw)); cbn [fst snd].
    { split; [|assumption]. apply round_nonneg, mul_nonneg; [assumption|].
      eexists; split; [reflexivity | lra]. }
    destruct (JS.truthy nw && JS.truthy nh); cbn [fst snd]; [|now split].
    assert (Fscale : finite_from 0
              (JS.min (JS.div nw (JS.Fin ow)) (JS.div nh (JS.Fin oh))))
      by (apply min_nonneg; now apply div_nonneg).
    split; apply round_nonneg, mul_nonneg; assumption. }
  destruct a as [aw ah]. cbn [fst snd] in Ha. destruct Ha as [Faw Fah].
  (* the minimum *)
  destruct (clamp_minimum aw ow Faw How) as (cw & -> & Hcw).
  destruct (clamp_minimum ah oh Fah Hoh) as (ch & -> & Hch).
  (* the maximum *)
  change (JS.gt (JS.Fin cw) MAX_DIMENSION)
    with (JS.Qltb (inject_Z 16384) cw).
  change (JS.gt (JS.Fin ch) MAX_DIMENSION)
    with (JS.Qltb (inject_Z 16384) ch).
  destruct (JS.Qltb (inject_Z 16384) cw) eqn:Ew;
    [|destruct (JS.Qltb (inject_Z 16384) ch) eqn:Eh]; cbn [orb].
  - apply Qltb_lt in Ew. change (inject_Z 16384) with 16384%Q in Ew.
    destruct (downscale_bounds cw ch Hcw Hch (or_introl Ew))
      as (w & h & -> & -> & Hw & Hh & Hone).
    exists (inject_Z w), (inject_Z h). split; [reflexivity|].
    change 0%Q with (inject_Z 0). change 16384%Q with (inject_Z 16384).
    change 1%Q with (inject_Z 1). rewrite <- !Zle_Qle. lia.
  - apply Qltb_lt in Eh. change (inject_Z 16384) with 16384%Q in Eh.
    destruct (downscale_bounds cw ch Hcw Hch (or_intror Eh))
      as (w & h & -> & -> & Hw & Hh & Hone).
    exists (inject_Z w), (inject_Z h). split; [reflexivity|].
    change 0%Q with (inject_Z 0). change 16384%Q with (inject_Z 16384).
    change 1%Q with (inject_Z 1). rewrite <- !Zle_Qle. lia.
  - apply Qltb_ge in Ew, Eh. change (inject_Z 16384) with 16384%Q in *.
    exists cw, ch. split; [reflexivity|]. lra.
Qed.

(** The scenario of the specification: 4000 x 3000, width 1000 asked
    for, aspect ratio kept. *)
Example calculateDimensions_keeps_aspect :
  calculateDimensions (JS.of_Z 4000) (JS.of_Z 3000) (JS.of_Z 1000)
    (JS.of_Z 0) "px" true
  = (JS.of_Z 1000, JS.of_Z 750).
Proof. vm_compute. reflexivity. Qed.

(** C1 fails after the downscale.  For a 100 x 100 source and a request
    of 100000 x 1 pixels with the aspect ratio not kept, the minimum of 1
    is applied first, then both sides are scaled by 16384 / 100000 and
    rounded: the height [calculateDimensions] returns is 0, below the
    minimum of 1. *)
Theorem calculateDimensions_downscale_below_minimum :
  let d :=
    calculateDimensions (JS.of_Z 100) (JS.of_Z 100) (JS.of_Z 100000)
      (JS.of_Z 1) "px" false in
  d = (JS.of_Z 16384, JS.of_Z 0)
  /\ JS.ge (snd d) (JS.of_Z 1) = false.
Proof. split; vm_compute; reflexivity. Qed.

End Dimensions.

(** ** The quality search *)

Section QualitySearch.

Import Host SmartCompression.

Variable env : Env.
Variable c : Canvas.

Lemma encode_calls_all (evs : list Event) :
  Forall (encodes_canvas c) evs -> encode_calls evs = length evs.
Proof.
  unfold encode_calls. induction 1 as [|e evs (mime & q & ->) _ IH].
  - reflexivity.
  - rewrite filter_cons_True by reflexivity. cbn. now rewrite IH.
Qed.

Hypothesis Hencoder : encoder_answers env c.

Lemma canvasToBlob_returns (mime : string) (q : JS.number) (w : World) :
  exists blob,
    toBlob env c mime q = Some blob
    /\ canvasToBlob env c mime q w = (inr blob, extend w [EvToBlob c mime q]).
Proof.
  destruct (Hencoder mime q) as [blob Hblob]. exists blob.
  split; [assumption|]. unfold canvasToBlob.
  rewrite (bind_returns _ _ _ _ _ (log_extends _ w)). now rewrite Hblob.
Qed.

(** The loop makes at most [remaining] encode calls and nothing else,
    and never throws; it counts its calls in [iterations]; a loop left
    without a best blob has made no call. *)
Lemma search_loop_spec (mime : string) (targetBytes tolerance : JS.number)
    (remaining : nat) :
  forall (s : Search) (w : World),
    (forall b, bestBlob s = Some b -> encoded env c b) ->
    exists r evs,
      search_loop env c mime targetBytes tolerance remaining s w
      = (inr r, extend w evs)
      /\ Forall (encodes_canvas c) evs
      /\ (length evs <= remaining)%nat
      /\ match r with
         | inl found =>
             encoded env c (found_blob found)
             /\ found_iterations found = (iterations s + length evs)%nat
         | inr s' =>
             (forall b, bestBlob s' = Some b -> encoded env c b)
             /\ iterations s' = (iterations s + length evs)%nat
             /\ (bestBlob s' = None -> bestBlob s = None /\ evs = [])
         end.
Proof.
  induction remaining as [|remaining IH]; intros s w Hbest;
    cbn [search_loop].
  - exists (inr s), []. rewrite extend_nil. cbn.
    repeat split; auto.
  - destruct (JS.le (low s) (high s)).
    2:{ exists (inr s), []. rewrite extend_nil. cbn.
        repeat split; auto; lia. }
    set (mid := JS.round _).
    destruct (canvasToBlob_returns mime (JS.div mid (JS.of_Z 100)) w)
      as (blob & Hblob & Hrun).
    rewrite (bind_returns _ _ _ _ _ Hrun).
    assert (Hev : encodes_canvas c (EvToBlob c mime (JS.div mid (JS.of_Z 100))))
      by (do 2 eexists; reflexivity).
    assert (Henc : encoded env c blob) by (do 2 eexists; exact Hblob).
    destruct (JS.ge _ _ && JS.le _ _).
    { exists (inl (mkFound blob mid (S (iterations s)))),
        [EvToBlob c mime (JS.div mid (JS.of_Z 100))].
      split; [reflexivity|].
      split; [now repeat constructor|].
      cbn. repeat split; [lia | assumption | lia]. }
    set (w1 := extend w _).
    destruct (JS.gt _ _);
      [ edestruct (IH (mkSearch (low s) (JS.sub mid (JS.of_Z 1)) (Some blob)
                         mid (S (iterations s))) w1)
          as (r & evs & -> & Hall & Hlen & Hr)
      | edestruct (IH (mkSearch (JS.add mid (JS.of_Z 1)) (high s) (Some blob)
                         mid (S (iterations s))) w1)
          as (r & evs & -> & Hall & Hlen & Hr) ];
      try (cbn; intros b [= <-]; exact Henc);
      (exists r, (EvToBlob c mime (JS.div mid (JS.of_Z 100)) :: evs);
       subst w1; rewrite extend_extend; cbn [app length];
       split; [reflexivity|];
       split; [now constructor|];
       split; [lia|];
       destruct r as [found|s'];
       [ destruct Hr as [H1 H2]; cbn in H2; split; [assumption | lia]
       | destruct Hr as (H1 & H2 & H3); cbn in H2, H3;
         split; [assumption|]; split; [lia|];
         intros Hnone; destruct (H3 Hnone); discriminate ]).
Qed.

(** Whatever the options, the search returns a blob that [toBlob] made
    from the canvas, after at most [max(1, maxIterations)] encode calls
    and no other host call. *)
Lemma findOptimalQuality_returns (format : string) (targetSizeKB : JS.number)
    (options : Options) (w : World) :
  exists found evs,
    findOptimalQuality env c format targetSizeKB options w
    = (inr found, extend w evs)
    /\ Forall (encodes_canvas c) evs
    /\ (length evs <= Nat.max 1 (maxIterations options))%nat
    /\ (found_iterations found <= Nat.max 1 (maxIterations options))%nat
    /\ encoded env c (found_blob found).
Proof.
  unfold findOptimalQuality.
  set (mime := ("image/" ++ _)%string).
  set (targetBytes := JS.mul targetSizeKB _).
  destruct (String.eqb format "png").
  - destruct (canvasToBlob_returns mime (JS.of_Z 1) w)
      as (blob & Hblob & Hrun).
    rewrite (bind_returns _ _ _ _ _ Hrun).
    exists (mkFound blob (JS.of_Z 100) 1), [EvToBlob c mime (JS.of_Z 1)].
    split; [reflexivity|].
    split; [repeat constructor; do 2 eexists; reflexivity|].
    cbn. repeat split; [lia | lia | do 2 eexists; exact Hblob].
  - destruct (search_loop_spec mime targetBytes (tolerance options)
                (maxIterations options)
                (mkSearch (minQuality options) (maxQuality options) None
                   (maxQuality options) 0) w)
      as (r & evs & Hrun & Hall & Hlen & Hr); [discriminate|].
    rewrite (bind_returns _ _ _ _ _ Hrun).
    destruct r as [found|s'].
    + destruct Hr as [Henc Hit]. cbn in Hit.
      exists found, evs. repeat split; auto; lia.
    + destruct Hr as (Hbest & Hit & Hnone). cbn in Hit.
      destruct (bestBlob s') as [blob|] eqn:Hblob.
      * exists (mkFound blob (bestQuality s') (iterations s')), evs.
        cbn. repeat split; auto; lia.
      * destruct (Hnone eq_refl) as [_ ->]. rewrite extend_nil in *.
        destruct (canvasToBlob_returns mime
                    (JS.div (bestQuality s') (JS.of_Z 100)) w)
          as (blob & Hb & Hrun').
        rewrite (bind_returns _ _ _ _ _ Hrun').
        exists (mkFound blob (bestQuality s') (iterations s')),
          [EvToBlob c mime (JS.div (bestQuality s') (JS.of_Z 100))].
        split; [reflexivity|].
        split; [repeat constructor; do 2 eexists; reflexivity|].
        cbn in *. repeat split; [lia | lia | do 2 eexists; exact Hb].
Qed.

(** C3, as amended.  For every canvas that [toBlob] can encode, every
    format, every target size and all options, [findOptimalQuality]
    returns: it does not throw, it makes at most [max(1, maxIterations)]
    encode calls and no other host call, so at most [maxIterations] when
    the budget is at least one (it is 10 by default), and the blob it
    returns is one that [toBlob] made from the canvas, whether or not an
    encode landed within the tolerance. *)
Theorem findOptimalQuality_terminates (format : string)
    (targetSizeKB : JS.number) (options : Options) (w : World) :
  exists found evs,
    findOptimalQuality env c format targetSizeKB options w
    = (inr found, extend w evs)
    /\ Forall (encodes_canvas c) evs
    /\ (encode_calls evs <= Nat.max 1 (maxIterations options))%nat
    /\ ((1 <= maxIterations options)%nat ->
        (encode_calls evs <= maxIterations options)%nat)
    /\ (found_iterations found <= Nat.max 1 (maxIterations options))%nat
    /\ encoded env c (found_blob found).
Proof.
  destruct (findOptimalQuality_returns format targetSizeKB options w)
    as (found & evs & Hrun & Hall & Hlen & Hit & Henc).
  exists found, evs. rewrite (encode_calls_all evs Hall).
  repeat split; auto; lia.
Qed.

End QualitySearch.

Section QualitySearchExamples.

Import Host SmartCompression.

Lemma findOptimalQuality_terminates_witness :
  encoder_answers five_byte_env small_canvas
  /\ exists found evs,
       findOptimalQuality five_byte_env small_canvas "jpeg" (JS.of_Z 1)
         default_options empty_world
       = (inr found, extend empty_world evs)
       /\ Forall (encodes_canvas small_canvas) evs
       /\ (encode_calls evs <= Nat.max 1 (maxIterations default_options))%nat
       /\ ((1 <= maxIterations default_options)%nat ->
           (encode_calls evs <= maxIterations default_options)%nat)
       /\ (found_iterations found
           <= Nat.max 1 (maxIterations default_options))%nat
       /\ encoded five_byte_env small_canvas (found_blob found).
Proof.
  assert (H : encoder_answers five_byte_env small_canvas)
    by (intros mime q; eexists; reflexivity).
  split; [exact H|].
  apply (findOptimalQuality_terminates five_byte_env small_canvas H).
Defined.

(** The search above runs six times, never lands within tolerance and
    still returns the last blob, at quality 95. *)
Example findOptimalQuality_never_within_tolerance :
  fst (findOptimalQuality five_byte_env small_canvas "jpeg" (JS.of_Z 1)
         default_options empty_world)
  = inr (mkFound (mkBlob "image/jpeg" 5 0) (JS.of_Z 95) 6).
Proof. vm_compute. reflexivity. Qed.

(** C3, as stated, fails in two corners.  With a budget of zero the loop
    does not run and the fallback encode is still made: one call, more
    than [maxIterations].  And on a canvas for which [toBlob] yields
    [null] the search throws instead of returning. *)
Lemma findOptimalQuality_budget_exceeded :
  let zero := mkOptions (JS.of_Z 10) (JS.of_Z 95) (JS.Fin (1 # 10)) 0 in
  (maxIterations zero
   < encode_calls
       (trace (snd (findOptimalQuality five_byte_env small_canvas "jpeg"
                      (JS.of_Z 1) zero empty_world))))%nat
  /\ fst (findOptimalQuality silent_env small_canvas "jpeg" (JS.of_Z 1)
            default_options empty_world)
     = inl (Error "Failed to create blob").
Proof. split; vm_compute; [lia | reflexivity]. Qed.

End QualitySearchExamples.

(** ** The batch loop *)

Section Batch.

Import Host DownloadManager StateManager App.

Variable env : Env.
Variable settings : Settings.

Lemma processSingleFile_runs (fd : FileEntry) :
  exists evs, forall w,
    processSingleFile env fd settings w
    = (outcome env settings fd, extend w evs).
Proof.
  destruct (processSingleFile_host_only env fd settings) as (r & evs & H).
  exists evs. intros w. unfold outcome. now rewrite !H.
Qed.

Lemma settle_id (fd : FileEntry) : id (settle env settings fd) = id fd.
Proof. unfold settle. now destruct (outcome env settings fd). Qed.

(** [updateFile] changes the one entry that has the id, when ids are
    distinct. *)
Lemma update_unique (pre post : list FileEntry) (fd : FileEntry)
    (u : Updates) :
  List.NoDup (map id (pre ++ fd :: post)) ->
  map (fun f => if String.eqb (id f) (id fd) then spread f u else f)
      (pre ++ fd :: post)
  = pre ++ spread fd u :: post.
Proof.
  intros Hnd.
  assert (Hother : forall l, (forall f, In f l -> id f <> id fd) ->
            map (fun f => if String.eqb (id f) (id fd) then spread f u else f) l
            = l).
  { induction l as [|f l IH]; intros Hl; [reflexivity|]. cbn.
    destruct (String.eqb_spec (id f) (id fd)) as [E|_].
    - exfalso. apply (Hl f); [now left | assumption].
    - f_equal. apply IH. intros g Hg. apply Hl. now right. }
  rewrite map_app. cbn [map]. rewrite String.eqb_refl.
  rewrite map_app in Hnd. cbn [map] in Hnd.
  apply NoDup_remove in Hnd as [Hnd Hnotin].
  rewrite !Hother; [reflexivity | |].
  - intros f Hf E. apply Hnotin. apply in_or_app. right.
    rewrite <- E. now apply in_map.
  - intros f Hf E. apply Hnotin. apply in_or_app. left.
    rewrite <- E. now apply in_map.
Qed.

Lemma updateFile_twice (pre post : list FileEntry) (fd : FileEntry)
    (u1 u2 : Updates) (s : State) :
  files s = pre ++ fd :: post ->
  List.NoDup (map id (pre ++ fd :: post)) ->
  files (updateFile (id fd) u2 (updateFile (id fd) u1 s))
  = pre ++ spread (spread fd u1) u2 :: post.
Proof.
  intros Hfiles Hnd. cbn. rewrite Hfiles, update_unique by assumption.
  change (id fd) with (id (spread fd u1)) at 1.
  apply update_unique.
  rewrite map_app in *. exact Hnd.
Qed.

Ltac settle_entry :=
  lazymatch goal with
  | Htwice : forall u1 u2, _
    |- map (fun g => if _ then spread g ?u2 else g)
         (map (fun h => if _ then spread h ?u1 else h) _) = _ =>
      exact (Htwice u1 u2)
  end.

(** One turn of the loop never throws.  It settles the entry of its
    file, leaves the other entries, the settings and the stored results
    as they were, and counts the file as a success or as an error. *)
Lemma process_item_spec (pre post : list FileEntry) (fd : FileEntry)
    (b : Batch) (w : World) :
  files (state w) = pre ++ fd :: post ->
  List.NoDup (map id (pre ++ fd :: post)) ->
  exists w',
    process_item env settings fd b w
    = (inr match outcome env settings fd with
           | inr r =>
               mkBatch (results b ++ [r]) (S (successCount b)) (errorCount b)
           | inl _ =>
               mkBatch (results b) (successCount b) (S (errorCount b))
           end, w')
    /\ files (state w') = pre ++ settle env settings fd :: post
    /\ processedResults w' = processedResults w.
Proof.
  intros Hfiles Hnd.
  pose proof (fun u1 u2 => updateFile_twice pre post fd u1 u2 (state w)
                             Hfiles Hnd) as Htwice.
  destruct (processSingleFile_runs fd) as [evs Hrun].
  unfold process_item, mbind, M_bind, try_catch, modify, sleep, log.
  cbn. rewrite Hrun. unfold settle.
  destruct (outcome env settings fd) as [e|r]; cbn.
  - eexists. split; [reflexivity|]. cbn. split; [|reflexivity].
    settle_entry.
  - destruct (0 <? _); cbn.
    + eexists. split; [reflexivity|]. cbn. split; [|reflexivity].
      settle_entry.
    + eexists. split; [reflexivity|]. cbn. split; [|reflexivity].
      settle_entry.
Qed.

(** The loop never throws; it settles every entry it is given, in
    place, and tallies the outcomes. *)
Lemma process_loop_spec (todo : list FileEntry) :
  forall (pre : list FileEntry) (b : Batch) (w : World),
    files (state w) = pre ++ todo ->
    List.NoDup (map id (pre ++ todo)) ->
    exists w',
      process_loop env settings todo b w
      = (inr (tally env settings todo b), w')
      /\ files (state w') = pre ++ map (settle env settings) todo
      /\ processedResults w' = processedResults w.
Proof.
  induction todo as [|fd todo IH]; intros pre b w Hfiles Hnd.
  - exists w. cbn. unfold tally, failures. cbn.
    rewrite app_nil_r, !Nat.add_0_r. destruct b.
    repeat split; assumption.
  - destruct (process_item_spec pre todo fd b w Hfiles Hnd)
      as (w1 & Hitem & Hfiles1 & Hres1).
    cbn [process_loop]. rewrite (bind_returns _ _ _ _ _ Hitem).
    set (b1 := match outcome env settings fd with inl _ => _ | inr _ => _ end).
    destruct (IH (pre ++ [settle env settings fd]) b1 w1)
      as (w' & Hloop & Hfiles' & Hres').
    { now rewrite <- app_assoc. }
    { rewrite <- app_assoc. cbn. rewrite map_app in *. cbn [map] in *.
      now rewrite settle_id. }
    exists w'. rewrite Hloop, Hfiles', Hres', Hres1, <- app_assoc.
    split; [|split; reflexivity].
    f_equal. f_equal. subst b1. unfold tally, successes, failures.
    cbn [flat_map]. rewrite filter_cons.
    destruct (outcome env settings fd) as [e|r];
      cbn [results successCount errorCount].
    + rewrite decide_True by reflexivity. cbn. f_equal; lia.
    + rewrite decide_False by discriminate.
      rewrite <- app_assoc. cbn [app length]. f_equal; lia.
Qed.

(** [processAllFiles] on a non-empty queue of files with distinct ids:
    it returns normally, every entry is settled, and what it stores for
    download
    are the results of the files that went through. *)
Lemma processAllFiles_spec (fs : list FileEntry) (w : World) :
  files (state w) = fs ->
  fs <> [] ->
  StateManager.settings (state w) = settings ->
  List.NoDup (map id fs) ->
  exists w',
    processAllFiles env w
    = (inr (tally env settings fs (mkBatch [] 0 0)), w')
    /\ files (state w') = map (settle env settings) fs
    /\ processedResults w' = successes env settings fs.
Proof.
  intros Hfiles Hne Hsettings Hnd. unfold processAllFiles.
  unfold get_state, mbind at 1, M_bind at 1. rewrite Hfiles, Hsettings.
  destruct fs as [|fd fs]; [contradiction|].
  cbn [length Nat.eqb].
  set (w0 := mkWorld (trace w) (startProcessing (state w))
               (processedResults w)).
  destruct (process_loop_spec (fd :: fs) [] (mkBatch [] 0 0) w0)
    as (w1 & Hloop & Hfiles1 & _); [exact Hfiles | exact Hnd |].
  set (b := tally env settings (fd :: fs) (mkBatch [] 0 0)) in *.
  unfold mbind, M_bind, modify, sleep, log, setProcessedResults.
  fold w0. rewrite Hloop.
  destruct (0 <? successCount b)%nat; cbn;
    (eexists; split; [reflexivity|]; cbn; split; [exact Hfiles1|]);
    reflexivity.
Qed.

(** C2.  A batch of five files with distinct ids, of which the third
    fails with an error [e] and the others go through: [processAllFiles]
    returns normally, having counted four successes and one error; the
    five entries of the queue end with the statuses done, done, error,
    done, done, the third carrying the message of [e] and the others
    their results; the four results are handed on for download. *)
Theorem batch_isolation (f1 f2 f3 f4 f5 : FileEntry)
    (r1 r2 r4 r5 : ResultObject) (e : JsError) (w : World) :
  files (state w) = [f1; f2; f3; f4; f5] ->
  StateManager.settings (state w) = settings ->
  List.NoDup (map id [f1; f2; f3; f4; f5]) ->
  outcome env settings f1 = inr r1 ->
  outcome env settings f2 = inr r2 ->
  outcome env settings f3 = inl e ->
  outcome env settings f4 = inr r4 ->
  outcome env settings f5 = inr r5 ->
  exists w',
    processAllFiles env w = (inr (mkBatch [r1; r2; r4; r5] 4 1), w')
    /\ files (state w')
       = [finished f1 r1; finished f2 r2; failed f3 (error_message e);
          finished f4 r4; finished f5 r5]
    /\ map status (files (state w')) = [done; done; error; done; done]
    /\ processedResults w' = [r1; r2; r4; r5].
Proof.
  intros Hfiles Hsettings Hnd H1 H2 H3 H4 H5.
  destruct (processAllFiles_spec _ w Hfiles ltac:(discriminate) Hsettings Hnd)
    as (w' & Hrun & Hfiles' & Hres).
  exists w'. rewrite Hrun, Hfiles', Hres.
  unfold tally, successes, failures, settle. cbn [map flat_map].
  rewrite !filter_cons, filter_nil.
  rewrite H1, H2, H3, H4, H5.
  rewrite !decide_False by discriminate.
  rewrite decide_True by reflexivity.
  repeat split.
Qed.

End Batch.

Section BatchExample.

Import Host DownloadManager StateManager App.

Lemma batch_isolation_witness :
  exists r1 r2 r4 r5 w',
    files (state batch_world) = batch_files
    /\ List.NoDup (map id batch_files)
    /\ outcome batch_env empty_settings (queued "c" "broken.png" 3)
       = inl (ImageOptimizerError "Failed to load image" FILE_CORRUPTED)
    /\ processAllFiles batch_env batch_world
       = (inr (mkBatch [r1; r2; r4; r5] 4 1), w')
    /\ map status (files (state w')) = [done; done; error; done; done]
    /\ map error_text (files (state w'))
       = [None; None; Some "Failed to load image"%string; None; None]
    /\ processedResults w' = [r1; r2; r4; r5].
Proof.
  assert (Hnd : List.NoDup (map id batch_files)).
  { cbn. repeat constructor; cbn; intuition discriminate. }
  destruct (batch_isolation batch_env empty_settings
              (queued "a" "one.png" 1) (queued "b" "two.png" 2)
              (queued "c" "broken.png" 3) (queued "d" "four.png" 4)
              (queued "e" "five.png" 5)
              _ _ _ _ _ batch_world
              eq_refl eq_refl Hnd eq_refl eq_refl eq_refl eq_refl eq_refl)
    as (w' & Hrun & Hfiles & Hstatus & Hres).
  do 4 eexists. exists w'.
  split; [reflexivity|]. split; [exact Hnd|]. split; [reflexivity|].
  split; [exact Hrun|]. split; [exact Hstatus|]. split; [|exact Hres].
  rewrite Hfiles. reflexivity.
Defined.

End BatchExample.

(** ** JPEG output of a transparent source *)

Section Transparency.

Import Host DownloadManager StateManager App.

(** X18.  [processImage] never fills its canvas: on the canvas it
    returns, no drawing call is a fill with white. *)
Lemma processImage_never_fills (env : Env) (f : File)
    (s : ImageProcessor.ImageSettings) (w w' : World)
    (p : ImageProcessor.Processed) :
  ImageProcessor.processImage env f s w = (inr p, w') ->
  no_white_fill (ImageProcessor.canvas p) = true.
Proof.
  unfold ImageProcessor.processImage, try_catch, mbind, M_bind.
  destruct (UtilsIO.loadImage env f w) as [[e|img] w1];
    [destruct (is_ImageOptimizerError e); discriminate|].
  destruct (ImageProcessor.getExifOrientation env f w1) as [[e|o] w2];
    [destruct (is_ImageOptimizerError e); discriminate|].
  set (t := ImageProcessor.transform_of o).
  destruct (if _ : bool then _ else _) as [tw th].
  destruct (negb (context2d env)); [discriminate|].
  cbn. intros [= <- _]. unfold no_white_fill. cbn [ImageProcessor.canvas].
  unfold draw, ImageProcessor.applyExifTransform. cbn [canvas_ops].
  destruct (negb (ImageProcessor.rotate t =? 0)),
    (ImageProcessor.flip t),
    ((ImageProcessor.rotate t =? 90) || (ImageProcessor.rotate t =? 270));
    reflexivity.
Qed.

(** C5 fails on the pipeline's own encode.  For a source with
    transparent pixels and the target format jpeg, [processSingleFile]
    decodes the file and makes one [toBlob] call, to image/jpeg, on a
    canvas that holds the transparent image and was never filled with
    white; the blob of that call is the result. *)
Theorem processSingleFile_jpeg_without_white_fill :
  exists r c q,
    processSingleFile logo_env logo_entry jpeg_settings empty_world
    = (inr r,
       extend empty_world
         [EvDecode (Blob_of_file (file logo_entry));
          EvToBlob c "image/jpeg" q])
    /\ blob_type (res_blob r) = "image/jpeg"%string
    /\ image_has_alpha logo_image = true
    /\ In (DrawImage logo_image (JS.of_Z 0) (JS.of_Z 0)
             (Some (JS.of_Z 4, JS.of_Z 3)))
          (canvas_ops c)
    /\ no_white_fill c = true
    /\ white_before_image (canvas_ops c) = false.
Proof.
  do 3 eexists. split; [vm_compute; reflexivity|].
  vm_compute. intuition.
Qed.

(** X20.  The conversion path does fill: when [convertFormat] encodes
    to jpeg or jpg, the canvas it hands to [toBlob], for the type
    image/jpeg, has the natural size of the decoded image and exactly two
    drawing calls on it: a fill of the whole canvas with white, and after
    it the image. *)
Lemma convertFormat_jpeg_fills_white (env : Env) (b : Blob)
    (targetFormat : string) (quality : JS.number) (w : World)
    (c : Canvas) (mime : string) (q : JS.number) :
  targetFormat = "jpeg"%string \/ targetFormat = "jpg"%string ->
  In (EvToBlob c mime q)
     (trace (snd (FormatConverter.convertFormat env b targetFormat quality
                    (mkWorld [] (state w) (processedResults w))))) ->
  exists img,
    decodeImage env b = Some img
    /\ c = mkCanvas (naturalWidth img) (naturalHeight img)
             [FillRect "#FFFFFF" (JS.of_Z 0) (JS.of_Z 0)
                (naturalWidth img) (naturalHeight img);
              DrawImage img (JS.of_Z 0) (JS.of_Z 0) None]
    /\ mime = "image/jpeg"%string
    /\ white_before_image (canvas_ops c) = true.
Proof.
  intros Hfmt. unfold FormatConverter.convertFormat.
  assert (Hmime : Utils.getMimeType targetFormat = "image/jpeg"%string)
    by (destruct Hfmt as [-> | ->]; reflexivity).
  rewrite Hmime.
  destruct (String.eqb (blob_type b) _); [intros []|].
  assert (Hjpeg : String.eqb targetFormat "jpeg"
                  || String.eqb targetFormat "jpg" = true)
    by (destruct Hfmt as [-> | ->]; reflexivity).
  rewrite Hjpeg.
  unfold FormatConverter.createImageFromBlob.
  unfold try_catch, mbind, M_bind, log, throw, mret, M_ret.
  cbv beta iota zeta. cbn [trace app].
  destruct (decodeImage env b) as [img|]; cbv beta iota zeta;
    cbn [trace snd app is_ImageOptimizerError];
    [|intros [H|[]]; discriminate].
  destruct (negb (context2d env)); cbv beta iota zeta;
    cbn [trace snd app is_ImageOptimizerError];
    [intros [H|[]]; discriminate|].
  match goal with
  | |- context [toBlob env ?c' ?m' ?q'] => destruct (toBlob env c' m' q')
  end; cbv beta iota zeta; cbn [trace snd app is_ImageOptimizerError];
    intros [H|[H|[]]]; try discriminate; injection H as <- <- _;
    exists img; repeat split; reflexivity.
Qed.

End Transparency.

(** ** The format tables *)

Section Tables.

(** A lookup in a table written as a list of pairs. *)
Lemma lookup_table_cons {V : Type} (k k' : string) (v : V)
    (l : list (string * V)) :
  (list_to_map ((k', v) :: l) : gmap string V) !! k
  = if String.eqb k k' then Some v else (list_to_map l : gmap string V) !! k.
Proof.
  rewrite list_to_map_cons.
  destruct (String.eqb_spec k k') as [->|Hne].
  - apply lookup_insert_eq.
  - apply lookup_insert_ne. congruence.
Qed.

Lemma lookup_table_nil {V : Type} (k : string) :
  (list_to_map [] : gmap string V) !! k = None.
Proof. apply lookup_empty. Qed.

End Tables.

Section FormatTables.

Import Utils FormatConverterMore.

Lemma getMimeType_cases (format : string) :
  getMimeType format = "image/jpeg"%string
  \/ getMimeType format = "image/png"%string
  \/ getMimeType format = "image/webp"%string
  \/ getMimeType format = "image/gif"%string.
Proof.
  unfold getMimeType, mimeTypes.
  generalize (Str.toLowerCase format). intros k.
  rewrite !lookup_table_cons, lookup_table_nil.
  repeat (destruct (String.eqb k _); [cbn; tauto|]). cbn. tauto.
Qed.

(** X1.  For a format string whose lower-case form is not a name that
    the table inherits, [getMimeType] answers one of the four MIME types
    that [validateFile] accepts; and for a MIME type string that is not
    such a name, going to its extension and back, with
    [getExtensionFromMime] and then [getMimeType], gives the MIME type
    again exactly when it is one of those four. *)
Theorem mime_extension_round_trip :
  (forall format,
     Obj.inherited (Str.toLowerCase format) = false ->
     In (getMimeType format) ALLOWED_TYPES)
  /\ (forall mimeType,
        Obj.inherited mimeType = false ->
        (getMimeType (getExtensionFromMime mimeType) = mimeType
         <-> In mimeType ALLOWED_TYPES)).
Proof.
  split.
  - intros format _. unfold ALLOWED_TYPES. cbn [In].
    destruct (getMimeType_cases format) as [-> | [-> | [-> | ->]]]; tauto.
  - intros m _. split.
    + intros <-. unfold ALLOWED_TYPES. cbn [In].
      destruct (getMimeType_cases (getExtensionFromMime m))
        as [-> | [-> | [-> | ->]]]; tauto.
    + unfold ALLOWED_TYPES. cbn [In].
      intros [<- | [<- | [<- | [<- | []]]]]; reflexivity.
Qed.

(** X2.  The table of [getFormatInfo] agrees with the two tables of
    [utils.js] for every format string whose lower-case form is not a
    name that the tables inherit, known or not and in any case of
    letters: its MIME type is the one [getMimeType] gives, and its
    extension the one [getExtensionFromMime] gives for that type. *)
Theorem getFormatInfo_agrees (format : string) :
  Obj.inherited (Str.toLowerCase format) = false ->
  info_mimeType (getFormatInfo format) = getMimeType format
  /\ info_extension (getFormatInfo format)
     = getExtensionFromMime (getMimeType format).
Proof.
  intros _. unfold getFormatInfo, getMimeType, formats, mimeTypes.
  generalize (Str.toLowerCase format). intros k.
  rewrite !lookup_table_cons, !lookup_table_nil.
  repeat (destruct (String.eqb k _); [split; reflexivity|]).
  split; reflexivity.
Qed.

Lemma getFormatInfo_agrees_witness :
  info_mimeType (getFormatInfo "PNG") = getMimeType "PNG"
  /\ info_extension (getFormatInfo "PNG")
     = getExtensionFromMime (getMimeType "PNG").
Proof. apply (getFormatInfo_agrees "PNG"). reflexivity. Defined.

(** X6.  The format [getRecommendedFormat] recommends is one that
    [isFormatSupported] accepts in the same browser, and for an image
    with transparency it is a format that supports transparency. *)
Theorem recommended_format_supported
    (toDataURL : Canvas -> string -> option JS.number -> string)
    (originalType : string) (hasTransparency : bool) :
  let format := getRecommendedFormat toDataURL originalType hasTransparency in
  isFormatSupported toDataURL format = true
  /\ (hasTransparency = true ->
      supportsTransparency (getFormatInfo format) = true).
Proof.
  cbv zeta. unfold getRecommendedFormat, isFormatSupported.
  destruct (FormatConverterMore.checkWebPSupport toDataURL) eqn:E.
  - change (Str.toLowerCase "webp") with "webp"%string.
    cbn [Utils.array_includes existsb String.eqb Ascii.eqb Bool.eqb negb orb].
    split; reflexivity.
  - destruct hasTransparency; split; first [reflexivity | discriminate].
Qed.

End FormatTables.

(** ** File names *)

Section FileNames.

Import UtilsMore.

Lemma substring_all (s : string) : substring 0 (String.length s) s = s.
Proof. induction s as [|a s IH]; [reflexivity|]. cbn. now rewrite IH. Qed.

Lemma substring_suffix (pre rest : string) :
  substring (String.length pre) (String.length rest) (pre ++ rest) = rest.
Proof.
  induction pre as [|a pre IH].
  - apply substring_all.
  - rewrite append_cons. cbn [substring String.length]. exact IH.
Qed.

Lemma slice_from_suffix (pre rest : string) :
  Str.slice_from (pre ++ rest) (Z.of_nat (String.length pre)) = rest.
Proof.
  unfold Str.slice_from, Str.slice.
  rewrite length_append.
  destruct (Z.ltb_spec (Z.of_nat (String.length pre)) 0); [lia|].
  destruct (Z.ltb_spec
              (Z.of_nat (String.length pre + String.length rest)) 0); [lia|].
  replace (Z.to_nat (Z.min (Z.of_nat (String.length pre)) _))
    with (String.length pre) by lia.
  replace (Z.to_nat _) with (String.length rest) by lia.
  apply substring_suffix.
Qed.

Lemma append_empty (s : string) : (s ++ "")%string = s.
Proof.
  induction s as [|a s IH]; [reflexivity|].
  rewrite append_cons. now rewrite IH.
Qed.

(** X3.  [getFileBasename] and [getFileExtension] cut a file name at its
    last dot: the name is the base name followed by a rest, and the
    extension is that rest in lower case.  Without a dot the rest, and so
    the extension, is empty; with one the rest starts with the dot and
    has no other (so a name such as ".gitignore" has an empty base
    name). *)
Theorem file_name_split (filename : string) :
  exists ext,
    filename = (getFileBasename filename ++ ext)%string
    /\ getFileExtension filename = Str.toLowerCase ext
    /\ (occurs "." filename = false -> ext = ""%string)
    /\ (occurs "." filename = true ->
        exists e, ext = String "." e /\ occurs "." e = false).
Proof.
  unfold getFileBasename, getFileExtension, Str.lastIndexOf.
  destruct (lastIndexOf_from_spec "." filename 0 (-1)) as [Hno Hyes].
  destruct (occurs "." filename) eqn:Hdot.
  - destruct (Hyes eq_refl) as (pre & suf & E & Hsuf & ->).
    destruct (Z.eqb_spec (0 + Z.of_nat (String.length pre)) (-1)); [lia|].
    cbn [negb]. exists (String "." suf). subst filename.
    rewrite Z.add_0_l, slice_prefix, slice_from_suffix.
    split; [reflexivity|]. split; [reflexivity|].
    split; [discriminate|]. intros _. now exists suf.
  - rewrite (Hno eq_refl). cbn [Z.eqb negb].
    exists ""%string. split.
    + symmetry. apply append_empty.
    + split; [reflexivity|]. split; [reflexivity | discriminate].
Qed.

End FileNames.

(** ** The size estimate and the recommendations *)

Section Estimate.

Import ImageCompressorMore SmartCompressionMore.

Lemma round_half_up_mono (x y : Q) :
  (x <= y)%Q -> JS.round_half_up x <= JS.round_half_up y.
Proof. intros H. unfold JS.round_half_up. apply Qfloor_resp_le. lra. Qed.

(** The estimate for a base ratio [r]. *)
Lemma estimate_for_ratio (r o q1 q2 : Q) :
  (0 < r)%Q -> (0 <= o)%Q -> (q1 <= q2)%Q ->
  let est q :=
    JS.min
      (JS.round
         (JS.mul (JS.Fin o)
            (JS.mul (JS.Fin r)
               (JS.add (JS.Fin (3 # 10))
                  (JS.mul (JS.div (JS.Fin q) (JS.of_Z 100))
                     (JS.Fin (7 # 10)))))))
      (JS.Fin o) in
  exists e1 e2 : Q,
    est q1 = JS.Fin e1 /\ est q2 = JS.Fin e2 /\ (e1 <= e2)%Q /\ (e2 <= o)%Q.
Proof.
  intros Hr Ho Hq est. subst est. cbv beta.
  unfold JS.div, JS.of_Z. rewrite Qis_zero_inject_Z. cbn [Z.eqb].
  cbn [JS.mul JS.add JS.round]. unfold JS.of_Z, JS.min, JS.lt.
  set (f := fun q : Q =>
              JS.round_half_up
                (o * (r * ((3 # 10) + q / inject_Z 100 * (7 # 10))))).
  change (JS.round_half_up
            (o * (r * ((3 # 10) + q1 / inject_Z 100 * (7 # 10)))))
    with (f q1).
  change (JS.round_half_up
            (o * (r * ((3 # 10) + q2 / inject_Z 100 * (7 # 10)))))
    with (f q2).
  assert (Hf : f q1 <= f q2).
  { subst f. cbv beta. apply round_half_up_mono.
    change (inject_Z 100) with (100 # 1).
    assert (H1 : (q1 / (100 # 1) == q1 * (1 # 100))%Q) by field.
    assert (H2 : (q2 / (100 # 1) == q2 * (1 # 100))%Q) by field.
    rewrite H1, H2.
    set (a1 := ((3 # 10) + q1 * (1 # 100) * (7 # 10))%Q).
    set (a2 := ((3 # 10) + q2 * (1 # 100) * (7 # 10))%Q).
    assert (Ha : (0 <= a2 - a1)%Q) by (subst a1 a2; lra).
    assert (Hra : (0 <= r * (a2 - a1))%Q)
      by (apply Qmult_le_0_compat; lra).
    assert (Hora : (0 <= o * (r * (a2 - a1)))%Q)
      by (apply Qmult_le_0_compat; lra).
    lra. }
  assert (HfQ : (inject_Z (f q1) <= inject_Z (f q2))%Q)
    by now rewrite <- Zle_Qle.
  destruct (JS.Qltb o (inject_Z (f q1))) eqn:E1;
    destruct (JS.Qltb o (inject_Z (f q2))) eqn:E2;
    eexists; eexists; (split; [reflexivity|]); (split; [reflexivity|]);
    try apply Qltb_lt in E1; try apply Qltb_lt in E2;
    try apply Qltb_ge in E1; try apply Qltb_ge in E2;
    split; lra.
Qed.

(** The base ratio of every format that is not an inherited name, the
    fallback included, is positive. *)
Lemma base_ratio_positive (k : string) :
  Obj.inherited k = false ->
  exists r,
    match formatRatios !! k with
    | Some r => JS.or (JS.Fin r) (JS.Fin (5 # 10))
    | None => if Obj.inherited k then JS.NaN else JS.Fin (5 # 10)
    end = JS.Fin r
    /\ (0 < r)%Q.
Proof.
  intros ->. unfold formatRatios.
  rewrite !lookup_table_cons, lookup_table_nil.
  repeat (destruct (String.eqb k _);
          [eexists; split; reflexivity|]).
  eexists; split; reflexivity.
Qed.

(** For an inherited name the base ratio is not a number. *)
Lemma base_ratio_inherited (k : string) :
  Obj.inherited k = true ->
  match formatRatios !! k with
  | Some r => JS.or (JS.Fin r) (JS.Fin (5 # 10))
  | None => if Obj.inherited k then JS.NaN else JS.Fin (5 # 10)
  end = JS.NaN.
Proof.
  intros H. rewrite H. unfold formatRatios.
  rewrite !lookup_table_cons, lookup_table_nil.
  repeat match goal with
         | |- context [String.eqb k ?s] =>
             destruct (String.eqb_spec k s) as [->|_];
               [vm_compute in H; discriminate|]
         end.
  reflexivity.
Qed.

(** X4.  For an original of non-negative size and qualities between 0
    and 100, the estimate of [estimateCompressedSize] is a finite number
    between 0 and the original size that never goes down when the
    quality goes up, for every format whose lower-case form is not a
    name that the table inherits; for such a name the estimate is
    [NaN]. *)
Theorem estimateCompressedSize_bounds (o q1 q2 : Q) (format : string) :
  (0 <= o)%Q -> (0 <= q1)%Q -> (q1 <= q2)%Q -> (q2 <= 100)%Q ->
  if Obj.inherited (Str.toLowerCase format) then
    estimateCompressedSize (JS.Fin o) (JS.Fin q1) format = JS.NaN
  else
    exists e1 e2 : Q,
      estimateCompressedSize (JS.Fin o) (JS.Fin q1) format = JS.Fin e1
      /\ estimateCompressedSize (JS.Fin o) (JS.Fin q2) format = JS.Fin e2
      /\ (0 <= e1)%Q /\ (e1 <= e2)%Q /\ (e2 <= o)%Q.
Proof.
  intros Ho Hq0 Hq Hq100. unfold estimateCompressedSize.
  destruct (Obj.inherited (Str.toLowerCase format)) eqn:E.
  - pose proof (base_ratio_inherited _ E) as H. rewrite E in H.
    rewrite H. reflexivity.
  - pose proof (base_ratio_positive _ E) as (r & H & Hr). rewrite E in H.
    rewrite H.
    destruct (estimate_for_ratio r o q1 q2 Hr Ho Hq)
      as (e1 & e2 & H1 & H2 & Hle & Hup).
    exists e1, e2. split; [exact H1|]. split; [exact H2|].
    split; [|split; assumption].
    clear H2. revert H1. unfold JS.div, JS.of_Z.
    rewrite Qis_zero_inject_Z. cbn [Z.eqb].
    cbn [JS.mul JS.add JS.round]. unfold JS.of_Z, JS.min, JS.lt.
    set (x := (o * (r * ((3 # 10) + q1 / inject_Z 100 * (7 # 10))))%Q).
    assert (Hx : (0 <= x)%Q).
    { subst x. apply Qmult_le_0_compat; [exact Ho|].
      apply Qmult_le_0_compat; [lra|].
      assert (X : (0 <= q1 / inject_Z 100)%Q)
        by (apply Qle_shift_div_l; [reflexivity | lra]).
      lra. }
    assert (Hz : (0 <= inject_Z (JS.round_half_up x))%Q).
    { change 0%Q with (inject_Z 0). rewrite <- Zle_Qle.
      now apply round_half_up_nonneg. }
    destruct (JS.Qltb o (inject_Z (JS.round_half_up x))); intros [= <-];
      assumption.
Qed.

Lemma estimateCompressedSize_bounds_witness :
  exists e1 e2 : Q,
    estimateCompressedSize (JS.of_Z 1000) (JS.of_Z 50) "webp" = JS.Fin e1
    /\ estimateCompressedSize (JS.of_Z 1000) (JS.of_Z 80) "webp" = JS.Fin e2
    /\ (0 <= e1)%Q /\ (e1 <= e2)%Q /\ (e2 <= 1000)%Q.
Proof.
  apply (estimateCompressedSize_bounds 1000 50 80 "webp"); discriminate.
Defined.

Lemma min_cap (size : Q) (cap : Z) :
  exists t, JS.min (JS.Fin size) (JS.of_Z cap) = JS.Fin t
            /\ (t <= size)%Q /\ (t <= inject_Z cap)%Q.
Proof.
  unfold JS.min, JS.of_Z, JS.lt.
  destruct (JS.Qltb (inject_Z cap) size) eqn:E; eexists;
    (split; [reflexivity|]).
  - apply Qltb_lt in E. split; lra.
  - apply Qltb_ge in E. split; lra.
Qed.

(** X5.  For a usage that is not a name the table inherits, the target
    size [getRecommendations] proposes never exceeds the original size;
    it is at most 1000 KB for every usage but "print", for which it is
    the original size; a usage outside the table is treated as "web". *)
Theorem getRecommendations_target (size : Q) (usage : string) :
  Obj.inherited usage = false ->
  exists t,
    targetSizeKB (getRecommendations (JS.Fin size) usage) = JS.Fin t
    /\ (t <= size)%Q
    /\ (usage <> "print"%string -> (t <= 1000)%Q)
    /\ (usage = "print"%string -> t = size)
    /\ (~ In usage ["web"; "email"; "social"; "print"]%string ->
        getRecommendations (JS.Fin size) usage
        = getRecommendations (JS.Fin size) "web").
Proof.
  intros _. unfold getRecommendations, recommendations.
  rewrite !lookup_table_cons, lookup_table_nil.
  destruct (min_cap size 200) as (t1 & E1 & H1 & H1').
  destruct (min_cap size 500) as (t2 & E2 & H2 & H2').
  destruct (min_cap size 1000) as (t3 & E3 & H3 & H3').
  change (inject_Z 200) with (200 # 1) in *.
  change (inject_Z 500) with (500 # 1) in *.
  change (inject_Z 1000) with (1000 # 1) in *.
  destruct (String.eqb_spec usage "web") as [->|?].
  { exists t1. cbn [targetSizeKB]. split; [assumption|]. split; [assumption|].
    split; [intros _; lra|]. split; [discriminate|]. reflexivity. }
  destruct (String.eqb_spec usage "email") as [->|?].
  { exists t2. cbn [targetSizeKB]. split; [assumption|]. split; [assumption|].
    split; [intros _; lra|]. split; [discriminate|].
    intros H. exfalso. apply H. cbn. tauto. }
  destruct (String.eqb_spec usage "social") as [->|?].
  { exists t3. cbn [targetSizeKB]. split; [assumption|]. split; [assumption|].
    split; [intros _; lra|]. split; [discriminate|].
    intros H. exfalso. apply H. cbn. tauto. }
  destruct (String.eqb_spec usage "print") as [->|?].
  { exists size. cbn [targetSizeKB]. split; [reflexivity|].
    split; [lra|]. split; [congruence|]. split; [reflexivity|].
    intros H. exfalso. apply H. cbn. tauto. }
  exists t1. cbn [default String.eqb Ascii.eqb Bool.eqb targetSizeKB].
  split; [assumption|]. split; [assumption|].
  split; [intros _; lra|]. split; [congruence|]. reflexivity.
Qed.

Lemma getRecommendations_target_witness :
  exists t,
    targetSizeKB (getRecommendations (JS.Fin 800) "email") = JS.Fin t
    /\ (t <= 800)%Q
    /\ ("email"%string <> "print"%string -> (t <= 1000)%Q)
    /\ ("email"%string = "print"%string -> t = 800%Q)
    /\ (~ In "email"%string ["web"; "email"; "social"; "print"]%string ->
        getRecommendations (JS.Fin 800) "email"
        = getRecommendations (JS.Fin 800) "web").
Proof. apply (getRecommendations_target 800 "email"). reflexivity. Defined.

End Estimate.

(** ** More on target dimensions *)

Section MoreDimensions.

Import ImageProcessor.

(** X7.  For a source whose sides are whole numbers from 1 to
    [largest_side] and requested sides that are whole numbers from 0 (no
    request) to [largest_side], in any unit and with the aspect ratio
    kept or not, [calculateDimensions] returns two finite numbers between
    0 and 16384, one of them at least 1. *)
Theorem calculateDimensions_within_limits (ow oh tw th : Z) (unit : string)
    (maintainAspectRatio : bool) :
  1 <= ow <= largest_side -> 1 <= oh <= largest_side ->
  0 <= tw <= largest_side -> 0 <= th <= largest_side ->
  exists w h : Q,
    calculateDimensions (JS.of_Z ow) (JS.of_Z oh) (JS.of_Z tw) (JS.of_Z th)
      unit maintainAspectRatio
    = (JS.Fin w, JS.Fin h)
    /\ (0 <= w <= 16384)%Q /\ (0 <= h <= 16384)%Q
    /\ (1 <= w \/ 1 <= h)%Q.
Proof.
  intros How Hoh Htw Hth.
  apply calculateDimensions_bounds;
    change 0%Q with (inject_Z 0);
    first [rewrite <- Zlt_Qlt | rewrite <- Zle_Qle]; lia.
Qed.

Lemma calculateDimensions_within_limits_witness :
  exists w h : Q,
    calculateDimensions (JS.of_Z 4000) (JS.of_Z 3000) (JS.of_Z 50) (JS.of_Z 0)
      "%" true
    = (JS.Fin w, JS.Fin h)
    /\ (0 <= w <= 16384)%Q /\ (0 <= h <= 16384)%Q
    /\ (1 <= w \/ 1 <= h)%Q.
Proof.
  apply (calculateDimensions_within_limits 4000 3000 50 0 "%" true);
    unfold largest_side; lia.
Defined.

Lemma round_half_up_inject_Z (q : Q) (z : Z) :
  (q == inject_Z z)%Q -> JS.round_half_up q = z.
Proof.
  intros E. unfold JS.round_half_up.
  assert (E' : (q + (1 # 2) == (2 * z + 1) # 2)%Q).
  { rewrite E. unfold Qeq, Qplus, inject_Z. cbn [Qnum Qden]. lia. }
  rewrite (Qfloor_comp _ _ E'). cbn [Qfloor].
  symmetry. apply Z.div_unique with (r := 1); lia.
Qed.

Lemma round_half_up_ge_1 (q : Q) : ((1 # 2) <= q)%Q -> 1 <= JS.round_half_up q.
Proof.
  intros H. unfold JS.round_half_up.
  change (Qfloor 1 <= Qfloor (q + (1 # 2))). apply Qfloor_resp_le. lra.
Qed.

Lemma round_half_up_lt_half (q : Q) :
  (0 <= q)%Q -> (q < (1 # 2))%Q -> JS.round_half_up q = 0.
Proof.
  intros H0 H1. unfold JS.round_half_up.
  assert (Hlo : Qfloor 0 <= Qfloor (q + (1 # 2)))
    by (apply Qfloor_resp_le; lra).
  assert (Hhi := Qfloor_le (q + (1 # 2))).
  assert (Hlt : (inject_Z (Qfloor (q + (1 # 2))) < inject_Z 1)%Q).
  { change (inject_Z 1) with 1%Q. lra. }
  rewrite <- Zlt_Qlt in Hlt. change (Qfloor 0) with 0 in Hlo. lia.
Qed.

Lemma Qdiv_lt_cross (a b c d : Q) :
  (0 < b)%Q -> (0 < d)%Q -> (a / b < c / d)%Q -> (a * d < c * b)%Q.
Proof.
  intros Hb Hd H.
  assert (Ea : (a == a / b * b)%Q) by (field; lra).
  assert (Ec : (c == c / d * d)%Q) by (field; lra).
  set (x := (a / b)%Q) in *. set (y := (c / d)%Q) in *.
  assert (Hbd : (0 < b * d)%Q) by (apply Qmult_lt_0_compat; assumption).
  assert (Hp : (0 < (y - x) * (b * d))%Q)
    by (apply Qmult_lt_0_compat; [lra | assumption]).
  rewrite Ea, Ec. lra.
Qed.

Lemma Qdiv_le_cross (a b c d : Q) :
  (0 < b)%Q -> (0 < d)%Q -> (a / b <= c / d)%Q -> (a * d <= c * b)%Q.
Proof.
  intros Hb Hd H.
  assert (Ea : (a == a / b * b)%Q) by (field; lra).
  assert (Ec : (c == c / d * d)%Q) by (field; lra).
  set (x := (a / b)%Q) in *. set (y := (c / d)%Q) in *.
  assert (Hbd : (0 <= b * d)%Q) by (apply Qmult_le_0_compat; lra).
  assert (Hp : (0 <= (y - x) * (b * d))%Q)
    by (apply Qmult_le_0_compat; [lra | assumption]).
  rewrite Ea, Ec. lra.
Qed.

Lemma truthy_of_Z (z : Z) : JS.truthy (JS.of_Z z) = negb (z =? 0).
Proof. reflexivity. Qed.

(** [Math.max(1, z || fallback)] for an integer [z] that is at least 1. *)
Lemma clamp_of_Z (z : Z) (fallback : JS.number) :
  1 <= z -> JS.max (JS.of_Z 1) (JS.or (JS.of_Z z) fallback) = JS.of_Z z.
Proof.
  intros Hz. unfold JS.or. rewrite truthy_of_Z.
  destruct (Z.eqb_spec z 0); [lia|]. cbn [negb].
  rewrite max_of_Z. f_equal. lia.
Qed.

Lemma within_limit (w h : Z) :
  w <= 16384 -> h <= 16384 ->
  JS.gt (JS.of_Z w) MAX_DIMENSION || JS.gt (JS.of_Z h) MAX_DIMENSION = false.
Proof.
  intros Hw Hh. unfold JS.gt, MAX_DIMENSION. rewrite !lt_of_Z.
  destruct (Z.ltb_spec 16384 w); [lia|].
  destruct (Z.ltb_spec 16384 h); [lia|]. reflexivity.
Qed.

(** X8.  Resizing to fit a box with the aspect ratio kept: for a source
    whose sides are whole numbers from 1 to [largest_side] and a
    requested width and height that are whole numbers from 1 to 16384, in
    pixels, [calculateDimensions] returns whole sides that are at least
    1, fit in the requested box and touch it on one side, provided each
    side scaled to the other side of the box is at least one pixel (the
    source is at most [targetWidth] times as wide as it is high, and at
    most [targetHeight] times as high as it is wide). *)
Theorem calculateDimensions_fits_box (ow oh tw th : Z) (unit : string) :
  1 <= ow <= largest_side -> 1 <= oh <= largest_side ->
  1 <= tw <= 16384 -> 1 <= th <= 16384 ->
  ow <= oh * tw -> oh <= ow * th ->
  unit <> "%"%string ->
  exists w h : Z,
    calculateDimensions (JS.of_Z ow) (JS.of_Z oh) (JS.of_Z tw) (JS.of_Z th)
      unit true
    = (JS.of_Z w, JS.of_Z h)
    /\ 1 <= w <= tw /\ 1 <= h <= th /\ (w = tw \/ h = th).
Proof.
  intros Hown Hohn Htw Hth Hwiden Htalln Hunit.
  set (owq := inject_Z ow). set (ohq := inject_Z oh).
  assert (How : (0 < owq)%Q) by (apply inject_Z_pos; lia).
  assert (Hoh : (0 < ohq)%Q) by (apply inject_Z_pos; lia).
  assert (Hwide : (owq <= ohq * inject_Z tw)%Q)
    by (subst owq ohq; rewrite <- inject_Z_mult, <- Zle_Qle; exact Hwiden).
  assert (Htall : (ohq <= owq * inject_Z th)%Q)
    by (subst owq ohq; rewrite <- inject_Z_mult, <- Zle_Qle; exact Htalln).
  change (JS.of_Z ow) with (JS.Fin owq). change (JS.of_Z oh) with (JS.Fin ohq).
  unfold calculateDimensions.
  destruct (String.eqb_spec unit "%") as [E|_]; [contradiction|].
  rewrite !truthy_of_Z.
  destruct (Z.eqb_spec tw 0); [lia|]. destruct (Z.eqb_spec th 0); [lia|].
  cbn [negb andb].
  assert (HtwQ : (1 <= inject_Z tw)%Q)
    by (change 1%Q with (inject_Z 1); rewrite <- Zle_Qle; lia).
  assert (HthQ : (1 <= inject_Z th)%Q)
    by (change 1%Q with (inject_Z 1); rewrite <- Zle_Qle; lia).
  assert (Dw : JS.div (JS.of_Z tw) (JS.Fin owq) = JS.Fin (inject_Z tw / owq))
    by (unfold JS.div, JS.of_Z; now rewrite Qis_zero_pos).
  assert (Dh : JS.div (JS.of_Z th) (JS.Fin ohq) = JS.Fin (inject_Z th / ohq))
    by (unfold JS.div, JS.of_Z; now rewrite Qis_zero_pos).
  rewrite Dw, Dh. clear Dw Dh.
  unfold JS.min, JS.lt.
  destruct (JS.Qltb (inject_Z th / ohq) (inject_Z tw / owq)) eqn:E.
  - (* the height is the tighter side *)
    apply Qltb_lt in E.
    assert (Hc : (inject_Z th * owq < inject_Z tw * ohq)%Q)
      by (apply Qdiv_lt_cross; assumption).
    cbn [JS.mul JS.round].
    assert (Hh : JS.round_half_up (ohq * (inject_Z th / ohq)) = th)
      by (apply round_half_up_inject_Z; field; lra).
    rewrite Hh.
    set (w := JS.round_half_up (owq * (inject_Z th / ohq))).
    assert (X : (owq * (inject_Z th / ohq) == owq * inject_Z th / ohq)%Q)
      by (field; lra).
    assert (Hw1 : 1 <= w).
    { apply round_half_up_ge_1. rewrite X. apply Qle_shift_div_l; lra. }
    assert (Hw2 : w <= tw).
    { apply round_half_up_le. rewrite X. apply Qle_shift_div_r; lra. }
    rewrite !clamp_of_Z by lia. rewrite within_limit by lia.
    exists w, th. split; [reflexivity|]. lia.
  - apply Qltb_ge in E.
    assert (Hc : (inject_Z tw * ohq <= inject_Z th * owq)%Q)
      by (apply Qdiv_le_cross; assumption).
    cbn [JS.mul JS.round].
    assert (Hw : JS.round_half_up (owq * (inject_Z tw / owq)) = tw)
      by (apply round_half_up_inject_Z; field; lra).
    rewrite Hw.
    set (h := JS.round_half_up (ohq * (inject_Z tw / owq))).
    assert (X : (ohq * (inject_Z tw / owq) == ohq * inject_Z tw / owq)%Q)
      by (field; lra).
    assert (Hh1 : 1 <= h).
    { apply round_half_up_ge_1. rewrite X. apply Qle_shift_div_l; lra. }
    assert (Hh2 : h <= th).
    { apply round_half_up_le. rewrite X. apply Qle_shift_div_r; lra. }
    rewrite !clamp_of_Z by lia. rewrite within_limit by lia.
    exists tw, h. split; [reflexivity|]. lia.
Qed.

Lemma calculateDimensions_fits_box_witness :
  exists w h : Z,
    calculateDimensions (JS.of_Z 4000) (JS.of_Z 3000) (JS.of_Z 800)
      (JS.of_Z 800) "px" true
    = (JS.of_Z w, JS.of_Z h)
    /\ 1 <= w <= 800 /\ 1 <= h <= 800 /\ (w = 800 \/ h = 800).
Proof.
  apply (calculateDimensions_fits_box 4000 3000 800 800 "px");
    first [unfold largest_side; lia | discriminate].
Defined.

(** X9.  For a source whose height is a whole number from 1 to 16384 and
    whose width is a whole number up to [largest_side], and a requested
    width that is a whole number from 1 to 16384, in pixels, with no
    height requested and the aspect ratio kept: when the height the
    width calls for rounds to zero (the source is more than [2 *
    targetWidth * originalHeight] wide), [calculateDimensions] does not
    return the minimum of 1 for the height but the original height: the
    zero is taken for a missing value by [newHeight || originalHeight]. *)
Theorem calculateDimensions_zero_side_snaps_back (ow oh tw : Z) :
  ow <= largest_side ->
  1 <= oh <= 16384 -> 1 <= tw <= 16384 -> 2 * tw * oh < ow ->
  calculateDimensions (JS.of_Z ow) (JS.of_Z oh) (JS.of_Z tw) (JS.of_Z 0)
    "px" true
  = (JS.of_Z tw, JS.of_Z oh).
Proof.
  intros _ Hoh Htw Hsmall. unfold calculateDimensions.
  cbn [String.eqb Ascii.eqb Bool.eqb].
  rewrite !truthy_of_Z. cbn [Z.eqb negb andb].
  destruct (Z.eqb_spec tw 0); [lia|]. cbn [negb andb].
  assert (How : (0 < inject_Z ow)%Q)
    by (change 0%Q with (inject_Z 0); rewrite <- Zlt_Qlt; lia).
  assert (HohQ : (0 < inject_Z oh)%Q)
    by (change 0%Q with (inject_Z 0); rewrite <- Zlt_Qlt; lia).
  assert (HtwQ : (0 < inject_Z tw)%Q)
    by (change 0%Q with (inject_Z 0); rewrite <- Zlt_Qlt; lia).
  assert (HsmallQ : (2 * inject_Z tw * inject_Z oh < inject_Z ow)%Q).
  { change 2%Q with (inject_Z 2). rewrite <- !inject_Z_mult.
    now rewrite <- Zlt_Qlt. }
  assert (Har : JS.div (JS.of_Z ow) (JS.of_Z oh)
                = JS.Fin (inject_Z ow / inject_Z oh))
    by (unfold JS.div, JS.of_Z; now rewrite Qis_zero_pos).
  rewrite Har.
  assert (Hq : JS.div (JS.of_Z tw) (JS.Fin (inject_Z ow / inject_Z oh))
               = JS.Fin (inject_Z tw / (inject_Z ow / inject_Z oh))).
  { unfold JS.div, JS.of_Z. rewrite Qis_zero_pos; [reflexivity|].
    apply Qlt_shift_div_l; lra. }
  rewrite Hq. cbn [JS.round].
  rewrite round_half_up_lt_half.
  - change (JS.or (JS.of_Z 0) (JS.of_Z oh)) with (JS.of_Z oh).
    rewrite clamp_of_Z by lia.
    rewrite max_of_Z. replace (Z.max 1 oh) with oh by lia.
    now rewrite within_limit by lia.
  - apply Qle_shift_div_l; [|lra]. apply Qlt_shift_div_l; lra.
  - assert (X : (inject_Z tw / (inject_Z ow / inject_Z oh)
                 == inject_Z tw * inject_Z oh / inject_Z ow)%Q)
      by (field; split; lra).
    rewrite X. apply Qlt_shift_div_r; lra.
Qed.

Lemma calculateDimensions_zero_side_snaps_back_witness :
  calculateDimensions (JS.of_Z 5000) (JS.of_Z 10) (JS.of_Z 100) (JS.of_Z 0)
    "px" true
  = (JS.of_Z 100, JS.of_Z 10).
Proof.
  apply (calculateDimensions_zero_side_snaps_back 5000 10 100);
    unfold largest_side; lia.
Defined.

End MoreDimensions.

(** ** Previews and thumbnails *)

Section Previews.

Import Host ImageProcessor ImageProcessorMore UtilsMore.

Lemma applyExifTransform_draws_nothing (a b : JS.number) (t : Transform) :
  filter (fun op => is_draw_image op = true) (applyExifTransform a b t) = [].
Proof.
  unfold applyExifTransform.
  destruct (negb (rotate t =? 0)), (flip t),
    ((rotate t =? 90) || (rotate t =? 270)); reflexivity.
Qed.

Lemma div_of_Z (a b : Z) :
  1 <= b -> JS.div (JS.of_Z a) (JS.of_Z b) = JS.Fin (inject_Z a / inject_Z b).
Proof.
  intros Hb. unfold JS.div, JS.of_Z. now rewrite Qis_zero_pos by
    now apply inject_Z_pos.
Qed.

(** The scale of a preview and the two sides it gives. *)
Lemma preview_sides (a b M : Z) :
  1 <= a -> 1 <= b -> 1 <= M ->
  let scale :=
    JS.min (JS.min (JS.div (JS.of_Z M) (JS.of_Z a))
                   (JS.div (JS.of_Z M) (JS.of_Z b)))
      (JS.of_Z 1) in
  exists pw ph : Z,
    JS.round (JS.mul (JS.of_Z a) scale) = JS.of_Z pw
    /\ JS.round (JS.mul (JS.of_Z b) scale) = JS.of_Z ph
    /\ 0 <= pw <= a /\ 0 <= ph <= b
    /\ Z.max pw ph = Z.min M (Z.max a b).
Proof.
  intros Ha Hb HM scale. subst scale.
  rewrite !div_of_Z by assumption.
  assert (HaQ := inject_Z_pos a Ha). assert (HbQ := inject_Z_pos b Hb).
  assert (HMQ := inject_Z_pos M HM).
  set (A := inject_Z a) in *. set (B := inject_Z b) in *.
  set (MM := inject_Z M) in *.
  assert (Hs : exists s,
            JS.min (JS.min (JS.Fin (MM / A)) (JS.Fin (MM / B))) (JS.of_Z 1)
            = JS.Fin s
            /\ (s <= MM / A)%Q /\ (s <= MM / B)%Q /\ (s <= 1)%Q
            /\ (s == MM / A \/ s == MM / B \/ s == 1)%Q).
  { unfold JS.min, JS.lt, JS.of_Z. change (inject_Z 1) with 1%Q.
    destruct (JS.Qltb (MM / B) (MM / A)) eqn:E1.
    - apply Qltb_lt in E1.
      destruct (JS.Qltb 1 (MM / B)) eqn:E2;
        [apply Qltb_lt in E2 | apply Qltb_ge in E2]; eexists;
        (split; [reflexivity|]); repeat split;
        first [lra | right; right; apply Qeq_refl
               | right; left; apply Qeq_refl].
    - apply Qltb_ge in E1.
      destruct (JS.Qltb 1 (MM / A)) eqn:E2;
        [apply Qltb_lt in E2 | apply Qltb_ge in E2]; eexists;
        (split; [reflexivity|]); repeat split;
        first [lra | right; right; apply Qeq_refl
               | left; apply Qeq_refl]. }
  destruct Hs as (s & -> & HsA & HsB & Hs1 & Hwhich).
  cbn [JS.mul JS.of_Z JS.round]. fold A B.
  assert (HsA' : (A * s <= MM)%Q).
  { assert (X := Qmult_le_l s (MM / A) A HaQ). apply X in HsA.
    assert (Y : (A * (MM / A) == MM)%Q) by (field; lra). lra. }
  assert (HsB' : (B * s <= MM)%Q).
  { assert (X := Qmult_le_l s (MM / B) B HbQ). apply X in HsB.
    assert (Y : (B * (MM / B) == MM)%Q) by (field; lra). lra. }
  assert (Hs0 : (0 < s)%Q).
  { destruct Hwhich as [E|[E|E]]; rewrite E; try lra;
      apply Qlt_shift_div_l; lra. }
  assert (HAs : (0 <= A * s)%Q) by (apply Qmult_le_0_compat; lra).
  assert (HBs : (0 <= B * s)%Q) by (apply Qmult_le_0_compat; lra).
  assert (HAs1 : (A * s <= A)%Q).
  { assert (X := Qmult_le_l s 1 A HaQ). apply X in Hs1. lra. }
  assert (HBs1 : (B * s <= B)%Q).
  { assert (X := Qmult_le_l s 1 B HbQ). apply X in Hs1. lra. }
  set (pw := JS.round_half_up (A * s)). set (ph := JS.round_half_up (B * s)).
  assert (Hpw : 0 <= pw <= a /\ pw <= M).
  { subst pw. repeat split.
    - now apply round_half_up_nonneg.
    - now apply round_half_up_le.
    - now apply round_half_up_le. }
  assert (Hph : 0 <= ph <= b /\ ph <= M).
  { subst ph. repeat split.
    - now apply round_half_up_nonneg.
    - now apply round_half_up_le.
    - now apply round_half_up_le. }
  exists pw, ph. split; [reflexivity|]. split; [reflexivity|].
  split; [lia|]. split; [lia|].
  destruct Hwhich as [E|[E|E]].
  - assert (Epw : pw = M).
    { subst pw. apply round_half_up_inject_Z. rewrite E. fold MM.
      field. lra. }
    assert (HMa : M <= a).
    { rewrite Zle_Qle. fold MM A. rewrite E in Hs1.
      assert (Y : (MM == MM / A * A)%Q) by (field; lra).
      assert (Z0 : (MM / A * A <= 1 * A)%Q)
        by (apply Qmult_le_compat_r; lra).
      lra. }
    lia.
  - assert (Eph : ph = M).
    { subst ph. apply round_half_up_inject_Z. rewrite E. fold MM.
      field. lra. }
    assert (HMb : M <= b).
    { rewrite Zle_Qle. fold MM B. rewrite E in Hs1.
      assert (Y : (MM == MM / B * B)%Q) by (field; lra).
      assert (Z0 : (MM / B * B <= 1 * B)%Q)
        by (apply Qmult_le_compat_r; lra).
      lra. }
    lia.
  - assert (Epw : pw = a).
    { subst pw. apply round_half_up_inject_Z. rewrite E. fold A. ring. }
    assert (Eph : ph = b).
    { subst ph. apply round_half_up_inject_Z. rewrite E. fold B. ring. }
    lia.
Qed.

Lemma scaled_side (a m b : Z) :
  1 <= b ->
  JS.div (JS.mul (JS.of_Z a) (JS.of_Z m)) (JS.of_Z b)
  = JS.Fin (inject_Z a * inject_Z m / inject_Z b).
Proof.
  intros Hb. unfold JS.div, JS.mul, JS.of_Z.
  now rewrite (Qis_zero_pos (inject_Z b)) by now apply inject_Z_pos.
Qed.

(** X10.  The canvas of [createPreview] for an image of positive integer
    size and a positive integer [maxSize]: its sides are non-negative
    integers, the larger one is the smaller of [maxSize] and the larger
    side of the image (so a preview is never enlarged), and the image is
    drawn on it once, at a size within its natural size. *)
Theorem previewCanvas_bounds (env : Env) (f : File) (img : Image)
    (nw nh M : Z)
    (w w' : World) (c : Canvas) :
  decodeImage env (Blob_of_file f) = Some img ->
  naturalWidth img = JS.of_Z nw -> naturalHeight img = JS.of_Z nh ->
  1 <= nw -> 1 <= nh -> 1 <= M ->
  previewCanvas env f (JS.of_Z M) w = (inr c, w') ->
  exists pw ph dw dh : Z,
    canvas_width c = JS.of_Z pw /\ canvas_height c = JS.of_Z ph
    /\ 0 <= pw /\ 0 <= ph
    /\ Z.max pw ph = Z.min M (Z.max nw nh)
    /\ filter (fun op => is_draw_image op = true) (canvas_ops c)
       = [DrawImage img (JS.of_Z 0) (JS.of_Z 0)
            (Some (JS.of_Z dw, JS.of_Z dh))]
    /\ 0 <= dw <= nw /\ 0 <= dh <= nh.
Proof.
  intros Hdec Hnw Hnh Hw Hh HM.
  unfold previewCanvas.
  unfold mbind at 1, M_bind at 1. rewrite loadImage_run, Hdec.
  unfold mbind, M_bind.
  destruct (getExifOrientation env f _) as [[e|o] w2]; [discriminate|].
  rewrite Hnw, Hnh.
  set (t := transform_of o).
  destruct ((rotate t =? 90) || (rotate t =? 270)).
  - destruct (preview_sides nh nw M Hh Hw HM)
      as (pw & ph & -> & -> & Hpw & Hph & Hmax).
    destruct (negb (context2d env)); [discriminate|].
    intros [= <- _]. exists pw, ph, ph, pw.
    cbn [canvas_width canvas_height canvas_ops draw createCanvas].
    rewrite !filter_app, applyExifTransform_draws_nothing.
    split; [reflexivity|]. split; [reflexivity|].
    split; [lia|]. split; [lia|]. split; [lia|].
    split; [reflexivity | lia].
  - destruct (preview_sides nw nh M Hw Hh HM)
      as (pw & ph & -> & -> & Hpw & Hph & Hmax).
    destruct (negb (context2d env)); [discriminate|].
    intros [= <- _]. exists pw, ph, pw, ph.
    cbn [canvas_width canvas_height canvas_ops draw createCanvas].
    rewrite !filter_app, applyExifTransform_draws_nothing.
    split; [reflexivity|]. split; [reflexivity|].
    split; [lia|]. split; [lia|]. split; [lia|].
    split; [reflexivity | lia].
Qed.

Lemma previewCanvas_bounds_witness :
  exists c w',
    previewCanvas logo_env logo_file (JS.of_Z 2) empty_world = (inr c, w')
    /\ exists pw ph dw dh : Z,
         canvas_width c = JS.of_Z pw /\ canvas_height c = JS.of_Z ph
         /\ 0 <= pw /\ 0 <= ph
         /\ Z.max pw ph = Z.min 2 (Z.max 4 3)
         /\ filter (fun op => is_draw_image op = true) (canvas_ops c)
            = [DrawImage logo_image (JS.of_Z 0) (JS.of_Z 0)
                 (Some (JS.of_Z dw, JS.of_Z dh))]
         /\ 0 <= dw <= 4 /\ 0 <= dh <= 3.
Proof.
  destruct (previewCanvas logo_env logo_file (JS.of_Z 2) empty_world)
    as [[e|c] w'] eqn:Hrun; [vm_compute in Hrun; discriminate|].
  exists c, w'. split; [reflexivity|].
  apply (previewCanvas_bounds logo_env logo_file logo_image 4 3 2
           empty_world w' c);
    first [reflexivity | lia | exact Hrun].
Defined.

(** The side a canvas keeps for a size between 0 and 16384. *)
Lemma canvas_side_floor (default_side : Z) (q : Q) :
  (0 <= q)%Q -> (q <= 16384)%Q ->
  canvas_side default_side (JS.Fin q) = JS.of_Z (Qfloor q).
Proof.
  intros H0 H1. unfold canvas_side.
  assert (Hf0 : 0 <= Qfloor q).
  { change 0 with (Qfloor 0). now apply Qfloor_resp_le. }
  assert (Hf1 : Qfloor q <= 16384).
  { change 16384 with (Qfloor 16384). now apply Qfloor_resp_le. }
  assert (E : Z.quot (Qnum q) (Z.pos (Qden q)) = Qfloor q).
  { destruct q as [a b]. cbn [Qnum Qden Qfloor].
    apply Z.quot_div_nonneg; [|lia]. unfold Qle in H0. cbn in H0. lia. }
  rewrite E, Z.mod_small by lia.
  destruct (Z.leb_spec (Qfloor q) 2147483647); [reflexivity | lia].
Qed.

Lemma Qabs_zero (q : Q) : (q == 0)%Q -> (Qabs q == 0)%Q.
Proof. intros E. rewrite E. reflexivity. Qed.

(** X11.  The thumbnail of an image whose sides are whole numbers from 1
    to [largest_side], for a [maxSize] that is a whole number from 1 to
    16384: [createThumbnail] draws the image once, at a width and height
    that are positive and no larger than the sides of the image; the
    larger one is the smaller of [maxSize] and the larger side of the
    image (a thumbnail is never enlarged), and the other one is within a
    pixel of what the aspect ratio of the image calls for.  The sides of
    the canvas are the whole parts of that width and height, so the
    smaller side of the canvas can be 0. *)
Theorem thumbnailCanvas_bounds (env : Env) (f : File) (img : Image)
    (nw nh M : Z) (w w' : World) (c : Canvas) :
  decodeImage env (Blob_of_file f) = Some img ->
  naturalWidth img = JS.of_Z nw -> naturalHeight img = JS.of_Z nh ->
  1 <= nw <= largest_side -> 1 <= nh <= largest_side -> 1 <= M <= 16384 ->
  thumbnailCanvas env f (JS.of_Z M) w = (inr c, w') ->
  exists tw th : Q,
    canvas_ops c
    = [DrawImage img (JS.of_Z 0) (JS.of_Z 0) (Some (JS.Fin tw, JS.Fin th))]
    /\ canvas_width c = JS.of_Z (Qfloor tw)
    /\ canvas_height c = JS.of_Z (Qfloor th)
    /\ (0 < tw <= inject_Z nw)%Q /\ (0 < th <= inject_Z nh)%Q
    /\ (tw <= inject_Z (Z.min M (Z.max nw nh)))%Q
    /\ (th <= inject_Z (Z.min M (Z.max nw nh)))%Q
    /\ (tw == inject_Z (Z.min M (Z.max nw nh))
        \/ th == inject_Z (Z.min M (Z.max nw nh)))%Q
    /\ (Qabs (tw * inject_Z nh - th * inject_Z nw)
        < inject_Z (Z.max nw nh))%Q.
Proof.
  intros Hdec Hnw Hnh Hw Hh HM.
  unfold thumbnailCanvas, UtilsIO.loadImage, mbind, M_bind, log, mret, M_ret.
  rewrite Hdec. cbv beta iota zeta. rewrite Hnw, Hnh.
  unfold JS.gt. rewrite !lt_of_Z.
  assert (HwQ : (0 < inject_Z nw)%Q) by (apply inject_Z_pos; lia).
  assert (HhQ : (0 < inject_Z nh)%Q) by (apply inject_Z_pos; lia).
  assert (HMQ : (0 < inject_Z M)%Q) by (apply inject_Z_pos; lia).
  assert (HM16 : (inject_Z M <= 16384)%Q)
    by (change 16384%Q with (inject_Z 16384); rewrite <- Zle_Qle; lia).
  assert (Hmax : (0 < inject_Z (Z.max nw nh))%Q) by (apply inject_Z_pos; lia).
  destruct (Z.ltb_spec nh nw) as [Hwide|Hwide].
  - destruct (Z.ltb_spec M nw) as [Hbig|Hbig].
    + rewrite scaled_side by lia. change (JS.of_Z M) with (JS.Fin (inject_Z M)).
      replace (Z.min M (Z.max nw nh)) with M by lia.
      assert (Hlt : (inject_Z nh < inject_Z nw)%Q) by now rewrite <- Zlt_Qlt.
      assert (Hlt' : (inject_Z M < inject_Z nw)%Q) by now rewrite <- Zlt_Qlt.
      set (A := inject_Z nw) in *. set (B := inject_Z nh) in *.
      set (MM := inject_Z M) in *.
      assert (HBM : (0 < B * MM)%Q) by (apply Qmult_lt_0_compat; lra).
      assert (HBM' : (B * MM <= A * MM)%Q)
        by (apply Qmult_le_compat_r; lra).
      assert (HBM'' : (B * MM <= B * A)%Q)
        by (apply Qmult_le_l; lra).
      assert (T0 : (0 < B * MM / A)%Q) by (apply Qlt_shift_div_l; lra).
      assert (T1 : (B * MM / A <= B)%Q) by (apply Qle_shift_div_r; lra).
      assert (T2 : (B * MM / A <= MM)%Q) by (apply Qle_shift_div_r; lra).
      rewrite !canvas_side_floor by lra.
      destruct (negb (context2d env)); [discriminate|].
      intros [= <- _]. cbn [canvas_width canvas_height canvas_ops draw
                             createCanvas app].
      exists MM, (B * MM / A)%Q. split; [reflexivity|].
      split; [reflexivity|]. split; [reflexivity|].
      split; [lra|]. split; [lra|]. split; [lra|]. split; [lra|].
      split; [left; reflexivity|].
      assert (E : (MM * B - B * MM / A * A == 0)%Q) by (field; lra).
      rewrite (Qabs_zero _ E). exact Hmax.
    + replace (Z.min M (Z.max nw nh)) with nw by lia.
      assert (H1 : (inject_Z nw <= inject_Z M)%Q) by now rewrite <- Zle_Qle.
      assert (H2 : (inject_Z nh < inject_Z nw)%Q) by now rewrite <- Zlt_Qlt.
      change (JS.of_Z nw) with (JS.Fin (inject_Z nw)).
      change (JS.of_Z nh) with (JS.Fin (inject_Z nh)).
      rewrite !canvas_side_floor by lra.
      destruct (negb (context2d env)); [discriminate|].
      intros [= <- _]. cbn [canvas_width canvas_height canvas_ops draw
                             createCanvas app].
      exists (inject_Z nw), (inject_Z nh). split; [reflexivity|].
      split; [reflexivity|]. split; [reflexivity|].
      split; [lra|]. split; [lra|]. split; [lra|]. split; [lra|].
      split; [left; reflexivity|].
      assert (E : (inject_Z nw * inject_Z nh - inject_Z nh * inject_Z nw
                   == 0)%Q) by ring.
      rewrite (Qabs_zero _ E). exact Hmax.
  - destruct (Z.ltb_spec M nh) as [Hbig|Hbig].
    + rewrite scaled_side by lia. change (JS.of_Z M) with (JS.Fin (inject_Z M)).
      replace (Z.min M (Z.max nw nh)) with M by lia.
      assert (Hlt : (inject_Z nw <= inject_Z nh)%Q) by now rewrite <- Zle_Qle.
      assert (Hlt' : (inject_Z M < inject_Z nh)%Q) by now rewrite <- Zlt_Qlt.
      set (A := inject_Z nw) in *. set (B := inject_Z nh) in *.
      set (MM := inject_Z M) in *.
      assert (HAM : (0 < A * MM)%Q) by (apply Qmult_lt_0_compat; lra).
      assert (HAM' : (A * MM <= B * MM)%Q)
        by (apply Qmult_le_compat_r; lra).
      assert (HAM'' : (A * MM <= A * B)%Q)
        by (apply Qmult_le_l; lra).
      assert (T0 : (0 < A * MM / B)%Q) by (apply Qlt_shift_div_l; lra).
      assert (T1 : (A * MM / B <= A)%Q) by (apply Qle_shift_div_r; lra).
      assert (T2 : (A * MM / B <= MM)%Q) by (apply Qle_shift_div_r; lra).
      rewrite !canvas_side_floor by lra.
      destruct (negb (context2d env)); [discriminate|].
      intros [= <- _]. cbn [canvas_width canvas_height canvas_ops draw
                             createCanvas app].
      exists (A * MM / B)%Q, MM. split; [reflexivity|].
      split; [reflexivity|]. split; [reflexivity|].
      split; [lra|]. split; [lra|]. split; [lra|]. split; [lra|].
      split; [right; reflexivity|].
      assert (E : (A * MM / B * B - MM * A == 0)%Q) by (field; lra).
      rewrite (Qabs_zero _ E). exact Hmax.
    + replace (Z.min M (Z.max nw nh)) with nh by lia.
      assert (H1 : (inject_Z nh <= inject_Z M)%Q) by now rewrite <- Zle_Qle.
      assert (H2 : (inject_Z nw <= inject_Z nh)%Q) by now rewrite <- Zle_Qle.
      change (JS.of_Z nw) with (JS.Fin (inject_Z nw)).
      change (JS.of_Z nh) with (JS.Fin (inject_Z nh)).
      rewrite !canvas_side_floor by lra.
      destruct (negb (context2d env)); [discriminate|].
      intros [= <- _]. cbn [canvas_width canvas_height canvas_ops draw
                             createCanvas app].
      exists (inject_Z nw), (inject_Z nh). split; [reflexivity|].
      split; [reflexivity|]. split; [reflexivity|].
      split; [lra|]. split; [lra|]. split; [lra|]. split; [lra|].
      split; [right; reflexivity|].
      assert (E : (inject_Z nw * inject_Z nh - inject_Z nh * inject_Z nw
                   == 0)%Q) by ring.
      rewrite (Qabs_zero _ E). exact Hmax.
Qed.

Lemma thumbnailCanvas_bounds_witness :
  exists c w',
    thumbnailCanvas logo_env logo_file (JS.of_Z 2) empty_world = (inr c, w')
    /\ exists tw th : Q,
         canvas_ops c
         = [DrawImage logo_image (JS.of_Z 0) (JS.of_Z 0)
              (Some (JS.Fin tw, JS.Fin th))]
         /\ canvas_width c = JS.of_Z (Qfloor tw)
         /\ canvas_height c = JS.of_Z (Qfloor th)
         /\ (0 < tw <= inject_Z 4)%Q /\ (0 < th <= inject_Z 3)%Q
         /\ (tw <= inject_Z (Z.min 2 (Z.max 4 3)))%Q
         /\ (th <= inject_Z (Z.min 2 (Z.max 4 3)))%Q
         /\ (tw == inject_Z (Z.min 2 (Z.max 4 3))
             \/ th == inject_Z (Z.min 2 (Z.max 4 3)))%Q
         /\ (Qabs (tw * inject_Z 3 - th * inject_Z 4)
             < inject_Z (Z.max 4 3))%Q.
Proof.
  destruct (thumbnailCanvas logo_env logo_file (JS.of_Z 2) empty_world)
    as [[e|c] w'] eqn:Hrun; [vm_compute in Hrun; discriminate|].
  exists c, w'. split; [reflexivity|].
  apply (thumbnailCanvas_bounds logo_env logo_file logo_image 4 3 2
           empty_world w' c);
    first [reflexivity | unfold largest_side; lia | exact Hrun].
Defined.

End Previews.

(** ** The queue of files *)

Section Queue.

Import DownloadManager StateManager StateManagerMore.

Lemma set_files_same (s : State) : set_files s (files s) = s.
Proof. now destruct s. Qed.

Lemma update_keeps_ids (i : string) (u : Updates) (l : list FileEntry) :
  map id (map (fun f => if String.eqb (id f) i then spread f u else f) l)
  = map id l.
Proof.
  induction l as [|g l IH]; [reflexivity|].
  cbn [map]. rewrite IH. f_equal. now destruct (String.eqb (id g) i).
Qed.

(** X12.  Looking a file up after [addFile]: an entry that was already
    in the queue under the id is still the one found, also when the new
    entry has the same id; otherwise the new entry is found under its id,
    pending and without result or error, and no other id finds it. *)
Theorem getFile_addFile (i j : string) (f : File) (thumb : option string)
    (size : N) (name type : string) (s : State) :
  getFile i (addFile j f thumb size name type s)
  = match getFile i s with
    | Some entry => Some entry
    | None =>
        if String.eqb j i
        then Some (mkFileEntry j f thumb size name type pending None None)
        else None
    end.
Proof.
  unfold getFile, addFile. cbn [files set_files].
  induction (files s) as [|g l IH]; [reflexivity|].
  cbn [app find]. destruct (String.eqb (id g) i); [reflexivity | exact IH].
Qed.

(** X13.  After [removeFile] no entry is found under the removed id,
    whether it was there once, several times or not at all; every other
    id finds what it found before; and removing an id that is not in the
    queue leaves the state as it was. *)
Theorem getFile_removeFile (i j : string) (s : State) :
  getFile i (removeFile j s)
  = (if String.eqb i j then None else getFile i s)
  /\ (getFile j s = None -> removeFile j s = s).
Proof.
  unfold getFile, removeFile. cbn [files set_files]. split.
  - induction (files s) as [|g l IH].
    + cbn. now destruct (String.eqb i j).
    + cbn [List.filter find].
      destruct (String.eqb_spec (id g) j) as [E|E]; cbn [negb].
      * rewrite IH. destruct (String.eqb_spec i j) as [->|Hij];
          [reflexivity|].
        destruct (String.eqb_spec (id g) i); [congruence | reflexivity].
      * cbn [find]. destruct (String.eqb_spec (id g) i) as [E'|E'].
        -- subst i. destruct (String.eqb_spec (id g) j); [congruence|].
           reflexivity.
        -- exact IH.
  - intros Hnone.
    assert (Hl : forall l,
              find (fun f => String.eqb (id f) j) l = None ->
              List.filter (fun f => negb (String.eqb (id f) j)) l = l).
    { induction l as [|g l IH]; [reflexivity|]. cbn [find List.filter].
      destruct (String.eqb (id g) j); [discriminate|]. cbn [negb].
      intros H. f_equal. now apply IH. }
    rewrite Hl by assumption. apply set_files_same.
Qed.

(** X14.  After [updateFile] the entry found under the updated id is
    the former one with the updates applied, and every other id finds
    what it found before; the queue keeps its ids, in order; and
    updating an id that is not in the queue leaves the state as it
    was. *)
Theorem getFile_updateFile (i j : string) (u : Updates) (s : State) :
  getFile i (updateFile j u s)
  = (if String.eqb i j then option_map (fun f => spread f u) (getFile i s)
     else getFile i s)
  /\ map id (files (updateFile j u s)) = map id (files s)
  /\ (getFile j s = None -> updateFile j u s = s).
Proof.
  unfold getFile, updateFile. cbn [files set_files]. split; [|split].
  - induction (files s) as [|g l IH].
    + cbn. now destruct (String.eqb i j).
    + cbn [map find].
      destruct (String.eqb_spec (id g) j) as [E|E].
      * change (id (spread g u)) with (id g).
        destruct (String.eqb_spec (id g) i) as [E'|E'].
        -- subst. now rewrite String.eqb_refl.
        -- exact IH.
      * destruct (String.eqb_spec (id g) i) as [E'|E'].
        -- subst i. destruct (String.eqb_spec (id g) j); [congruence|].
           reflexivity.
        -- exact IH.
  - induction (files s) as [|g l IH]; [reflexivity|].
    cbn [map]. rewrite IH. f_equal.
    now destruct (String.eqb (id g) j).
  - intros Hnone.
    assert (Hl : forall l,
              find (fun f => String.eqb (id f) j) l = None ->
              map (fun f => if String.eqb (id f) j then spread f u else f) l
              = l).
    { induction l as [|g l IH]; [reflexivity|]. cbn [find map].
      destruct (String.eqb (id g) j); [discriminate|].
      intros H. f_equal. now apply IH. }
    rewrite Hl by assumption. apply set_files_same.
Qed.

End Queue.

(** ** Picking files *)

Section Loading.

Import Host ImageLoader.

Variable env : Env.
Variable toDataURL : Canvas -> string -> option JS.number -> string.
Variable formatFileSize : N -> string.
Variable generateId : nat -> string.

Lemma createThumbnail_host_only (f : File) (maxSize : JS.number) :
  host_only (UtilsMore.createThumbnail env toDataURL f maxSize).
Proof.
  unfold UtilsMore.createThumbnail, UtilsMore.thumbnailCanvas,
    UtilsIO.loadImage.
  host_only_tac.
Qed.

Lemma validFiles_accepted (files : list File) :
  validFiles formatFileSize files = List.filter accepted files.
Proof.
  unfold validFiles. apply List.filter_ext. intros f.
  unfold Utils.validateFile, accepted.
  rewrite N.leb_antisym.
  destruct (Utils.MAX_FILE_SIZE <? file_size f)%N; [reflexivity|].
  cbn [negb andb].
  now destruct (Utils.array_includes Utils.ALLOWED_TYPES (file_type f)).
Qed.

Lemma add_files_spec (l : list File) :
  forall (k : nat) (w : World),
    exists evs added,
      add_files env toDataURL generateId k l w
      = (inr tt,
         mkWorld (trace w ++ evs)
           (StateManager.set_files (state w)
              (StateManager.files (state w) ++ added))
           (processedResults w))
      /\ map StateManager.file added = l
      /\ map StateManager.id added = map generateId (seq k (length l))
      /\ Forall fresh_entry added.
Proof.
  induction l as [|f l IH]; intros k w.
  - exists [], []. cbn. rewrite !app_nil_r.
    destruct w as [tr s rs]. destruct s. cbn. repeat split. constructor.
  - cbn [add_files].
    destruct (createThumbnail_host_only f (JS.of_Z 100)) as (r & evs1 & Hrun).
    set (entry := fun thumb =>
           StateManager.mkFileEntry (generateId k) f thumb (file_size f)
             (file_name f) (file_type f) StateManager.pending None None).
    assert (Hstep : exists thumb,
              try_catch
                (thumbnail ← UtilsMore.createThumbnail env toDataURL f
                               (JS.of_Z 100);
                 modify (StateManagerMore.addFile (generateId k) f
                           (Some thumbnail) (file_size f) (file_name f)
                           (file_type f)))
                (fun _ =>
                   modify (StateManagerMore.addFile (generateId k) f None
                             (file_size f) (file_name f) (file_type f))) w
              = (inr tt,
                 mkWorld (trace w ++ evs1)
                   (StateManager.set_files (state w)
                      (StateManager.files (state w) ++ [entry thumb]))
                   (processedResults w))).
    { unfold try_catch, mbind, M_bind. rewrite Hrun.
      destruct r as [e|thumb]; eexists; reflexivity. }
    destruct Hstep as (thumb & Hstep).
    rewrite (bind_returns _ _ _ _ _ Hstep).
    destruct (IH (S k) (mkWorld (trace w ++ evs1)
                          (StateManager.set_files (state w)
                             (StateManager.files (state w) ++ [entry thumb]))
                          (processedResults w)))
      as (evs2 & added & -> & Hfiles & Hids & Hfresh).
    exists (evs1 ++ evs2), (entry thumb :: added).
    cbn [trace state processedResults StateManager.files
         StateManager.set_files].
    rewrite <- !app_assoc. cbn [app].
    split; [reflexivity|]. cbn [map length seq].
    rewrite Hfiles, Hids.
    split; [reflexivity|]. split; [reflexivity|].
    constructor; [|assumption]. now repeat split.
Qed.

(** X15.  [handleFiles] never throws.  It appends to the queue one entry
    for each file that [validateFile] accepts (at most 10 MB, of an
    allowed type), in the order of the selection, and none for the
    others; each new entry is pending, has no result and no error,
    carries the size, name and type of its file, and has the id drawn
    for it; a thumbnail that cannot be made does not keep a file out.
    The entries already queued, the rest of the state and the stored
    results are left as they were. *)
Theorem handleFiles_queues_accepted (files : list File) (w : World) :
  exists evs added,
    handleFiles env toDataURL formatFileSize generateId files w
    = (inr tt,
       mkWorld (trace w ++ evs)
         (StateManager.set_files (state w)
            (StateManager.files (state w) ++ added))
         (processedResults w))
    /\ map StateManager.file added = List.filter accepted files
    /\ map StateManager.id added
       = map generateId (seq 0 (length added))
    /\ Forall fresh_entry added.
Proof.
  unfold handleFiles. rewrite validFiles_accepted.
  destruct (add_files_spec (List.filter accepted files) 0 w)
    as (evs & added & Hrun & Hfiles & Hids & Hfresh).
  exists evs, added. split; [exact Hrun|]. split; [exact Hfiles|].
  split; [|exact Hfresh].
  rewrite Hids, <- Hfiles, length_map. reflexivity.
Qed.

End Loading.

(** ** What [processImage] does *)

Section ProcessImage.

Import Host ImageProcessor.

(** X16.  [processImage] succeeds exactly when the file decodes and a 2D
    context is available, and then the canvas has the size it reports.
    It fails with [FILE_CORRUPTED] when the file does not decode and
    with [CANVAS_UNSUPPORTED] when it does and there is no context; a
    missing or failing EXIF reader never makes it fail. *)
Theorem processImage_outcome (env : Env) (f : File) (s : ImageSettings)
    (w : World) :
  match fst (processImage env f s w) with
  | inr p =>
      decodeImage env (Blob_of_file f) <> None
      /\ context2d env = true
      /\ canvas_width (canvas p) = out_width p
      /\ canvas_height (canvas p) = out_height p
  | inl e =>
      (decodeImage env (Blob_of_file f) = None
       /\ e = ImageOptimizerError "Failed to load image" FILE_CORRUPTED)
      \/ (decodeImage env (Blob_of_file f) <> None
          /\ context2d env = false
          /\ e = ImageOptimizerError "Canvas context unavailable"
                   CANVAS_UNSUPPORTED)
  end.
Proof.
  unfold processImage, try_catch.
  unfold mbind at 1, M_bind at 1. rewrite loadImage_run.
  destruct (decodeImage env (Blob_of_file f)) as [img|] eqn:Hdec.
  2:{ cbn. left. now split. }
  unfold mbind, M_bind.
  destruct (getExifOrientation_returns env f
              (extend w [EvDecode (Blob_of_file f)])) as (o & w2 & ->).
  destruct (if _ : bool then _ else _) as [tw th].
  destruct (context2d env); cbn.
  - repeat split; congruence.
  - right. repeat split; congruence.
Qed.

(** X17.  Without a resize (resizing off, or the original dimensions
    kept), a successful [processImage] resamples nothing: the image is
    drawn once, at its natural width and height, on a canvas whose size
    is the natural size, width and height exchanged exactly when the
    transform of the orientation that [getExifOrientation] resolves
    rotates by 90 or 270 degrees. *)
Theorem processImage_natural_size (env : Env) (f : File)
    (s : ImageSettings) (w w' : World) (p : Processed) :
  resizeEnabled s && negb (keepOriginalDimensions s) = false ->
  processImage env f s w = (inr p, w') ->
  exists img code,
    decodeImage env (Blob_of_file f) = Some img
    /\ fst (getExifOrientation env f w) = inr code
    /\ filter (fun op => is_draw_image op = true) (canvas_ops (canvas p))
       = [DrawImage img (JS.of_Z 0) (JS.of_Z 0)
            (Some (naturalWidth img, naturalHeight img))]
    /\ (out_width p, out_height p)
       = (if (rotate (transform_of code) =? 90)
             || (rotate (transform_of code) =? 270)
          then (naturalHeight img, naturalWidth img)
          else (naturalWidth img, naturalHeight img))
    /\ canvas_width (canvas p) = out_width p
    /\ canvas_height (canvas p) = out_height p.
Proof.
  intros Hkeep Hrun.
  destruct (processImage_applies_orientation env f s w w' p Hrun)
    as (img & code & Hdec & Hcode & Hcanvas & Horig & Hsame).
  specialize (Hsame Hkeep). rewrite Horig in Hsame.
  exists img, code. split; [exact Hdec|]. split; [exact Hcode|].
  rewrite quarter_turn_rotate, Hcanvas.
  cbn [canvas_width canvas_height canvas_ops].
  split; [|split; [exact Hsame | split; reflexivity]].
  unfold oriented_drawing.
  rewrite !filter_app, applyExifTransform_draws_nothing.
  destruct (quarter_turn code); injection Hsame as -> ->; reflexivity.
Qed.

Lemma processImage_natural_size_witness :
  exists p w',
    processImage logo_env logo_file no_resize empty_world = (inr p, w')
    /\ exists img code,
         decodeImage logo_env (Blob_of_file logo_file) = Some img
         /\ fst (getExifOrientation logo_env logo_file empty_world)
            = inr code
         /\ filter (fun op => is_draw_image op = true)
              (canvas_ops (canvas p))
            = [DrawImage img (JS.of_Z 0) (JS.of_Z 0)
                 (Some (naturalWidth img, naturalHeight img))]
         /\ (out_width p, out_height p)
            = (if (rotate (transform_of code) =? 90)
                  || (rotate (transform_of code) =? 270)
               then (naturalHeight img, naturalWidth img)
               else (naturalWidth img, naturalHeight img))
         /\ canvas_width (canvas p) = out_width p
         /\ canvas_height (canvas p) = out_height p.
Proof.
  destruct (processImage logo_env logo_file no_resize empty_world)
    as [[e|p] w'] eqn:Hrun; [vm_compute in Hrun; discriminate|].
  exists p, w'. split; [reflexivity|].
  apply (processImage_natural_size logo_env logo_file no_resize empty_world
           w' p); [reflexivity | exact Hrun].
Defined.

Lemma processImage_never_fills_witness :
  exists p w',
    processImage logo_env logo_file no_resize empty_world = (inr p, w')
    /\ no_white_fill (canvas p) = true.
Proof.
  destruct (processImage logo_env logo_file no_resize empty_world)
    as [[e|p] w'] eqn:Hrun; [vm_compute in Hrun; discriminate|].
  exists p, w'. split; [reflexivity|].
  exact (processImage_never_fills logo_env logo_file no_resize empty_world
           w' p Hrun).
Defined.

End ProcessImage.

(** ** What [convertFormat] does *)

Section Conversion.

Import Host DownloadManager FormatConverter.

(** X19.  [convertFormat] on a blob that is not yet of the target type
    decodes the blob once and encodes at most once.  When it succeeds,
    the result is what [toBlob] made, for the target MIME type, from a
    canvas of the natural size of the decoded image.  When it fails, the
    error is an [ImageOptimizerError]: [FILE_CORRUPTED] if the blob does
    not decode, [CANVAS_UNSUPPORTED] if there is no 2D context, both
    before any encode, and [CONVERSION_FAILED] if the encoder yields
    nothing. *)
Theorem convertFormat_outcome (env : Env) (blob : Blob)
    (targetFormat : string) (quality : JS.number) (w : World) :
  blob_type blob <> Utils.getMimeType targetFormat ->
  exists r evs,
    convertFormat env blob targetFormat quality w = (r, extend w evs)
    /\ match r with
       | inr out =>
           exists img c q,
             decodeImage env blob = Some img
             /\ context2d env = true
             /\ canvas_width c = naturalWidth img
             /\ canvas_height c = naturalHeight img
             /\ toBlob env c (Utils.getMimeType targetFormat) q = Some out
             /\ evs = [EvDecode blob;
                       EvToBlob c (Utils.getMimeType targetFormat) q]
       | inl e =>
           (decodeImage env blob = None
            /\ e = ImageOptimizerError "Failed to load image for conversion"
                     FILE_CORRUPTED
            /\ evs = [EvDecode blob])
           \/ (context2d env = false
               /\ e = ImageOptimizerError "Canvas not supported"
                        CANVAS_UNSUPPORTED
               /\ evs = [EvDecode blob])
           \/ (exists c q,
                 toBlob env c (Utils.getMimeType targetFormat) q = None
                 /\ e = ImageOptimizerError
                          ("Failed to convert to " ++ targetFormat)
                          CONVERSION_FAILED
                 /\ evs = [EvDecode blob;
                           EvToBlob c (Utils.getMimeType targetFormat) q])
       end.
Proof.
  intros Hne. unfold convertFormat.
  destruct (String.eqb_spec (blob_type blob) (Utils.getMimeType targetFormat))
    as [E|_]; [contradiction|].
  unfold createImageFromBlob.
  unfold try_catch, mbind, M_bind, log, throw, mret, M_ret.
  cbv beta iota zeta.
  destruct (decodeImage env blob) as [img|]; cbv beta iota zeta;
    cbn [is_ImageOptimizerError].
  2:{ do 2 eexists. split; [reflexivity|]. left. repeat split. }
  destruct (context2d env); cbn [negb]; cbv beta iota zeta;
    cbn [is_ImageOptimizerError].
  2:{ do 2 eexists. split; [reflexivity|]. right. left. repeat split. }
  match goal with
  | |- context [toBlob env ?c' ?m' ?q'] =>
      destruct (toBlob env c' m' q') as [out|] eqn:Hout
  end; cbv beta iota zeta; cbn [is_ImageOptimizerError].
  - do 2 eexists. split; [unfold extend; cbn; rewrite <- app_assoc;
                          reflexivity|].
    do 3 eexists. split; [reflexivity|]. split; [reflexivity|].
    split; [|split; [|split; [exact Hout | reflexivity]]].
    + now destruct (String.eqb targetFormat "jpeg"
                    || String.eqb targetFormat "jpg").
    + now destruct (String.eqb targetFormat "jpeg"
                    || String.eqb targetFormat "jpg").
  - do 2 eexists. split; [unfold extend; cbn; rewrite <- app_assoc;
                          reflexivity|].
    right. right. do 2 eexists. split; [exact Hout|]. split; reflexivity.
Qed.

Lemma convertFormat_outcome_witness :
  exists r evs,
    convertFormat logo_env png_blob "jpeg" (JS.of_Z 80) empty_world
    = (r, extend empty_world evs)
    /\ match r with
       | inr out =>
           exists img c q,
             decodeImage logo_env png_blob = Some img
             /\ context2d logo_env = true
             /\ canvas_width c = naturalWidth img
             /\ canvas_height c = naturalHeight img
             /\ toBlob logo_env c (Utils.getMimeType "jpeg") q = Some out
             /\ evs = [EvDecode png_blob;
                       EvToBlob c (Utils.getMimeType "jpeg") q]
       | inl e =>
           (decodeImage logo_env png_blob = None
            /\ e = ImageOptimizerError "Failed to load image for conversion"
                     FILE_CORRUPTED
            /\ evs = [EvDecode png_blob])
           \/ (context2d logo_env = false
               /\ e = ImageOptimizerError "Canvas not supported"
                        CANVAS_UNSUPPORTED
               /\ evs = [EvDecode png_blob])
           \/ (exists c q,
                 toBlob logo_env c (Utils.getMimeType "jpeg") q = None
                 /\ e = ImageOptimizerError
                          ("Failed to convert to " ++ "jpeg")
                          CONVERSION_FAILED
                 /\ evs = [EvDecode png_blob;
                           EvToBlob c (Utils.getMimeType "jpeg") q])
       end.
Proof.
  apply (convertFormat_outcome logo_env png_blob "jpeg" (JS.of_Z 80)
           empty_world).
  intros H. vm_compute in H. discriminate.
Defined.

Lemma convertFormat_jpeg_fills_white_witness :
  exists c mime q,
    In (EvToBlob c mime q)
       (trace (snd (convertFormat logo_env png_blob "jpeg" (JS.of_Z 80)
                      (mkWorld [] (state empty_world)
                         (processedResults empty_world)))))
    /\ exists img,
         decodeImage logo_env png_blob = Some img
         /\ c = mkCanvas (naturalWidth img) (naturalHeight img)
                  [FillRect "#FFFFFF" (JS.of_Z 0) (JS.of_Z 0)
                     (naturalWidth img) (naturalHeight img);
                   DrawImage img (JS.of_Z 0) (JS.of_Z 0) None]
         /\ mime = "image/jpeg"%string
         /\ white_before_image (canvas_ops c) = true.
Proof.
  assert (H : exists c mime q,
            In (EvToBlob c mime q)
               (trace (snd (convertFormat logo_env png_blob "jpeg"
                              (JS.of_Z 80)
                              (mkWorld [] (state empty_world)
                                 (processedResults empty_world))))))
    by (do 3 eexists; vm_compute; right; left; reflexivity).
  destruct H as (c & mime & q & Hin). exists c, mime, q.
  split; [exact Hin|].
  apply (convertFormat_jpeg_fills_white logo_env png_blob "jpeg" (JS.of_Z 80)
           empty_world c mime q); [left; reflexivity | exact Hin].
Defined.

Lemma convertFormat_result_type (env : Env) (blob out : Blob)
    (targetFormat : string) (quality : JS.number) (w w' : World) :
  honest_encoder env ->
  convertFormat env blob targetFormat quality w = (inr out, w') ->
  blob_type out = Utils.getMimeType targetFormat.
Proof.
  intros Hhonest. unfold convertFormat.
  destruct (String.eqb_spec (blob_type blob) (Utils.getMimeType targetFormat))
    as [E|_]; [now intros [= <- _]|].
  unfold createImageFromBlob.
  unfold try_catch, mbind, M_bind, log, throw, mret, M_ret.
  cbv beta iota zeta.
  destruct (decodeImage env blob) as [img|]; cbv beta iota zeta;
    cbn [is_ImageOptimizerError]; [|discriminate].
  destruct (negb (context2d env)); cbv beta iota zeta;
    cbn [is_ImageOptimizerError]; [discriminate|].
  match goal with
  | |- context [toBlob env ?c' ?m' ?q'] =>
      destruct (toBlob env c' m' q') as [b|] eqn:Hout
  end; cbv beta iota zeta; cbn [is_ImageOptimizerError]; [|discriminate].
  intros [= <- _]. exact (Hhonest _ _ _ _ Hout).
Qed.

End Conversion.

(** ** What [compressImage] does *)

Section Compression.

Import Host ImageCompressor ImageCompressorMore.

(** [Math.max(0.1, Math.min(1, quality / 100))] is a quality on the
    encoder's scale, unless [quality] is [NaN]. *)
Lemma normalized_quality (quality : JS.number) :
  quality <> JS.NaN ->
  encoder_quality
    (JS.max (JS.Fin (1 # 10))
       (JS.min (JS.of_Z 1) (JS.div quality (JS.of_Z 100)))).
Proof.
  intros Hq. destruct quality as [|s|q]; [contradiction| |].
  - destruct s; cbn; eexists; (split; [reflexivity|]); split; discriminate.
  - unfold JS.div, JS.of_Z. rewrite Qis_zero_inject_Z. cbn [Z.eqb].
    unfold JS.min, JS.max, JS.lt.
    destruct (JS.Qltb (q / inject_Z 100) (inject_Z 1)) eqn:E1.
    + destruct (JS.Qltb (1 # 10) (q / inject_Z 100)) eqn:E2;
        eexists; (split; [reflexivity|]).
      * apply Qltb_lt in E1, E2. change (inject_Z 1) with 1%Q in E1. lra.
      * split; discriminate.
    + destruct (JS.Qltb (1 # 10) (inject_Z 1)) eqn:E2;
        eexists; (split; [reflexivity|]); split; discriminate.
Qed.

(** X21.  [compressImage] calls the compression library at most twice,
    each time on the content it was given, with [alwaysKeepResolution]
    set and, unless the quality is [NaN], an initial quality between 0.1
    and 1.  It throws [LIBRARY_LOAD_FAILED], without any call, when the
    library cannot be loaded; otherwise it returns the blob of its last
    call, or throws [COMPRESSION_FAILED] with the message of the second
    failure after two failed calls, the second of them on the original
    input and without a web worker. *)
Theorem compressImage_attempts (env : Env) (input : CompressionInput)
    (options : Options) (w : World) :
  exists r evs,
    compressImage env input options w = (r, extend w evs)
    /\ (length evs <= 2)%nat
    /\ (forall e, In e evs ->
          exists i o,
            e = EvCompress i o
            /\ input_blob i = input_blob input
            /\ alwaysKeepResolution o = true
            /\ (quality options <> JS.NaN ->
                encoder_quality (initialQuality o)))
    /\ match r with
       | inl e =>
           (imageCompression env = None
            /\ e = ImageOptimizerError "Failed to load compression library"
                     LIBRARY_LOAD_FAILED
            /\ evs = [])
           \/ (exists lib i1 o1 m1 o2 m2,
                 imageCompression env = Some lib
                 /\ evs = [EvCompress i1 o1; EvCompress input o2]
                 /\ lib i1 o1 = inl m1 /\ lib input o2 = inl m2
                 /\ useWebWorker o2 = false
                 /\ e = ImageOptimizerError ("Compression failed: " ++ m2)
                          COMPRESSION_FAILED)
       | inr blob =>
           exists lib i o,
             imageCompression env = Some lib
             /\ last evs = Some (EvCompress i o)
             /\ lib i o = inr blob
       end.
Proof.
  unfold compressImage, initLibrary.
  destruct (imageCompression env) as [lib|].
  2:{ exists (inl (ImageOptimizerError "Failed to load compression library"
                     LIBRARY_LOAD_FAILED)), [].
      rewrite extend_nil. split; [reflexivity|]. split; [cbn; lia|].
      split; [intros e []|]. left. repeat split. }
  unfold mbind at 1, M_bind at 1, mret, M_ret. cbv zeta.
  assert (Hi1 : input_blob
                  match input with
                  | InBlob b =>
                      InFile (File_of_blob b "image.jpg" (blob_type b))
                  | InFile f => InFile f
                  end = input_blob input).
  { destruct input as [b|f]; [|reflexivity]. now destruct b. }
  set (i1 := match input with InBlob b => _ | InFile f => InFile f end) in *.
  clearbody i1.
  unfold try_catch, call_library, mbind, M_bind, log, throw, mret, M_ret.
  cbv beta iota zeta.
  assert (Hev : forall i u m x y,
            input_blob i = input_blob input ->
            exists i' o,
              EvCompress i
                (mkCompressionOptions m x u
                   (JS.max (JS.Fin (1 # 10))
                      (JS.min (JS.of_Z 1)
                         (JS.div (quality options) (JS.of_Z 100)))) y)
              = EvCompress i' o
              /\ input_blob i' = input_blob input
              /\ alwaysKeepResolution o = y
              /\ (quality options <> JS.NaN ->
                  encoder_quality (initialQuality o))).
  { intros i u m x y Hi. do 2 eexists. split; [reflexivity|].
    split; [exact Hi|]. split; [reflexivity|]. apply normalized_quality. }
  match goal with
  | |- context [lib i1 ?o] => destruct (lib i1 o) as [m1|b1] eqn:H1
  end.
  - match goal with
    | |- context [lib input ?o] => destruct (lib input o) as [m2|b2] eqn:H2
    end.
    + do 2 eexists. split; [unfold extend; cbn; rewrite <- app_assoc;
                            reflexivity|].
      split; [cbn; lia|]. split.
      * intros e [<-|[<-|[]]]; now apply Hev.
      * right. do 6 eexists. split; [reflexivity|].
        split; [reflexivity|]. split; [exact H1|]. split; [exact H2|].
        split; reflexivity.
    + do 2 eexists. split; [unfold extend; cbn; rewrite <- app_assoc;
                            reflexivity|].
      split; [cbn; lia|]. split.
      * intros e [<-|[<-|[]]]; now apply Hev.
      * do 3 eexists. split; [reflexivity|]. split; [reflexivity|].
        exact H2.
  - do 2 eexists. split; [reflexivity|].
    split; [cbn; lia|]. split.
    + intros e [<-|[]]. now apply Hev.
    + do 3 eexists. split; [reflexivity|]. split; [reflexivity|]. exact H1.
Qed.

(** X22.  [isCompressionAvailable] never throws and makes no call; it
    answers [false] exactly when [compressImage], whatever it is given,
    fails with [LIBRARY_LOAD_FAILED]. *)
Theorem isCompressionAvailable_predicts (env : Env)
    (input : CompressionInput) (options : Options) (w : World) :
  exists available,
    isCompressionAvailable env w = (inr available, w)
    /\ (available = false
        <-> thrown_code (fst (compressImage env input options w))
            = Some LIBRARY_LOAD_FAILED).
Proof.
  unfold isCompressionAvailable, compressImage, initLibrary.
  destruct (imageCompression env) as [lib|].
  - exists true. split; [reflexivity|].
    unfold try_catch, call_library, mbind, M_bind, log, throw, mret, M_ret.
    cbv beta iota zeta.
    match goal with
    | |- context [lib ?i ?o] => destruct (lib i o) as [m1|b1]
    end; [|split; discriminate].
    match goal with
    | |- context [lib input ?o] => destruct (lib input o) as [m2|b2]
    end; split; discriminate.
  - exists false. split; [reflexivity|]. split; reflexivity.
Qed.

End Compression.

(** ** The blob a file ends up with *)

Section OutputType.

Import Host DownloadManager StateManager App.

(** X23.  With an encoder that gives every blob the type it was asked
    for, the blob [processSingleFile] returns has the MIME type of the
    target format, whatever type the compression library answered with;
    the result names the target format, the size of that blob, and the
    name and size of the original. *)
Theorem processSingleFile_output_type (env : Env) (fd : FileEntry)
    (settings : Settings) (w w' : World) (r : ResultObject) :
  honest_encoder env ->
  processSingleFile env fd settings w = (inr r, w') ->
  blob_type (res_blob r)
  = Utils.getMimeType (Str.or (format settings) "webp")
  /\ res_format r = Str.or (format settings) "webp"
  /\ res_newSize r = blob_size (res_blob r)
  /\ res_originalName r = originalName fd
  /\ res_originalSize r = originalSize fd.
Proof.
  intros Hhonest. unfold processSingleFile.
  unfold mbind at 1, M_bind at 1.
  destruct (ImageProcessor.processImage env _ _ w) as [[e|p] w1];
    [discriminate|].
  unfold mbind at 1, M_bind at 1.
  destruct (canvasToBlob env _ _ _ w1) as [[e|b1] w2]; [discriminate|].
  unfold mbind at 1, M_bind at 1, try_catch.
  unfold mbind at 1, M_bind at 1.
  set (mime := Utils.getMimeType (Str.or (format settings) "webp")) in *.
  assert (Hfinal : forall (b : Blob) (w3 : World),
            ((if negb (String.eqb (blob_type b) mime)
              then FormatConverter.convertFormat env b
                     (Str.or (format settings) "webp") (quality settings)
              else mret b)
             ≫= (fun blob =>
                   mret (createResultObject blob (originalName fd)
                           (originalSize fd)
                           (Str.or (format settings) "webp")
                           (thumbnail fd)))) w3
            = (inr r, w') ->
            blob_type (res_blob r) = mime
            /\ res_format r = Str.or (format settings) "webp"
            /\ res_newSize r = blob_size (res_blob r)
            /\ res_originalName r = originalName fd
            /\ res_originalSize r = originalSize fd).
  { intros b w3. unfold mbind, M_bind.
    destruct (String.eqb_spec (blob_type b) mime) as [E|E]; cbn [negb].
    - intros [= <- _]. cbn. now repeat split.
    - destruct (FormatConverter.convertFormat env b _ _ w3)
        as [[e|out] w4] eqn:Hc; [discriminate|].
      intros [= <- _]. cbn. repeat split.
      exact (convertFormat_result_type env _ _ _ _ _ _ Hhonest Hc). }
  destruct (ImageCompressor.compressImage env _ _ w2) as [[e|cb] w3];
    apply Hfinal.
Qed.

Lemma processSingleFile_output_type_witness :
  exists r w',
    honest_encoder logo_env
    /\ processSingleFile logo_env logo_entry jpeg_settings empty_world
       = (inr r, w')
    /\ blob_type (res_blob r) = "image/jpeg"%string
    /\ res_format r = "jpeg"%string
    /\ res_newSize r = blob_size (res_blob r)
    /\ res_originalName r = "logo.png"%string
    /\ res_originalSize r = 1000%N.
Proof.
  assert (Hhonest : honest_encoder logo_env)
    by (intros c mime q blob [= <-]; reflexivity).
  destruct (processSingleFile logo_env logo_entry jpeg_settings empty_world)
    as [[e|r] w'] eqn:Hrun; [vm_compute in Hrun; discriminate|].
  exists r, w'. split; [exact Hhonest|]. split; [reflexivity|].
  exact (processSingleFile_output_type logo_env logo_entry jpeg_settings
           empty_world w' r Hhonest Hrun).
Defined.

End OutputType.

(** ** The qualities handed to the host *)

Section Calls.

Import Host.

Variable P : Event -> Prop.

Lemma calls_ret {A : Type} (a : A) : calls P (mret a).
Proof.
  exists (inr a), []. split; [|constructor].
  intros w. now rewrite extend_nil.
Qed.

Lemma calls_throw {A : Type} (e : JsError) : calls P (@throw A e).
Proof.
  exists (inl e), []. split; [|constructor].
  intros w. now rewrite extend_nil.
Qed.

Lemma calls_log (e : Event) : P e -> calls P (log e).
Proof.
  intros H. exists (inr tt), [e]. split; [reflexivity | now constructor].
Qed.

Lemma calls_bind {A B : Type} (m : M A) (f : A -> M B) :
  calls P m -> (forall a, calls P (f a)) -> calls P (m ≫= f).
Proof.
  intros (r & evs & Hm & Hall) Hf. destruct r as [e|a].
  - exists (inl e), evs. split; [|assumption].
    intros w. apply bind_throws, Hm.
  - destruct (Hf a) as (r' & evs' & Hfa & Hall').
    exists r', (evs ++ evs'). split; [|now apply Forall_app].
    intros w. rewrite (bind_returns _ _ _ _ _ (Hm w)), Hfa.
    now rewrite extend_extend.
Qed.

Lemma calls_try_catch {A : Type} (m : M A) (h : JsError -> M A) :
  calls P m -> (forall e, calls P (h e)) -> calls P (try_catch m h).
Proof.
  intros (r & evs & Hm & Hall) Hh. destruct r as [e|a].
  - destruct (Hh e) as (r' & evs' & Hhe & Hall').
    exists r', (evs ++ evs'). split; [|now apply Forall_app].
    intros w. unfold try_catch. rewrite Hm, Hhe. now rewrite extend_extend.
  - exists (inr a), evs. split; [|assumption].
    intros w. unfold try_catch. now rewrite Hm.
Qed.

End Calls.

Ltac calls_step :=
  match goal with
  | |- calls _ (if ?b then _ else _) => destruct b
  | |- calls _ (match ?x with _ => _ end) => destruct x
  | |- calls _ (let '(_, _) := ?x in _) => destruct x
  | |- calls _ (_ ≫= _) => apply calls_bind; [|intros ?]
  | |- calls _ (Host.try_catch _ _) => apply calls_try_catch; [|intros ?]
  | |- calls _ (mret _) => apply calls_ret
  | |- calls _ (Host.throw _) => apply calls_throw
  | |- calls _ (Host.log _) => apply calls_log
  end.

Section Qualities.

Import Host StateManager.

(** X24.  Unless the quality setting is [NaN], every quality that
    [processSingleFile] hands to the host, to [canvas.toBlob] on the
    main path and in a format conversion and to the compression library
    as its initial quality, lies between 0.1 and 1; and the pipeline
    does nothing but call the host, the same calls in every world. *)
Theorem processSingleFile_qualities (env : Env) (fd : FileEntry)
    (settings : Settings) :
  quality settings <> JS.NaN ->
  exists r evs,
    (forall w, App.processSingleFile env fd settings w = (r, extend w evs))
    /\ Forall quality_in_range evs.
Proof.
  intros Hq.
  assert (Hn := normalized_quality (quality settings) Hq).
  change (calls quality_in_range (App.processSingleFile env fd settings)).
  unfold App.processSingleFile, ImageProcessor.processImage,
    UtilsIO.loadImage, ImageProcessor.getExifOrientation,
    App.canvasToBlob, ImageCompressor.compressImage,
    ImageCompressor.initLibrary, ImageCompressor.call_library,
    FormatConverter.convertFormat, FormatConverter.createImageFromBlob.
  cbv zeta.
  repeat calls_step; try exact I; try exact Hn.
Qed.

Lemma processSingleFile_qualities_witness :
  exists r evs,
    (forall w,
       App.processSingleFile logo_env logo_entry jpeg_settings w
       = (r, extend w evs))
    /\ Forall quality_in_range evs.
Proof.
  apply (processSingleFile_qualities logo_env logo_entry jpeg_settings).
  discriminate.
Defined.

End Qualities.

(** ** The quality the search reports *)

Section SearchQuality.

Import Host SmartCompression.

Variable env : Env.
Variable c : Canvas.

Lemma canvasToBlob_run (mime : string) (q : JS.number) (w : World) :
  canvasToBlob env c mime q w
  = (match toBlob env c mime q with
     | Some blob => inr blob
     | None => inl (Error "Failed to create blob")
     end, extend w [EvToBlob c mime q]).
Proof.
  unfold canvasToBlob. rewrite (bind_returns _ _ _ _ _ (log_extends _ w)).
  now destruct (toBlob env c mime q).
Qed.

Section Loop.

Variables (mime : string) (targetBytes tolerance : JS.number).

Lemma search_loop_keeps_quality (remaining : nat) :
  forall (s : Search) (w w' : World) (r : Found + Search),
    best_at_quality env c mime s ->
    search_loop env c mime targetBytes tolerance remaining s w = (inr r, w') ->
    match r with
    | inl found =>
        toBlob env c mime (JS.div (found_quality found) (JS.of_Z 100))
        = Some (found_blob found)
    | inr s' =>
        best_at_quality env c mime s'
        /\ (bestBlob s' = None ->
            bestBlob s = None /\ bestQuality s' = bestQuality s)
    end.
Proof.
  induction remaining as [|remaining IH]; intros s w w' r Hbest;
    cbn [search_loop].
  - intros [= <- _]. now split.
  - destruct (JS.le (low s) (high s)); [|intros [= <- _]; now split].
    set (mid := JS.round _).
    unfold mbind, M_bind. rewrite canvasToBlob_run.
    destruct (toBlob env c mime (JS.div mid (JS.of_Z 100))) as [blob|] eqn:Hb;
      [|discriminate].
    destruct (JS.ge _ _ && JS.le _ _); [intros [= <- _]; exact Hb|].
    destruct (JS.gt _ _); intros Hrun;
      (eapply IH in Hrun; [|intros b [= <-]; exact Hb]);
      (destruct r as [found|s']; [exact Hrun|]);
      destruct Hrun as [H1 H2]; (split; [exact H1|]);
      intros Hnone; destruct (H2 Hnone) as [H3 _]; discriminate.
Qed.

Lemma round_half_up_ge (q : Q) (z : Z) :
  (inject_Z z <= q)%Q -> z <= JS.round_half_up q.
Proof.
  intros H. unfold JS.round_half_up. rewrite <- (Qfloor_Z z).
  apply Qfloor_resp_le. lra.
Qed.

Lemma le_finite (l h : Q) : JS.le (JS.Fin l) (JS.Fin h) = true -> (l <= h)%Q.
Proof.
  unfold JS.le, JS.lt, JS.strict_eq. intros H.
  apply orb_true_iff in H as [H|H].
  - apply Qltb_lt in H. lra.
  - apply Qeq_bool_iff in H. lra.
Qed.

Lemma search_loop_within (lo hi : Z) (remaining : nat) :
  forall (s : Search) (w w' : World) (r : Found + Search),
    within lo hi s ->
    search_loop env c mime targetBytes tolerance remaining s w = (inr r, w') ->
    exists q,
      match r with
      | inl found => found_quality found
      | inr s' => bestQuality s'
      end = JS.of_Z q
      /\ lo <= q <= hi.
Proof.
  induction remaining as [|remaining IH]; intros s w w' r Hin;
    cbn [search_loop].
  - intros [= <- _]. apply Hin.
  - destruct (JS.le (low s) (high s)) eqn:Hle;
      [|intros [= <- _]; apply Hin].
    destruct Hin as ((l & zl & Hl & El & Hzl) & (h & zh & Hh & Eh & Hzh)
                     & Hq).
    rewrite Hl, Hh in *. apply le_finite in Hle.
    assert (Hmid : JS.round (JS.div (JS.add (JS.Fin l) (JS.Fin h))
                               (JS.of_Z 2))
                   = JS.of_Z (JS.round_half_up ((l + h) / inject_Z 2)))
      by reflexivity.
    rewrite Hmid. clear Hmid.
    set (m := JS.round_half_up ((l + h) / inject_Z 2)).
    assert (Hm : zl <= m <= zh).
    { assert (Hzz : (inject_Z zl <= inject_Z zh)%Q) by lra.
      change (inject_Z 2) with (2 # 1) in m.
      assert (X : ((l + h) / (2 # 1) == (l + h) * (1 # 2))%Q) by field.
      subst m. split.
      - apply round_half_up_ge. rewrite X. lra.
      - apply round_half_up_le. rewrite X. lra. }
    unfold mbind, M_bind. rewrite canvasToBlob_run.
    destruct (toBlob env c mime _) as [blob|]; [|discriminate].
    destruct (JS.ge _ _ && JS.le _ _).
    { intros [= <- _]. exists m. split; [reflexivity | lia]. }
    destruct (JS.gt _ _); intros Hrun; eapply IH in Hrun; try exact Hrun.
    + split; [|split]; cbn [low high bestQuality].
      * exists l, zl. now repeat split.
      * exists (inject_Z m - inject_Z 1)%Q, (m - 1).
        split; [reflexivity|]. split; [|lia].
        unfold Qeq, Qminus, Qplus, Qopp, inject_Z. cbn [Qnum Qden]. lia.
      * exists m. split; [reflexivity | lia].
    + split; [|split]; cbn [low high bestQuality].
      * exists (inject_Z m + inject_Z 1)%Q, (m + 1).
        split; [reflexivity|]. split; [|lia].
        unfold Qeq, Qplus, inject_Z. cbn [Qnum Qden]. lia.
      * exists h, zh. now repeat split.
      * exists m. split; [reflexivity | lia].
Qed.

End Loop.

Lemma findOptimalQuality_found (format : string)
    (targetSizeKB : JS.number) (options : Options) (w w' : World)
    (found : Found) :
  findOptimalQuality env c format targetSizeKB options w = (inr found, w') ->
  toBlob env c
    ("image/" ++ (if String.eqb format "jpg" then "jpeg" else format))
    (if String.eqb format "png" then JS.of_Z 1
     else JS.div (found_quality found) (JS.of_Z 100))
  = Some (found_blob found)
  /\ (String.eqb format "png" = true -> found_quality found = JS.of_Z 100)
  /\ (forall lo hi : Z,
        String.eqb format "png" = false ->
        minQuality options = JS.of_Z lo -> maxQuality options = JS.of_Z hi ->
        lo <= hi ->
        exists q, found_quality found = JS.of_Z q /\ lo <= q <= hi).
Proof.
  unfold findOptimalQuality.
  set (mime := ("image/" ++ _)%string).
  set (targetBytes := JS.mul targetSizeKB _).
  destruct (String.eqb format "png").
  - unfold mbind, M_bind. rewrite canvasToBlob_run.
    destruct (toBlob env c mime (JS.of_Z 1)) as [blob|] eqn:Hb;
      [|discriminate].
    intros [= <- _]. cbn [found_quality found_blob].
    split; [reflexivity|]. split; [reflexivity|]. intros; discriminate.
  - unfold mbind at 1, M_bind at 1.
    set (s0 := mkSearch _ _ _ _ _).
    destruct (search_loop env c mime targetBytes (tolerance options)
                (maxIterations options) s0 w) as [[e|r] w1] eqn:Hloop;
      [discriminate|].
    assert (Hq := search_loop_keeps_quality mime targetBytes
                    (tolerance options) (maxIterations options) s0 w w1 r
                    ltac:(intros b; discriminate) Hloop).
    assert (Hin : forall lo hi,
              minQuality options = JS.of_Z lo ->
              maxQuality options = JS.of_Z hi -> lo <= hi ->
              exists q,
                match r with
                | inl found => found_quality found
                | inr s' => bestQuality s'
                end = JS.of_Z q /\ lo <= q <= hi).
    { intros lo hi Hlo Hhi Hle.
      apply (search_loop_within mime targetBytes (tolerance options) lo hi
               (maxIterations options) s0 w w1 r); [|exact Hloop].
      subst s0. unfold within. cbn [low high bestQuality].
      rewrite Hlo, Hhi. split; [|split].
      - exists (inject_Z lo), lo.
        split; [reflexivity|]. split; [apply Qeq_refl | lia].
      - exists (inject_Z hi), hi.
        split; [reflexivity|]. split; [apply Qeq_refl | lia].
      - exists hi. split; [reflexivity | lia]. }
    destruct r as [found'|s'].
    + intros [= <- _]. split; [exact Hq|]. split; [discriminate|].
      intros lo hi _. apply Hin.
    + destruct Hq as [Hbest _].
      destruct (bestBlob s') as [blob|] eqn:Hblob.
      * intros [= <- _]. cbn [found_quality found_blob].
        split; [now apply Hbest|]. split; [discriminate|].
        intros lo hi _. apply Hin.
      * unfold mbind, M_bind. rewrite canvasToBlob_run.
        destruct (toBlob env c mime _) as [blob|] eqn:Hb; [|discriminate].
        intros [= <- _]. cbn [found_quality found_blob].
        split; [exact Hb|]. split; [discriminate|].
        intros lo hi _. apply Hin.
Qed.

End SearchQuality.

Section SearchQualityReported.

Import Host SmartCompression SmartCompressionMore.

(** X25.  When [findOptimalQuality] returns for a format other than png,
    with integer bounds [minQuality <= maxQuality], the quality it
    reports is an integer within those bounds, and the blob it returns
    is the one [toBlob] makes from the canvas at that quality (divided
    by 100) for the MIME type of the format. *)
Theorem findOptimalQuality_quality (env : Env) (c : Canvas)
    (format : string) (targetSizeKB tolerance : JS.number)
    (maxIterations : nat) (lo hi : Z) (w w' : World) (found : Found) :
  format <> "png"%string -> lo <= hi ->
  findOptimalQuality env c format targetSizeKB
    (mkOptions (JS.of_Z lo) (JS.of_Z hi) tolerance maxIterations) w
  = (inr found, w') ->
  toBlob env c
    ("image/" ++ (if String.eqb format "jpg" then "jpeg" else format))
    (JS.div (found_quality found) (JS.of_Z 100))
  = Some (found_blob found)
  /\ exists q, found_quality found = JS.of_Z q /\ lo <= q <= hi.
Proof.
  intros Hfmt Hle Hrun.
  destruct (findOptimalQuality_found _ _ _ _ _ _ _ _ Hrun)
    as (Hblob & _ & Hin).
  destruct (String.eqb_spec format "png") as [E|_]; [contradiction|].
  split; [exact Hblob|]. now apply (Hin lo hi).
Qed.

Lemma findOptimalQuality_quality_witness :
  exists found w',
    findOptimalQuality five_byte_env small_canvas "jpeg" (JS.of_Z 1)
      default_options empty_world = (inr found, w')
    /\ toBlob five_byte_env small_canvas "image/jpeg"
         (JS.div (found_quality found) (JS.of_Z 100))
       = Some (found_blob found)
    /\ exists q, found_quality found = JS.of_Z q /\ 10 <= q <= 95.
Proof.
  destruct (findOptimalQuality five_byte_env small_canvas "jpeg" (JS.of_Z 1)
              default_options empty_world) as [[e|found] w'] eqn:Hrun;
    [vm_compute in Hrun; discriminate|].
  exists found, w'. split; [reflexivity|].
  apply (findOptimalQuality_quality five_byte_env small_canvas "jpeg"
           (JS.of_Z 1) (JS.Fin (1 # 10)) 10%nat 10 95 empty_world w' found);
    [discriminate | lia | exact Hrun].
Defined.

(** X26.  When [autoOptimize] returns: the format is webp, jpeg or png;
    it is png whenever the analysis saw a transparent pixel, and webp
    only if the browser can encode webp; the blob is the one [toBlob]
    makes from the canvas for that format at the reported quality
    (divided by 100); and the reported quality is an integer between 30
    and 95. *)
Theorem autoOptimize_choice (env : Env)
    (toDataURL : Canvas -> string -> option JS.number -> string)
    (c : Canvas) (options : AutoOptions) (w w' : World) (r : Optimized) :
  autoOptimize env toDataURL c options w = (inr r, w') ->
  In (opt_format r) ["webp"; "jpeg"; "png"]%string
  /\ (hasTransparency (analyzeImage env c) = true ->
      opt_format r = "png"%string)
  /\ (opt_format r = "webp"%string -> checkWebPSupport toDataURL = true)
  /\ toBlob env c ("image/" ++ opt_format r)
       (JS.div (opt_quality r) (JS.of_Z 100))
     = Some (opt_blob r)
  /\ exists q, opt_quality r = JS.of_Z q /\ 30 <= q <= 95.
Proof.
  unfold autoOptimize. cbv zeta.
  set (a := analyzeImage env c).
  set (fmt := if hasTransparency a then _ else _).
  set (quality := if isPhoto a then _ else _).
  assert (Hfmt : In fmt ["webp"; "jpeg"; "png"]%string
                 /\ (hasTransparency a = true -> fmt = "png"%string)
                 /\ (fmt = "webp"%string ->
                     checkWebPSupport toDataURL = true)).
  { subst fmt.
    destruct (hasTransparency a), ((colorCount a <? 256) && isGraphic a),
      (checkWebPSupport toDataURL); cbn;
      repeat split; auto; discriminate. }
  assert (Hmime : ("image/" ++ (if String.eqb fmt "jpg" then "jpeg" else fmt)
                   = "image/" ++ fmt)%string).
  { destruct Hfmt as (H & _). cbn in H.
    destruct H as [<-|[<-|[<-|[]]]]; reflexivity. }
  assert (Hq : exists q, quality = JS.of_Z q /\ 30 <= q <= 95).
  { subst quality.
    destruct (isPhoto a), (isGraphic a), (preferSmallSize options);
      eexists; (split; [reflexivity | lia]). }
  clearbody fmt quality. rewrite Hmime.
  assert (Hplain :
            (canvasToBlob env c ("image/" ++ fmt)
               (JS.div quality (JS.of_Z 100))
               ≫= (fun blob => mret (mkOptimized fmt quality blob a))) w
            = (inr r, w') ->
            In (opt_format r) ["webp"; "jpeg"; "png"]%string
            /\ (hasTransparency a = true -> opt_format r = "png"%string)
            /\ (opt_format r = "webp"%string ->
                checkWebPSupport toDataURL = true)
            /\ toBlob env c ("image/" ++ opt_format r)
                 (JS.div (opt_quality r) (JS.of_Z 100))
               = Some (opt_blob r)
            /\ exists q, opt_quality r = JS.of_Z q /\ 30 <= q <= 95).
  { unfold mbind, M_bind. rewrite canvasToBlob_run.
    destruct (toBlob env c _ _) as [blob|] eqn:Hb; [|discriminate].
    intros [= <- _]. cbn [opt_format opt_quality opt_blob].
    destruct Hfmt as (H1 & H2 & H3). repeat split; assumption. }
  destruct (maxSizeKB options) as [size|]; [|exact Hplain].
  destruct (JS.truthy size && negb (String.eqb fmt "png")) eqn:E;
    [|exact Hplain].
  apply andb_true_iff in E as [_ E]. apply negb_true_iff in E.
  unfold mbind, M_bind.
  destruct (findOptimalQuality env c fmt size _ w) as [[e|found] w1] eqn:Hf;
    [discriminate|].
  intros [= <- _]. cbn [opt_format opt_quality opt_blob].
  destruct (findOptimalQuality_found env c _ _ _ _ _ _ Hf)
    as (Hblob & _ & Hin).
  rewrite E, Hmime in Hblob.
  destruct Hq as (q & Hq & Hrange).
  destruct (Hin 30 q E eq_refl Hq ltac:(lia)) as (q' & Hq' & Hrange').
  destruct Hfmt as (H1 & H2 & H3).
  repeat split; try assumption. exists q'. split; [assumption | lia].
Qed.

Lemma autoOptimize_choice_witness :
  exists r w',
    autoOptimize five_byte_env data_url small_canvas
      (mkAutoOptions true (Some (JS.of_Z 1))) empty_world
    = (inr r, w')
    /\ In (opt_format r) ["webp"; "jpeg"; "png"]%string
    /\ (hasTransparency (analyzeImage five_byte_env small_canvas) = true ->
        opt_format r = "png"%string)
    /\ (opt_format r = "webp"%string -> checkWebPSupport data_url = true)
    /\ toBlob five_byte_env small_canvas ("image/" ++ opt_format r)
         (JS.div (opt_quality r) (JS.of_Z 100))
       = Some (opt_blob r)
    /\ exists q, opt_quality r = JS.of_Z q /\ 30 <= q <= 95.
Proof.
  destruct (autoOptimize five_byte_env data_url small_canvas
              (mkAutoOptions true (Some (JS.of_Z 1))) empty_world)
    as [[e|r] w'] eqn:Hrun; [vm_compute in Hrun; discriminate|].
  exists r, w'. split; [reflexivity|].
  exact (autoOptimize_choice five_byte_env data_url small_canvas
           (mkAutoOptions true (Some (JS.of_Z 1))) empty_world w' r Hrun).
Defined.

End SearchQualityReported.

(** ** What the sampling sees *)

Section Sampling.

Import Host SmartCompression FormatConverterMore.

Lemma size_add_one (x : Z * Z * Z) (X : gset (Z * Z * Z)) :
  (size ({[ x ]} ∪ X) <= 1 + size X)%nat.
Proof.
  rewrite size_union_alt, size_singleton.
  apply Nat.add_le_mono_l, subseteq_size.
  intros y Hy. apply elem_of_difference in Hy. apply Hy.
Qed.

Lemma sampling_invariant (data : list Z) (l : list nat) :
  forall s : Sampling,
    let s' := fold_left (sample data) l s in
    pixelCount s' = pixelCount s + Z.of_nat (length l)
    /\ Z.of_nat (size (colorSet s'))
       <= Z.of_nat (size (colorSet s)) + Z.of_nat (length l)
    /\ (s_hasTransparency s' = true ->
        s_hasTransparency s = true
        \/ exists i, In i l /\ at_index data (i + 3) < 255).
Proof.
  induction l as [|i l IH]; intros s; cbn [fold_left length].
  - repeat split; try lia. now left.
  - destruct (IH (sample data s i)) as (H1 & H2 & H3).
    cbv zeta in *. rewrite H1. cbn [sample pixelCount].
    split; [lia|]. split.
    + etransitivity; [exact H2|]. cbn [sample colorSet].
      match goal with
      | |- context [size ({[ ?x ]} ∪ ?X)] =>
          assert (Hsz := size_add_one x X)
      end.
      lia.
    + intros Ht. destruct (H3 Ht) as [Hs|(j & Hj & Hlt)].
      * cbn [sample s_hasTransparency] in Hs.
        destruct (Z.ltb_spec (at_index data (i + 3)) 255) as [Hlt|_].
        -- right. exists i. split; [now left | assumption].
        -- now left.
      * right. exists j. split; [now right | assumption].
Qed.

(** X27.  [analyzeImage] looks at one pixel in ten, so the number of
    colours it counts is at most the number of pixels it samples (the
    number of bytes of the image data divided by 40, rounded up); hence
    an image of at most 1000 samples, that is of at most 10000 pixels,
    is never classified as a photo. *)
Theorem analyzeImage_sample_bound (env : Env) (c : Canvas) :
  let a := analyzeImage env c in
  let samples := ((length (getImageData env c) + 39) / 40)%nat in
  0 <= colorCount a <= Z.of_nat samples
  /\ ((samples <= 1000)%nat -> isPhoto a = false).
Proof.
  cbv zeta. unfold analyzeImage. cbn [colorCount isPhoto].
  unfold sampling.
  destruct (sampling_invariant (getImageData env c)
              (sample_indices (length (getImageData env c)))
              (mkSampling false ∅ 0 0)) as (_ & H2 & _).
  cbv zeta in H2. cbn [colorSet] in H2. rewrite size_empty in H2.
  unfold sample_indices in H2 at 2. rewrite length_map, length_seq in H2.
  split; [lia|].
  intros Hsmall.
  match goal with
  | |- _ && (1000 <? ?n) = false =>
      destruct (Z.ltb_spec 1000 n); [lia | apply andb_false_r]
  end.
Qed.

(** X28.  On image data of four bytes per pixel and with a 2D context
    available, a transparency that [analyzeImage] reports, from the
    pixels it samples, is one that [detectTransparency], which reads
    every pixel, reports too. *)
Theorem sampled_transparency_is_detected (env : Env) (c : Canvas) :
  (length (getImageData env c) mod 4 = 0)%nat ->
  context2d env = true ->
  hasTransparency (analyzeImage env c) = true ->
  detectTransparency env c = true.
Proof.
  intros Hlen Hctx. unfold analyzeImage, detectTransparency.
  cbn [hasTransparency]. rewrite Hctx. cbn [negb]. unfold sampling.
  set (data := getImageData env c) in *.
  destruct (sampling_invariant data (sample_indices (length data))
              (mkSampling false ∅ 0 0)) as (_ & _ & H3).
  cbv zeta in H3. intros Ht.
  destruct (H3 Ht) as [Hs|(i & Hi & Hlt)]; [discriminate|].
  apply sample_indices_spec in Hi as [Hi Hmod].
  apply existsb_exists. exists (i + 3)%nat. split.
  - unfold alpha_indices. apply in_map_iff. exists (i / 4)%nat.
    assert (Hi4 : (i mod 4 = 0)%nat).
    { assert (H40 := Nat.div_mod_eq i 40).
      rewrite Hmod in H40.
      replace i with ((10 * (i / 40)) * 4)%nat at 1 by lia.
      apply Nat.Div0.mod_mul. }
    assert (Hd := Nat.div_mod_eq i 4).
    assert (Hn := Nat.div_mod_eq (length data) 4).
    split; [lia|]. apply in_seq. split; [lia|].
    cbn [Nat.add].
    apply Nat.Div0.div_lt_upper_bound. lia.
  - apply Z.ltb_lt. exact Hlt.
Qed.

Lemma sampled_transparency_is_detected_witness :
  hasTransparency (analyzeImage clear_pixel_env small_canvas) = true
  /\ detectTransparency clear_pixel_env small_canvas = true.
Proof.
  split; [reflexivity|].
  apply (sampled_transparency_is_detected clear_pixel_env small_canvas);
    reflexivity.
Defined.

End Sampling.

(** ** The counters of a batch *)

Section BatchCounts.

Import Host DownloadManager StateManager App.

Variable env : Env.
Variable settings : Settings.

Lemma process_item_counts (fd : FileEntry) (b : Batch) (w : World) :
  exists w',
    process_item env settings fd b w
    = (inr match outcome env settings fd with
           | inr r =>
               mkBatch (results b ++ [r]) (S (successCount b)) (errorCount b)
           | inl _ =>
               mkBatch (results b) (successCount b) (S (errorCount b))
           end, w')
    /\ counted env settings fd w w'.
Proof.
  destruct (processSingleFile_runs env settings fd) as [evs Hrun].
  unfold process_item, mbind, M_bind, try_catch, modify, sleep, log.
  cbn. rewrite Hrun. unfold counted.
  destruct (outcome env settings fd) as [e|r]; cbn.
  - eexists. split; [reflexivity|]. cbn.
    repeat split; try reflexivity; try lia.
    now rewrite !update_keeps_ids.
  - destruct (Z.ltb_spec 0 (Z.of_N (originalSize fd) - Z.of_N (res_newSize r)));
      cbn; (eexists; split; [reflexivity|]); cbn;
      (repeat split; try reflexivity; try lia);
      now rewrite !update_keeps_ids.
Qed.

Lemma outcomes_partition (fds : list FileEntry) :
  (length (successes env settings fds) + failures env settings fds
   = length fds)%nat.
Proof.
  unfold successes, failures.
  induction fds as [|fd fds IH]; [reflexivity|].
  cbn [flat_map length]. rewrite filter_cons, length_app.
  destruct (outcome env settings fd) as [e|r].
  - rewrite decide_True by reflexivity. cbn [length]. lia.
  - rewrite decide_False by discriminate. cbn [length]. lia.
Qed.

Lemma process_loop_counts (todo : list FileEntry) :
  forall (b : Batch) (w : World),
    exists w',
      process_loop env settings todo b w
      = (inr (tally env settings todo b), w')
      /\ currentScreen (state w') = currentScreen (state w)
      /\ StateManager.settings (state w') = StateManager.settings (state w)
      /\ processing_state (state w') = processing_state (state w)
      /\ map id (files (state w')) = map id (files (state w))
      /\ processedCount (state w')
         = processedCount (state w)
           + Z.of_nat (length (successes env settings todo))
      /\ totalSaved (state w) <= totalSaved (state w')
      /\ processedResults w' = processedResults w.
Proof.
  induction todo as [|fd todo IH]; intros b w.
  - exists w. cbn. unfold tally, failures. cbn.
    rewrite app_nil_r, !Nat.add_0_r. destruct b.
    repeat split; lia.
  - destruct (process_item_counts fd b w)
      as (w1 & Hitem & H1 & H2 & H3 & H4 & H5 & H6 & H7).
    cbn [process_loop]. rewrite (bind_returns _ _ _ _ _ Hitem).
    set (b1 := match outcome env settings fd with inl _ => _ | inr _ => _ end)
      in *.
    destruct (IH b1 w1) as (w' & Hloop & I1 & I2 & I3 & I4 & I5 & I6 & I7).
    exists w'. rewrite Hloop.
    split.
    { f_equal. f_equal. subst b1. unfold tally, successes, failures.
      cbn [flat_map]. rewrite filter_cons.
      destruct (outcome env settings fd) as [e|r];
        cbn [results successCount errorCount].
      - rewrite decide_True by reflexivity. cbn. f_equal; lia.
      - rewrite decide_False by discriminate.
        rewrite <- app_assoc. cbn [app length]. f_equal; lia. }
    rewrite I1, I2, I3, I4, I5, I7, H1, H2, H3, H4, H5, H7.
    repeat split; try lia.
    unfold successes. cbn [flat_map]. rewrite length_app.
    fold (successes env settings todo).
    destruct (outcome env settings fd); cbn [length]; lia.
Qed.

End BatchCounts.

Section BatchTotals.

Import Host DownloadManager StateManager App.

(** X29.  [processAllFiles] never throws, whatever the queue holds.  The
    successes and the errors it counts add up to the number of queued
    files, and it hands on one result per success.  Afterwards the queue
    has the same ids in the same order, the session's count of
    processed files has grown by the number of successes, the bytes
    saved have not gone down, and the settings are as before; the
    screen is the download screen if a file went through and the former
    one if none did.  On an empty queue nothing changes at all;
    otherwise the results are stored for download and the processing
    state ends not processing, at 100 percent, with the number of
    files as its total. *)
Theorem processAllFiles_counts (env : Env) (w : World) :
  exists b w',
    processAllFiles env w = (inr b, w')
    /\ (successCount b + errorCount b = length (files (state w)))%nat
    /\ length (results b) = successCount b
    /\ map id (files (state w')) = map id (files (state w))
    /\ processedCount (state w')
       = processedCount (state w) + Z.of_nat (successCount b)
    /\ totalSaved (state w) <= totalSaved (state w')
    /\ StateManager.settings (state w') = StateManager.settings (state w)
    /\ currentScreen (state w')
       = (if (0 <? successCount b)%nat then "download"%string
          else currentScreen (state w))
    /\ (files (state w) = [] -> w' = w)
    /\ (files (state w) <> [] ->
        processedResults w' = results b
        /\ processing_state (state w')
           = mkProcessing false 0 (Z.of_nat (length (files (state w)))) 100).
Proof.
  unfold processAllFiles.
  unfold get_state, mbind at 1, M_bind at 1.
  set (settings := StateManager.settings (state w)).
  destruct (files (state w)) as [|fd fs] eqn:Hfiles.
  - cbn. exists (mkBatch [] 0 0), w.
    split; [reflexivity|]. split; [reflexivity|]. split; [reflexivity|].
    split; [now rewrite Hfiles|]. split; [cbn; lia|]. split; [lia|].
    split; [reflexivity|]. split; [reflexivity|]. split; [reflexivity|].
    intros H. contradiction.
  - cbn [length Nat.eqb].
    set (w0 := mkWorld (trace w) (startProcessing (state w))
                 (processedResults w)).
    destruct (process_loop_counts env settings (fd :: fs) (mkBatch [] 0 0) w0)
      as (w1 & Hloop & I1 & I2 & I3 & I4 & I5 & I6 & I7).
    set (b := tally env settings (fd :: fs) (mkBatch [] 0 0)) in *.
    assert (Hb : successCount b = length (successes env settings (fd :: fs))
                 /\ errorCount b = failures env settings (fd :: fs)
                 /\ results b = successes env settings (fd :: fs))
      by (subst b; unfold tally; cbn; repeat split).
    destruct Hb as (Hb1 & Hb2 & Hb3).
    assert (Hpart := outcomes_partition env settings (fd :: fs)).
    assert (Hlen : length (results b) = successCount b)
      by now rewrite Hb1, Hb3.
    rewrite <- Hb1 in *. rewrite <- Hb2 in Hpart. clear Hb1 Hb2 Hb3.
    clearbody b.
    unfold mbind, M_bind, modify, sleep, log, setProcessedResults.
    fold w0. rewrite Hloop.
    subst w0. cbn [state trace processedResults] in *.
    unfold startProcessing in *. cbn [files set_processing currentScreen
      StateManager.settings processing_state processedCount totalSaved] in *.
    rewrite Hfiles in *.
    exists b.
    destruct (0 <? successCount b)%nat eqn:Hs; cbn;
      (eexists; split; [reflexivity|]); cbn;
      rewrite ?I1, ?I2, ?I3, ?I4, ?I5;
      (repeat split; try reflexivity; try assumption; try lia;
       try discriminate).
Qed.

End BatchTotals.

(** ** The statistics of the download screen *)

Section Stats.

Import Host DownloadManager DownloadManagerMore.

Lemma sum_of_from (field : ResultObject -> N) (rs : list ResultObject) :
  forall acc,
    fold_left (fun sum r => sum + Z.of_N (field r)) rs acc
    = acc + sum_of field rs.
Proof.
  unfold sum_of. induction rs as [|r rs IH]; intros acc; cbn [fold_left].
  - lia.
  - rewrite IH, (IH (0 + _)). lia.
Qed.

Lemma sum_of_cons (field : ResultObject -> N) (r : ResultObject)
    (rs : list ResultObject) :
  sum_of field (r :: rs) = Z.of_N (field r) + sum_of field rs.
Proof. unfold sum_of at 1. cbn [fold_left]. now rewrite sum_of_from. Qed.

Lemma sum_of_nonneg (field : ResultObject -> N) (rs : list ResultObject) :
  0 <= sum_of field rs.
Proof.
  induction rs as [|r rs IH]; [reflexivity|]. rewrite sum_of_cons. lia.
Qed.

(** X30.  [getDownloadStats] never throws and changes nothing.  It
    counts the stored results and adds up their original and new sizes;
    the bytes saved are the difference of the two sums; the average
    reduction is an integer of at most 100 that, unlike the savings of a
    single file, is not cut off at zero: it is non-negative when the
    results are not larger in total than the originals, and zero or
    negative when they are. *)
Theorem getDownloadStats_totals (w : World) :
  exists st,
    getDownloadStats w = (inr st, w)
    /\ stat_totalFiles st = length (processedResults w)
    /\ totalOriginalSize st = sum_of res_originalSize (processedResults w)
    /\ totalNewSize st = sum_of res_newSize (processedResults w)
    /\ stat_totalSaved st = totalOriginalSize st - totalNewSize st
    /\ exists z,
         averageReduction st = JS.of_Z z
         /\ z <= 100
         /\ (totalNewSize st <= totalOriginalSize st -> 0 <= z)
         /\ (totalOriginalSize st < totalNewSize st -> z <= 0).
Proof.
  unfold getDownloadStats. eexists. split; [reflexivity|].
  generalize (processedResults w). intros rs.
  unfold downloadStats.
  destruct rs as [|r rs].
  - cbn. repeat split. exists 0. repeat split; lia.
  - cbn [length Nat.eqb].
    set (o := sum_of res_originalSize (r :: rs)).
    set (n := sum_of res_newSize (r :: rs)).
    assert (Ho : 0 <= o) by apply sum_of_nonneg.
    assert (Hn : 0 <= n) by apply sum_of_nonneg.
    clearbody o n.
    cbn [stat_totalFiles totalOriginalSize totalNewSize stat_totalSaved
         averageReduction].
    do 4 (split; [reflexivity|]).
    unfold JS.gt. rewrite lt_of_Z.
    destruct (Z.ltb_spec 0 o) as [Hpos|Hzero].
    + assert (E : JS.round
                    (JS.mul (JS.div (JS.of_Z (o - n)) (JS.of_Z o))
                       (JS.of_Z 100))
                  = JS.of_Z
                      (JS.round_half_up
                         (inject_Z (o - n) / inject_Z o * inject_Z 100))).
      { unfold JS.of_Z, JS.div. rewrite Qis_zero_inject_Z.
        destruct (Z.eqb_spec o 0); [lia | reflexivity]. }
      rewrite E. eexists. split; [reflexivity|].
      assert (HoQ : (0 < inject_Z o)%Q)
        by (change 0%Q with (inject_Z 0); now rewrite <- Zlt_Qlt).
      assert (X : (inject_Z (o - n) / inject_Z o * inject_Z 100
                   == inject_Z (100 * (o - n)) / inject_Z o)%Q).
      { rewrite inject_Z_mult. change (inject_Z 100) with 100%Q.
        field. lra. }
      unfold JS.round_half_up.
      assert (X' : (inject_Z (o - n) / inject_Z o * inject_Z 100 + (1 # 2)
                    == inject_Z (100 * (o - n)) / inject_Z o + (1 # 2))%Q)
        by (rewrite X; reflexivity).
      rewrite (Qfloor_comp _ _ X').
      fold (JS.round_half_up (inject_Z (100 * (o - n)) / inject_Z o)).
      split; [|split].
      * apply round_half_up_le. apply Qle_shift_div_r; [assumption|].
        rewrite <- inject_Z_mult, <- Zle_Qle. lia.
      * intros Hle. apply round_half_up_nonneg.
        apply Qle_shift_div_l; [assumption|].
        rewrite Qmult_0_l. change 0%Q with (inject_Z 0).
        rewrite <- Zle_Qle. lia.
      * intros Hlt. apply round_half_up_le.
        apply Qle_shift_div_r; [assumption|].
        rewrite <- inject_Z_mult, <- Zle_Qle. lia.
    + exists 0. repeat split; lia.
Qed.

End Stats.
